(** * Serializable: the save / load protocol of mushroom_rl/core/serialization.py

    A shallow embedding of class [Serializable] and the properties of its
    archive protocol.

    Conventions of the embedding.
    - Python values are the trees of [pyval]; an instance is its class name
      and its [__dict__], an insertion-ordered association list.
    - An open [ZipFile] is the list of its entries in the order they were
      written.  The content of an entry is a [blob]: the encoder that
      produced the bytes together with the value the bytes stand for.  The
      libraries that produce and parse the bytes (pickle, json, numpy, torch)
      are not part of the repository; their model is the one of section
      "Library models".
    - Python exceptions are the constructors of [pyerr]; a computation that
      raises keeps the state it had reached.
    - Nested calls of [save_zip] and of [load_zip] consume [fuel], a bound
      on how deep these calls may nest.  The interpreter spends a fixed
      number of frames on each of them, so its recursion limit is such a
      bound, and running out of [fuel] is Python's [RecursionError]; [fuel]
      counts the nested calls, not the frames. *)

From Stdlib Require Import String Ascii List Bool Arith Lia ZArith.
Import ListNotations.
Local Open Scope list_scope.
Local Open Scope string_scope.
Set Warnings "-register-all".

(* ------------------------------------------------------------------ *)
(** ** Python values *)

Inductive pyval : Type :=
| PNone
| PBool (b : bool)
| PInt (n : Z)
| PStr (s : string)
| PList (xs : list pyval)
| PDict (kvs : list (string * pyval))
| PArray (shape : list nat) (data : list Z)
| PTensor (shape : list nat) (data : list Z) (requires_grad : bool)
| PClass (name : string)
| PObject (cls : string) (fields : list (string * pyval)).

Inductive pyerr : Type :=
| KeyError
| AttributeError
| IndexError
| TypeError
| ValueError
| NotImplementedError
| UnpicklingError
| JSONDecodeError
| RecursionError
| Unmodelled.

Inductive result (A : Type) : Type :=
| OK (a : A)
| Raise (e : pyerr).

Arguments OK {A} a.
Arguments Raise {A} e.

Definition rbind {A B} (c : result A) (k : A -> result B) : result B :=
  match c with
  | OK a => k a
  | Raise e => Raise e
  end.

Notation "'try' x <- c ; k" := (rbind c (fun x => k))
  (at level 10, x pattern, c at level 100, k at level 200).

(** A stateful computation: the state survives an exception. *)
Definition M (S A : Type) : Type := S -> S * result A.

Definition ret {S A} (a : A) : M S A := fun s => (s, OK a).
Definition raise {S A} (e : pyerr) : M S A := fun s => (s, Raise e).
Definition lift {S A} (r : result A) : M S A := fun s => (s, r).

Definition bind {S A B} (c : M S A) (k : A -> M S B) : M S B :=
  fun s =>
    match c s with
    | (s', OK a) => k a s'
    | (s', Raise e) => (s', Raise e)
    end.

Notation "x <- c ;; k" := (bind c (fun x => k))
  (at level 61, c at next level, right associativity).
Notation "c ;; k" := (bind c (fun _ => k))
  (at level 61, right associativity).

(** [for x in xs: body(x)] *)
Fixpoint for_each {S A} (xs : list A) (body : A -> M S unit) : M S unit :=
  match xs with
  | [] => ret tt
  | x :: xs' => body x ;; for_each xs' body
  end.

(* ------------------------------------------------------------------ *)
(** ** Dictionaries and strings *)

Section Assoc.
Context {A : Type}.

(** [d[k]] on an insertion-ordered dict *)
Fixpoint assoc_get (k : string) (d : list (string * A)) : option A :=
  match d with
  | [] => None
  | (k', v) :: d' => if String.eqb k k' then Some v else assoc_get k d'
  end.

(** [d[k] = v]: an existing key keeps its place, a new one goes last *)
Fixpoint assoc_set (k : string) (v : A) (d : list (string * A))
  : list (string * A) :=
  match d with
  | [] => [(k, v)]
  | (k', v') :: d' =>
      if String.eqb k k' then (k, v) :: d' else (k', v') :: assoc_set k v d'
  end.

(** [d.update(e)] *)
Definition assoc_update (d e : list (string * A)) : list (string * A) :=
  fold_left (fun acc kv => assoc_set (fst kv) (snd kv) acc) e d.
End Assoc.

Definition keys {A} (d : list (string * A)) : list string := map fst d.

(** [s[-1]]: [None] on the empty string, where Python raises IndexError *)
Fixpoint last_char (s : string) : option ascii :=
  match s with
  | EmptyString => None
  | String c EmptyString => Some c
  | String _ s' => last_char s'
  end.

(** [s[:-1]] *)
Fixpoint drop_last (s : string) : string :=
  match s with
  | EmptyString => EmptyString
  | String _ EmptyString => EmptyString
  | String c s' => String c (drop_last s')
  end.

Definition bang : ascii := "!"%char.
Definition dot : ascii := "."%char.

(* ------------------------------------------------------------------ *)
(** ** Attribute access

    [hasattr], [getattr] and [setattr] look at the instance [__dict__];
    attributes that live on the class (methods, dunder names) are modelled
    only where the code looks a method up by name. *)

Definition hasattr (att : string) (self : pyval) : bool :=
  match self with
  | PObject _ fields =>
      match assoc_get att fields with Some _ => true | None => false end
  | _ => false
  end.

Definition getattr (att : string) (self : pyval) : result pyval :=
  match self with
  | PObject _ fields =>
      match assoc_get att fields with
      | Some v => OK v
      | None => Raise AttributeError
      end
  | _ => Raise AttributeError
  end.

Definition setattr (att : string) (v : pyval) (self : pyval) : pyval :=
  match self with
  | PObject cls fields => PObject cls (assoc_set att v fields)
  | _ => self
  end.

(** [type(self)], for the instances that have a [save_zip] method *)
Definition type_of (self : pyval) : result pyval :=
  match self with
  | PObject cls _ => OK (PClass cls)
  | _ => Raise AttributeError
  end.

(** [object_type.__new__(object_type)]: a bare instance, no [__init__] *)
Definition object_new (object_type : pyval) : result pyval :=
  match object_type with
  | PClass cls => OK (PObject cls [])
  | _ => Raise TypeError
  end.

Definition is_None (v : pyval) : bool :=
  match v with PNone => true | _ => false end.

Definition dict_items (d : pyval) : result (list (string * pyval)) :=
  match d with
  | PDict kvs => OK kvs
  | _ => Raise AttributeError
  end.

Definition dict_values (d : pyval) : result (list pyval) :=
  match d with
  | PDict kvs => OK (map snd kvs)
  | _ => Raise AttributeError
  end.

(** A codec spec is a [str]; the code subscripts it without checking, and
    what it does with a spec of another type is not modelled. *)
Definition as_str (spec : pyval) : result string :=
  match spec with
  | PStr s => OK s
  | _ => Raise Unmodelled
  end.

(** [method[-1]] *)
Definition last_of (method : string) : result ascii :=
  match last_char method with
  | Some c => OK c
  | None => Raise IndexError
  end.

(** [method[:-1] if method[-1] is '!' else method].  CPython keeps one
    object per one-character string, so [is] decides equality here. *)
Definition strip_bang (method : string) (last : ascii) : string :=
  if Ascii.eqb last bang then drop_last method else method.

(* ------------------------------------------------------------------ *)
(** ** Library models: zipfile, pickle, numpy, torch, json *)

Inductive blob : Type :=
| BPickle (v : pyval)      (* pickle.dump, protocol HIGHEST_PROTOCOL *)
| BNpy (v : pyval)         (* numpy.save *)
| BTorch (v : pyval)       (* torch.save *)
| BJson (v : pyval)        (* json.dumps(...).encode('utf8') *)
| BTruncated.              (* an entry whose writer raised before finishing *)

Definition zipfile : Type := list (string * blob).

Definition namelist (z : zipfile) : list string := map fst z.

Definition in_namelist (name : string) (z : zipfile) : bool :=
  existsb (String.eqb name) (namelist z).

(** [zip_file.open(name, 'r')]: the entry written last under [name] *)
Definition zip_open (z : zipfile) (name : string) : result blob :=
  match assoc_get name (rev z) with
  | Some b => OK b
  | None => Raise KeyError
  end.

(** [with zip_file.open(path, 'w') as f: <encode into f>]: the entry is
    closed, hence kept, also when the encoder raises. *)
Definition zip_write (path : string) (encoded : result blob) : M zipfile unit :=
  fun z =>
    match encoded with
    | OK b => ((z ++ [(path, b)])%list, OK tt)
    | Raise e => ((z ++ [(path, BTruncated)])%list, Raise e)
    end.

Fixpoint json_serializable (v : pyval) : bool :=
  match v with
  | PNone | PBool _ | PInt _ | PStr _ => true
  | PList xs => forallb json_serializable xs
  | PDict kvs => forallb (fun kv => json_serializable (snd kv)) kvs
  | _ => false
  end.

Definition pickle_dump (obj : pyval) : result blob := OK (BPickle obj).

Definition pickle_load (b : blob) : result pyval :=
  match b with
  | BPickle v => OK v
  | _ => Raise UnpicklingError
  end.

(** numpy.save converts a value that is not an array before writing it;
    the conversion is not modelled. *)
Definition np_save (obj : pyval) : result blob :=
  match obj with
  | PArray _ _ => OK (BNpy obj)
  | _ => Raise Unmodelled
  end.

Definition np_load (b : blob) : result pyval :=
  match b with
  | BNpy v => OK v
  | _ => Raise ValueError
  end.

Definition torch_save (obj : pyval) : result blob := OK (BTorch obj).

Definition torch_load (b : blob) : result pyval :=
  match b with
  | BTorch v => OK v
  | _ => Raise UnpicklingError
  end.

Definition json_dumps (obj : pyval) : result blob :=
  if json_serializable obj then OK (BJson obj) else Raise TypeError.

Definition json_load (b : blob) : result pyval :=
  match b with
  | BJson v => OK v
  | _ => Raise JSONDecodeError
  end.

(* ------------------------------------------------------------------ *)
(** ** class Serializable *)

(** The state of a call of [save_zip]: [self] and the open [zip_file]. *)
Definition world : Type := (pyval * zipfile)%type.

Definition read_self {A} (f : pyval -> result A) : M world A :=
  fun w => (w, f (fst w)).

Definition on_zip {A} (m : M zipfile A) : M world A :=
  fun w =>
    let '(z', r) := m (snd w) in ((fst w, z'), r).

(** A method call on the object that [self] holds under [att]: the callee
    runs on that object, and what it leaves is what [self.att] refers to
    afterwards. *)
Definition on_attribute {A} (att : string) (attribute : pyval)
    (m : M world A) : M world A :=
  fun w =>
    let '((attribute', z'), r) := m (attribute, snd w) in
    ((setattr att attribute' (fst w), z'), r).

Definition _append_folder (folder name : string) : string :=
  match folder with
  | EmptyString => name
  | _ => folder ++ "/" ++ name
  end.

Definition _save_pickle (name : string) (obj : pyval) (folder : string)
  : M zipfile unit :=
  let path := _append_folder folder name in
  zip_write path (pickle_dump obj).

Definition _save_numpy (name : string) (obj : pyval) (folder : string)
  : M zipfile unit :=
  let path := _append_folder folder name in
  zip_write path (np_save obj).

Definition _save_torch (name : string) (obj : pyval) (folder : string)
  : M zipfile unit :=
  let path := _append_folder folder name in
  zip_write path (torch_save obj).

Definition _save_json (name : string) (obj : pyval) (folder : string)
  : M zipfile unit :=
  let path := _append_folder folder name in
  zip_write path (json_dumps obj).

Definition _load_pickle (zip_file : zipfile) (name : string) : result pyval :=
  try f <- zip_open zip_file name; pickle_load f.

Definition _load_numpy (zip_file : zipfile) (name : string) : result pyval :=
  try f <- zip_open zip_file name; np_load f.

Definition _load_torch (zip_file : zipfile) (name : string) : result pyval :=
  try f <- zip_open zip_file name; torch_load f.

Definition _load_json (zip_file : zipfile) (name : string) : result pyval :=
  try f <- zip_open zip_file name; json_load f.

(** The methods [_save_<name>] and [_load_<name>] that the class defines. *)
Definition class_codecs : list string :=
  ["pickle"; "numpy"; "torch"; "json"; "mushroom"].

Definition is_class_codec (method : string) : bool :=
  existsb (String.eqb method) class_codecs.

(** [hasattr(self, '_save_{}'.format(method))] *)
Definition has_save_method (method : string) (self : pyval) : bool :=
  is_class_codec method || hasattr ("_save_" ++ method) self.

Section SaveZip.
(** [obj.save_zip] of the nested call, one frame deeper *)
Variable save_zip_rec : bool -> string -> M world unit.

Definition _save_mushroom (att name : string) (obj : pyval)
    (folder : string) (full_save : bool) : M world unit :=
  let new_folder := _append_folder folder name in
  on_attribute att obj (save_zip_rec full_save new_folder).

(** [save_method(zip_file, file_name, attribute, full_save=full_save,
    folder=folder)] with [save_method = getattr(self, '_save_' + method)].
    An instance attribute of that name hides the method of the class and
    is not callable. *)
Definition call_save_method (att method file_name : string)
    (attribute : pyval) (full_save : bool) (folder : string)
  : M world unit :=
  shadowed <- read_self (fun self => OK (hasattr ("_save_" ++ method) self)) ;;
  if (shadowed : bool) then raise TypeError
  else if String.eqb method "pickle" then
    on_zip (_save_pickle file_name attribute folder)
  else if String.eqb method "numpy" then
    on_zip (_save_numpy file_name attribute folder)
  else if String.eqb method "torch" then
    on_zip (_save_torch file_name attribute folder)
  else if String.eqb method "json" then
    on_zip (_save_json file_name attribute folder)
  else if String.eqb method "mushroom" then
    _save_mushroom att file_name attribute folder full_save
  else raise AttributeError.

(** The body of the loop of [save_zip], lines 50-63 *)
Definition save_attribute (full_save : bool) (folder : string)
    (item : string * pyval) : M world unit :=
  let '(att, spec) := item in
  method <- lift (as_str spec) ;;
  last <- lift (last_of method) ;;
  if negb (Ascii.eqb last bang) || full_save then
    let method := strip_bang method last in
    has <- read_self (fun self => OK (hasattr att self)) ;;
    attribute <- (if (has : bool) then read_self (getattr att)
                  else ret PNone) ;;
    if is_None attribute then ret tt
    else
      has_m <- read_self (fun self => OK (has_save_method method self)) ;;
      if (has_m : bool) then
        let file_name := att ++ "." ++ method in
        call_save_method att method file_name attribute full_save folder
      else raise NotImplementedError
  else ret tt.

Definition save_zip_body (full_save : bool) (folder : string)
  : M world unit :=
  ty <- read_self type_of ;;
  save_attributes <- read_self (getattr "_save_attributes") ;;
  let config_data :=
    PDict [("type", ty); ("save_attributes", save_attributes)] in
  on_zip (_save_pickle "config" config_data folder) ;;
  items <- lift (dict_items save_attributes) ;;
  for_each items (save_attribute full_save folder).
End SaveZip.

(** [save_zip]; [fuel] is the number of calls of [save_zip] that may still
    nest, this one included.  Each level costs the interpreter the frames
    of [save_zip] and of [_save_mushroom]; [fuel] counts levels. *)
Fixpoint save_zip (fuel : nat) (full_save : bool) (folder : string)
  : M world unit :=
  match fuel with
  | 0 => raise RecursionError
  | S fuel' => save_zip_body (save_zip fuel') full_save folder
  end.

(** [save(self, path, full_save)]: the archive written at [path] is the
    second component of the final state. *)
Definition save (fuel : nat) (self : pyval) (full_save : bool)
  : world * result unit :=
  save_zip fuel full_save EmptyString (self, ([] : zipfile)).

Definition saved_archive (fuel : nat) (self : pyval) (full_save : bool)
  : zipfile := snd (fst (save fuel self full_save)).

Section LoadZip.
(** [Serializable.load_zip] of the nested call *)
Variable load_zip_rec : zipfile -> string -> result pyval.

Definition _load_mushroom (zip_file : zipfile) (name : string)
  : result pyval :=
  load_zip_rec zip_file name.

(** [getattr(cls, '_load_{}'.format(method))] *)
Definition class_load_method (method : string)
  : result (zipfile -> string -> result pyval) :=
  if String.eqb method "pickle" then OK _load_pickle
  else if String.eqb method "numpy" then OK _load_numpy
  else if String.eqb method "torch" then OK _load_torch
  else if String.eqb method "json" then OK _load_json
  else if String.eqb method "mushroom" then OK _load_mushroom
  else Raise AttributeError.

(** The body of the loop of [load_zip], lines 95-106 *)
Definition load_attribute (zip_file : zipfile) (folder : string)
    (loaded_object : pyval) (item : string * pyval) : result pyval :=
  let '(att, spec) := item in
  try method <- as_str spec;
  try last <- last_of method;
  let method := strip_bang method last in
  let file_name := _append_folder folder (att ++ "." ++ method) in
  if in_namelist file_name zip_file || String.eqb method "mushroom" then
    try load_method <- class_load_method method;
    try att_val <- load_method zip_file file_name;
    OK (setattr att att_val loaded_object)
  else OK (setattr att PNone loaded_object).

Fixpoint load_attributes (zip_file : zipfile) (folder : string)
    (items : list (string * pyval)) (loaded_object : pyval)
  : result pyval :=
  match items with
  | [] => OK loaded_object
  | item :: items' =>
      try loaded_object <- load_attribute zip_file folder loaded_object item;
      load_attributes zip_file folder items' loaded_object
  end.

(** [_post_load] of the base class does nothing. *)
Definition _post_load (self : pyval) : pyval := self.

Definition load_zip_body (zip_file : zipfile) (folder : string)
  : result pyval :=
  let config_path := _append_folder folder "config" in
  try config <- _load_pickle zip_file config_path;
  try vals <- dict_values config;
  match vals with
  | [object_type; save_attributes] =>
      try loaded_object <- object_new object_type;
      try items <- dict_items save_attributes;
      try loaded_object <-
        load_attributes zip_file folder items loaded_object;
      OK (_post_load loaded_object)
  | _ => Raise ValueError
  end.
End LoadZip.

(** [load_zip]; [fuel] is the number of calls of [load_zip] that may still
    nest, this one included.  Each level costs the interpreter the frames
    of [load_zip] and of [_load_mushroom]; [fuel] counts levels. *)
Fixpoint load_zip (fuel : nat) (zip_file : zipfile) (folder : string)
  : result pyval :=
  match fuel with
  | 0 => Raise RecursionError
  | S fuel' => load_zip_body (load_zip fuel') zip_file folder
  end.

(** [load(cls, path)]: [None] stands for a path that does not exist. *)
Definition load (fuel : nat) (path : option zipfile) : result pyval :=
  match path with
  | None => Raise ValueError
  | Some zip_file => load_zip fuel zip_file EmptyString
  end.

(** [_add_save_attr(self, **attr_dict)], on the state [self] *)
Definition _add_save_attr (attr_dict : list (string * pyval)) : M pyval unit :=
  fun self =>
    let self :=
      if negb (hasattr "_save_attributes" self)
      then setattr "_save_attributes"
             (PDict [("_save_attributes", PStr "json")]) self
      else self in
    match getattr "_save_attributes" self with
    | OK (PDict d) =>
        (setattr "_save_attributes" (PDict (assoc_update d attr_dict)) self,
         OK tt)
    | OK _ => (self, Raise AttributeError)
    | Raise e => (self, Raise e)
    end.

(* ------------------------------------------------------------------ *)
(** ** Vocabulary of the properties *)

Fixpoint has_dot (s : string) : bool :=
  match s with
  | EmptyString => false
  | String c s' => Ascii.eqb c dot || has_dot s'
  end.

Definition starts_with (p s : string) : Prop := exists r, s = p ++ r.

(** What [_append_folder folder] puts in front of a name. *)
Definition pfx (folder : string) : string :=
  match folder with
  | EmptyString => EmptyString
  | _ => folder ++ "/"
  end.

(** No entry of [z] lies under the prefix [p]. *)
Definition nothing_under (p : string) (z : zipfile) : Prop :=
  forall n, In n (namelist z) -> ~ starts_with p n.

(** The codec name and the full-save-only flag of a codec spec, as both
    [save_zip] (lines 50-51) and [load_zip] (line 95) read them. *)
Definition codec_of (spec : pyval) : option (string * bool) :=
  match spec with
  | PStr method =>
      match last_char method with
      | Some last => Some (strip_bang method last, Ascii.eqb last bang)
      | None => None
      end
  | _ => None
  end.

(** [getattr(self, att) if hasattr(self, att) else None] *)
Definition declared_value (att : string) (self : pyval) : pyval :=
  match getattr att self with
  | OK v => v
  | Raise _ => PNone
  end.

Definition is_array (v : pyval) : bool :=
  match v with PArray _ _ => true | _ => false end.

(** The value is of the kind the codec encodes. *)
Definition codec_accepts (m : string) (v : pyval) : bool :=
  if String.eqb m "pickle" then true
  else if String.eqb m "torch" then true
  else if String.eqb m "numpy" then is_array v
  else if String.eqb m "json" then json_serializable v
  else false.

Fixpoint nodup_keys (ks : list string) : bool :=
  match ks with
  | [] => true
  | k :: ks' => negb (existsb (String.eqb k) ks') && nodup_keys ks'
  end.

(** An attribute that a save under [full_save] leaves out of the archive:
    kept for full saves only, or holding [None]. *)
Definition left_out (full_save full_only : bool) (v : pyval) : bool :=
  (full_only && negb full_save) || is_None v.

Section WellFormed.
Variable full_save : bool.
Variable nested_ok : pyval -> bool.

Definition attribute_ok (self : pyval) (item : string * pyval) : bool :=
  let '(att, spec) := item in
  negb (has_dot att) &&
  match codec_of spec with
  | None => false
  | Some (m, full_only) =>
      let v := declared_value att self in
      if left_out full_save full_only v then negb (String.eqb m "mushroom")
      else
        negb (hasattr ("_save_" ++ m) self) &&
        (if String.eqb m "mushroom" then nested_ok v else codec_accepts m v)
  end.

Definition object_ok (self : pyval) : bool :=
  match getattr "_save_attributes" self with
  | OK (PDict sa) => nodup_keys (keys sa) && forallb (attribute_ok self) sa
  | _ => false
  end.
End WellFormed.

(** A serializable object that a save under [full_save] can write and a
    load can read back: the declared names are distinct identifiers, every
    attribute that is written holds a value of the kind of its codec, an
    attribute that is left out is not a nested object, and objects nest at
    most [fuel] deep. *)
Fixpoint well_formed (fuel : nat) (full_save : bool) (self : pyval) : bool :=
  match fuel with
  | 0 => false
  | S fuel' => object_ok full_save (well_formed fuel' full_save) self
  end.

Section Reloaded.
Variable full_save : bool.
Variable nested : pyval -> pyval.

Definition reloaded_value (self : pyval) (item : string * pyval) : pyval :=
  let '(att, spec) := item in
  match codec_of spec with
  | None => PNone
  | Some (m, full_only) =>
      let v := declared_value att self in
      if left_out full_save full_only v then PNone
      else if String.eqb m "mushroom" then nested v
      else v
  end.

Definition reloaded_object (self : pyval) : pyval :=
  match self, getattr "_save_attributes" self with
  | PObject cls _, OK (PDict sa) =>
      PObject cls (map (fun item => (fst item, reloaded_value self item)) sa)
  | _, _ => PNone
  end.
End Reloaded.

(** The object a load is expected to build from the archive of [self]. *)
Fixpoint reloaded (fuel : nat) (full_save : bool) (self : pyval) : pyval :=
  match fuel with
  | 0 => PNone
  | S fuel' => reloaded_object full_save (reloaded fuel' full_save) self
  end.

(** [same_state x y]: [y] has the class of [x] and, for every attribute
    that [x] declares, the value [x] holds; under the nested-object codec
    the two values are compared in the same way. *)
Inductive same_state : pyval -> pyval -> Prop :=
| same_object cls fields fields' sa :
    assoc_get "_save_attributes" fields = Some (PDict sa) ->
    (forall att spec m full_only,
        In (att, spec) sa ->
        codec_of spec = Some (m, full_only) ->
        m <> "mushroom" ->
        getattr att (PObject cls fields')
        = OK (declared_value att (PObject cls fields))) ->
    (forall att spec full_only,
        In (att, spec) sa ->
        codec_of spec = Some ("mushroom", full_only) ->
        exists v',
          getattr att (PObject cls fields') = OK v' /\
          same_state (declared_value att (PObject cls fields)) v') ->
    same_state (PObject cls fields) (PObject cls fields').

(** [runs_to m self e r]: run on [self] and any archive, [m] leaves [self]
    as it is, appends the entries [e] to the archive and ends in [r].
    [writes Q m self]: it does so with entries whose names all satisfy [Q]. *)
Definition runs_to {A} (m : M world A) (self : pyval) (e : zipfile)
    (r : result A) : Prop :=
  forall z, m (self, z) = ((self, (z ++ e)%list), r).

Definition writes {A} (Q : string -> Prop) (m : M world A) (self : pyval)
  : Prop :=
  exists e r, runs_to m self e r /\ Forall Q (namelist e).

(** Entries are named after the folder and the attribute they belong to. *)
Definition under_folder (folder n : string) : Prop :=
  starts_with (pfx folder) n.

Definition under_attribute (folder att n : string) : Prop :=
  starts_with (pfx folder ++ att ++ ".") n.

(** The bytes a codec other than the nested-object one produces. *)
Definition encoded (m : string) (v : pyval) : blob :=
  if String.eqb m "pickle" then BPickle v
  else if String.eqb m "torch" then BTorch v
  else if String.eqb m "numpy" then BNpy v
  else BJson v.

(** [archived save load self expected folder]: [save] writes [self] under
    [folder] without raising, every entry it writes lies under [folder],
    and [load] builds [expected] from any archive that holds these entries
    and nothing else under [folder]. *)
Definition archived (save : string -> M world unit)
    (load : zipfile -> string -> result pyval)
    (self expected : pyval) (folder : string) : Prop :=
  exists E,
    runs_to (save folder) self E (OK tt) /\
    (forall n, In n (namelist E) -> starts_with (pfx folder) n) /\
    (forall pre post,
        nothing_under (pfx folder) pre -> nothing_under (pfx folder) post ->
        load (pre ++ E ++ post)%list folder = OK expected).

(** The names of the entries of an object saved under [folder]: its config,
    one entry per attribute under a codec that writes one, and the names of
    the nested objects, each in the folder of its attribute.  The codec part
    of a name is a method name of the class, without the full-save-only
    marker. *)
Inductive entry_name : string -> string -> Prop :=
| entry_config folder :
    entry_name folder (_append_folder folder "config")
| entry_plain folder att m :
    In m ["pickle"; "numpy"; "torch"; "json"] ->
    entry_name folder (_append_folder folder (att ++ "." ++ m))
| entry_nested folder att n :
    entry_name (_append_folder folder (att ++ ".mushroom")) n ->
    entry_name folder n.

(** The declared names are distinct, as the keys of a dict are, and free of
    dots, as identifiers are. *)
Definition valid_names (sa : list (string * pyval)) : bool :=
  nodup_keys (keys sa) && forallb (fun k => negb (has_dot k)) (keys sa).
(** Objects whose mapping, when they have one, holds the reserved key. *)
Definition reserved_key_kept (self : pyval) : Prop :=
  exists cls fields d,
    self = PObject cls fields /\
    assoc_get "_save_attributes" fields = Some (PDict d) /\
    In "_save_attributes" (keys d).

(* ------------------------------------------------------------------ *)
(** ** Objects used as examples *)

Definition example_regressor : pyval :=
  PObject "Regressor"
    [("_save_attributes",
      PDict [("_save_attributes", PStr "json"); ("_weights", PStr "numpy")]);
     ("_weights", PArray [3] [1; 2; 3]%Z)].

(** An agent with an attribute of every codec, all present; [_buffer] is
    kept for full saves only. *)
Definition example_agent : pyval :=
  PObject "FQI"
    [("_save_attributes",
      PDict [("_save_attributes", PStr "json");
             ("_network", PStr "torch");
             ("_config", PStr "json");
             ("_buffer", PStr "numpy!");
             ("approximator", PStr "mushroom");
             ("_policy", PStr "pickle")]);
     ("_network", PTensor [2] [5; 6]%Z true);
     ("_config", PDict [("lr", PInt 1)]);
     ("_buffer", PArray [3] [1; 2; 3]%Z);
     ("approximator", example_regressor);
     ("_policy", PList [PInt 0; PStr "greedy"])].

(** [_target] is declared and holds [None]; [_idx] is declared and was
    never assigned; the codec of [_next_q] is not one of the class. *)
Definition example_fresh : pyval :=
  PObject "FQI"
    [("_save_attributes",
      PDict [("_save_attributes", PStr "json");
             ("_target", PStr "numpy");
             ("_idx", PStr "json");
             ("_next_q", PStr "hdf5")]);
     ("_target", PNone);
     ("_next_q", PNone)].

(** The nested object is kept for full saves only. *)
Definition example_replay : pyval :=
  PObject "DQN"
    [("_save_attributes",
      PDict [("_save_attributes", PStr "json");
             ("_replay_memory", PStr "mushroom!")]);
     ("_replay_memory", example_regressor)].

(** The nested object is declared and holds [None]. *)
Definition example_orphan : pyval :=
  PObject "BatchTD"
    [("_save_attributes",
      PDict [("_save_attributes", PStr "json");
             ("approximator", PStr "mushroom")]);
     ("approximator", PNone)].

(** The nested object is declared and was never assigned. *)
Definition example_missing : pyval :=
  PObject "BatchTD"
    [("_save_attributes",
      PDict [("_save_attributes", PStr "json");
             ("approximator", PStr "mushroom")])].

(** The codec of [_q] is not one of the class, and [_q] holds a value. *)
Definition example_unknown : pyval :=
  PObject "FQI"
    [("_save_attributes",
      PDict [("_save_attributes", PStr "json"); ("_q", PStr "hdf5")]);
     ("_q", PInt 7)].

(** What a codec of the class that writes one entry makes of [v]. *)
Definition encoder (m : string) (v : pyval) : result blob :=
  if String.eqb m "pickle" then pickle_dump v
  else if String.eqb m "numpy" then np_save v
  else if String.eqb m "torch" then torch_save v
  else json_dumps v.

Definition is_plain_codec (m : string) : bool :=
  existsb (String.eqb m) ["pickle"; "numpy"; "torch"; "json"].

(** The error of a codec spec that cannot be read. *)
Definition spec_error (spec : pyval) : pyerr :=
  match spec with
  | PStr _ => IndexError
  | _ => Unmodelled
  end.

(** How deep serializable objects nest through their fields. *)
Fixpoint height (v : pyval) : nat :=
  match v with
  | PObject _ fields =>
      S (fold_right (fun kv h => Nat.max (height (snd kv)) h) 0 fields)
  | _ => 0
  end.

(** The number of entries whose name is longer than [folder]. *)
Definition deeper (folder : string) (z : zipfile) : nat :=
  List.length
    (filter (fun n => Nat.ltb (String.length folder) (String.length n))
       (namelist z)).

(** The outcomes of the step of an attribute: every way the loop body of
    [save_zip] can go, with what it writes. *)
Inductive step_run (rec : bool -> string -> M world unit) (full_save : bool)
    (folder : string) (self : pyval) (att : string) (spec : pyval)
  : zipfile -> result unit -> Prop :=
| step_unreadable :
    codec_of spec = None ->
    step_run rec full_save folder self att spec [] (Raise (spec_error spec))
| step_left_out m full_only :
    codec_of spec = Some (m, full_only) ->
    left_out full_save full_only (declared_value att self) = true ->
    step_run rec full_save folder self att spec [] (OK tt)
| step_not_implemented m full_only :
    codec_of spec = Some (m, full_only) ->
    left_out full_save full_only (declared_value att self) = false ->
    has_save_method m self = false ->
    step_run rec full_save folder self att spec []
      (Raise NotImplementedError)
| step_shadowed m full_only :
    codec_of spec = Some (m, full_only) ->
    left_out full_save full_only (declared_value att self) = false ->
    hasattr ("_save_" ++ m) self = true ->
    step_run rec full_save folder self att spec [] (Raise TypeError)
| step_written m full_only b :
    codec_of spec = Some (m, full_only) ->
    left_out full_save full_only (declared_value att self) = false ->
    hasattr ("_save_" ++ m) self = false ->
    is_plain_codec m = true ->
    encoder m (declared_value att self) = OK b ->
    step_run rec full_save folder self att spec
      [(_append_folder folder (att ++ "." ++ m), b)] (OK tt)
| step_truncated m full_only err :
    codec_of spec = Some (m, full_only) ->
    left_out full_save full_only (declared_value att self) = false ->
    hasattr ("_save_" ++ m) self = false ->
    is_plain_codec m = true ->
    encoder m (declared_value att self) = Raise err ->
    step_run rec full_save folder self att spec
      [(_append_folder folder (att ++ "." ++ m), BTruncated)] (Raise err)
| step_nested full_only e r :
    codec_of spec = Some ("mushroom", full_only) ->
    left_out full_save full_only (declared_value att self) = false ->
    hasattr ("_save_" ++ "mushroom") self = false ->
    runs_to (rec full_save (_append_folder folder (att ++ ".mushroom")))
      (declared_value att self) e r ->
    step_run rec full_save folder self att spec e r.



Section Resavable.
Variable full_save : bool.
Variable nested_ok : pyval -> bool.


End Resavable.


(** [_weights] is declared under a codec of the class and holds a value,
    an array, that the codec does not encode. *)
Definition example_mistyped : pyval :=
  PObject "Regressor"
    [("_save_attributes",
      PDict [("_save_attributes", PStr "json"); ("_weights", PStr "json")]);
     ("_weights", PArray [3] [1; 2; 3]%Z)].

(* ------------------------------------------------------------------ *)
(** ** Strings *)

Lemma append_assoc (a b c : string) : (a ++ b) ++ c = a ++ b ++ c.
Proof. induction a as [|x a IH]; simpl; [reflexivity | now rewrite IH]. Qed.

Lemma append_nil_r (a : string) : a ++ EmptyString = a.
Proof. induction a as [|x a IH]; simpl; [reflexivity | now rewrite IH]. Qed.

Lemma append_inv_head (a b c : string) : a ++ b = a ++ c -> b = c.
Proof.
  induction a as [|x a IH]; simpl; intros H; [exact H|].
  injection H as H. auto.
Qed.

Lemma has_dot_append (a b : string) :
  has_dot (a ++ b) = has_dot a || has_dot b.
Proof.
  induction a as [|x a IH]; simpl; [reflexivity|].
  now rewrite IH, orb_assoc.
Qed.

(** Two names that are free of dots and followed by a dot are equal as soon
    as one of the two strings starts the other. *)
Lemma dot_split (a b r r' : string) :
  has_dot a = false -> has_dot b = false ->
  a ++ "." ++ r = b ++ "." ++ r' -> a = b /\ r = r'.
Proof.
  revert b. induction a as [|x a IH]; intros [|y b] Ha Hb H; simpl in *.
  - injection H as H. auto.
  - injection H as Hy _. subst y. discriminate Hb.
  - injection H as Hx _. subst x. discriminate Ha.
  - injection H as Hx H. subst y.
    apply orb_false_iff in Ha as [_ Ha]. apply orb_false_iff in Hb as [_ Hb].
    destruct (IH b Ha Hb H) as [-> ->]. auto.
Qed.

Lemma append_folder_pfx (folder name : string) :
  _append_folder folder name = pfx folder ++ name.
Proof.
  destruct folder as [|c f]; [reflexivity|].
  unfold _append_folder, pfx. now rewrite append_assoc.
Qed.

Lemma pfx_append_folder (folder name : string) :
  name <> EmptyString ->
  pfx (_append_folder folder name) = pfx folder ++ name ++ "/".
Proof.
  intros Hn. rewrite append_folder_pfx.
  destruct (pfx folder ++ name) as [|c s] eqn:E.
  - destruct (pfx folder); simpl in E; [contradiction | discriminate].
  - unfold pfx at 1. rewrite <- E. now rewrite append_assoc.
Qed.

Lemma starts_with_append (p r : string) : starts_with p (p ++ r).
Proof. now exists r. Qed.

Lemma starts_with_trans (p q s : string) :
  starts_with p q -> starts_with q s -> starts_with p s.
Proof.
  intros [r ->] [r' ->]. exists (r ++ r'). apply append_assoc.
Qed.

(** Entries of two distinct attributes of one folder never clash. *)
Lemma attribute_prefixes_disjoint (p a b n : string) :
  has_dot a = false -> has_dot b = false -> a <> b ->
  starts_with (p ++ a ++ ".") n -> ~ starts_with (p ++ b ++ ".") n.
Proof.
  intros Ha Hb Hab [r ->] [r' H].
  rewrite !append_assoc in H. apply append_inv_head in H.
  destruct (dot_split a b r r' Ha Hb H). contradiction.
Qed.

Lemma config_not_attribute (p a n : string) :
  starts_with (p ++ a ++ ".") n -> n <> p ++ "config".
Proof.
  intros [r ->] H. rewrite !append_assoc in H. apply append_inv_head in H.
  apply (f_equal has_dot) in H. rewrite !has_dot_append in H.
  simpl in H. rewrite orb_true_r in H. discriminate.
Qed.

Lemma last_char_append (s : string) (c : ascii) :
  last_char (s ++ String c EmptyString) = Some c.
Proof.
  induction s as [|x s IH]; [reflexivity|].
  simpl. rewrite IH. destruct (s ++ String c EmptyString); [discriminate IH | reflexivity].
Qed.

Lemma drop_last_append (s : string) (c : ascii) :
  drop_last (s ++ String c EmptyString) = s.
Proof.
  induction s as [|x s IH]; [reflexivity|].
  simpl. rewrite IH.
  destruct (s ++ String c EmptyString) eqn:E; [|reflexivity].
  destruct s; discriminate E.
Qed.

(* ------------------------------------------------------------------ *)
(** ** Dictionaries *)

Lemma assoc_get_app {A} (k : string) (d e : list (string * A)) :
  assoc_get k (d ++ e)%list =
  match assoc_get k d with Some v => Some v | None => assoc_get k e end.
Proof.
  induction d as [|[k' v] d IH]; simpl; [reflexivity|].
  destruct (String.eqb k k'); [reflexivity | exact IH].
Qed.

Lemma assoc_get_none {A} (k : string) (d : list (string * A)) :
  assoc_get k d = None <-> ~ In k (keys d).
Proof.
  induction d as [|[k' v] d IH]; simpl; [tauto|].
  destruct (String.eqb_spec k k') as [->|Hne].
  - split; [discriminate | intros H; exfalso; apply H; now left].
  - rewrite IH. split; intros H; [intros [H'|H']; [congruence | tauto] | tauto].
Qed.

Lemma assoc_get_in {A} (k : string) (v : A) (d : list (string * A)) :
  assoc_get k d = Some v -> In (k, v) d.
Proof.
  induction d as [|[k' v'] d IH]; simpl; [discriminate|].
  destruct (String.eqb_spec k k') as [->|Hne]; intros H.
  - injection H as ->. now left.
  - right. auto.
Qed.

Lemma assoc_set_same {A} (k : string) (v : A) (d : list (string * A)) :
  assoc_get k d = Some v -> assoc_set k v d = d.
Proof.
  induction d as [|[k' v'] d IH]; simpl; [discriminate|].
  destruct (String.eqb_spec k k') as [->|Hne]; intros H.
  - now injection H as ->.
  - now rewrite IH.
Qed.

Lemma assoc_get_set_eq {A} (k : string) (v : A) (d : list (string * A)) :
  assoc_get k (assoc_set k v d) = Some v.
Proof.
  induction d as [|[k' v'] d IH]; simpl.
  - now rewrite String.eqb_refl.
  - destruct (String.eqb k k') eqn:E; simpl.
    + now rewrite String.eqb_refl.
    + now rewrite E.
Qed.

Lemma assoc_get_set_neq {A} (k k' : string) (v : A) (d : list (string * A)) :
  k <> k' -> assoc_get k (assoc_set k' v d) = assoc_get k d.
Proof.
  intros Hne. induction d as [|[k'' v''] d IH]; simpl.
  - destruct (String.eqb_spec k k'); [contradiction | reflexivity].
  - destruct (String.eqb_spec k' k'') as [->|Hne']; simpl.
    + destruct (String.eqb_spec k k''); [contradiction | reflexivity].
    + destruct (String.eqb k k''); [reflexivity | exact IH].
Qed.

Lemma keys_assoc_set {A} (k k' : string) (v : A) (d : list (string * A)) :
  In k (keys (assoc_set k' v d)) <-> k = k' \/ In k (keys d).
Proof.
  induction d as [|[k'' v''] d IH]; simpl.
  - intuition congruence.
  - destruct (String.eqb_spec k' k'') as [->|Hne]; simpl.
    + intuition congruence.
    + rewrite IH. intuition congruence.
Qed.

Lemma assoc_set_snoc {A} (k : string) (v : A) (d : list (string * A)) :
  ~ In k (keys d) -> assoc_set k v d = (d ++ [(k, v)])%list.
Proof.
  induction d as [|[k' v'] d IH]; simpl; intros H; [reflexivity|].
  destruct (String.eqb_spec k k') as [->|Hne]; [tauto|].
  rewrite IH; tauto.
Qed.

Lemma nodup_keys_spec (ks : list string) :
  nodup_keys ks = true <-> NoDup ks.
Proof.
  induction ks as [|k ks IH]; simpl.
  - split; [constructor | reflexivity].
  - rewrite andb_true_iff, negb_true_iff, IH. split.
    + intros [Hk Hks]. constructor; [|exact Hks].
      intros Hin. assert (existsb (String.eqb k) ks = true) as E.
      { apply existsb_exists. exists k. split; [exact Hin | apply String.eqb_refl]. }
      congruence.
    + intros H. inversion H as [|? ? Hk Hks]; subst. split; [|exact Hks].
      destruct (existsb (String.eqb k) ks) eqn:E; [|reflexivity].
      apply existsb_exists in E as [k' [Hin Hk']].
      apply String.eqb_eq in Hk'. subst k'. contradiction.
Qed.

(* ------------------------------------------------------------------ *)
(** ** The archive *)

Lemma namelist_app (z z' : zipfile) :
  namelist (z ++ z')%list = (namelist z ++ namelist z')%list.
Proof. apply map_app. Qed.

Lemma in_namelist_spec (n : string) (z : zipfile) :
  in_namelist n z = true <-> In n (namelist z).
Proof.
  unfold in_namelist. rewrite existsb_exists. split.
  - intros [n' [Hin Hn]]. apply String.eqb_eq in Hn. now subst.
  - intros Hin. exists n. split; [exact Hin | apply String.eqb_refl].
Qed.

Lemma in_namelist_false (n : string) (z : zipfile) :
  ~ In n (namelist z) -> in_namelist n z = false.
Proof.
  intros H. destruct (in_namelist n z) eqn:E; [|reflexivity].
  apply in_namelist_spec in E. contradiction.
Qed.

Lemma zip_open_missing (z : zipfile) (n : string) :
  ~ In n (namelist z) -> zip_open z n = Raise KeyError.
Proof.
  intros H. unfold zip_open.
  replace (assoc_get n (rev z)) with (@None blob); [reflexivity|].
  symmetry. apply assoc_get_none. unfold keys. rewrite map_rev.
  intros Hin. apply in_rev in Hin. contradiction.
Qed.

Lemma zip_open_app_r (z post : zipfile) (n : string) :
  ~ In n (namelist post) -> zip_open (z ++ post)%list n = zip_open z n.
Proof.
  intros H. unfold zip_open. rewrite rev_app_distr, assoc_get_app.
  replace (assoc_get n (rev post)) with (@None blob); [reflexivity|].
  symmetry. apply assoc_get_none. unfold keys. rewrite map_rev.
  intros Hin. apply in_rev in Hin. contradiction.
Qed.

Lemma zip_open_last (z : zipfile) (n : string) (b : blob) :
  zip_open (z ++ [(n, b)])%list n = OK b.
Proof.
  unfold zip_open. rewrite rev_app_distr. simpl. now rewrite String.eqb_refl.
Qed.

Lemma zip_open_found (z : zipfile) (n : string) (b : blob) :
  zip_open z n = OK b -> In (n, b) z.
Proof.
  unfold zip_open. destruct (assoc_get n (rev z)) eqn:E; [|discriminate].
  intros H. injection H as ->. apply assoc_get_in in E. now apply in_rev.
Qed.

Lemma nothing_under_nil (p : string) : nothing_under p [].
Proof. intros n []. Qed.

Lemma nothing_under_app (p : string) (z z' : zipfile) :
  nothing_under p (z ++ z')%list <-> nothing_under p z /\ nothing_under p z'.
Proof.
  unfold nothing_under. rewrite namelist_app. split.
  - intros H. split; intros n Hn; apply H, in_or_app; auto.
  - intros [H H'] n Hn. apply in_app_or in Hn as [Hn|Hn]; auto.
Qed.

Lemma nothing_under_longer (p q : string) (z : zipfile) :
  starts_with p q -> nothing_under p z -> nothing_under q z.
Proof.
  intros Hpq H n Hn Hq. apply (H n Hn). eapply starts_with_trans; eauto.
Qed.

(* ------------------------------------------------------------------ *)
(** ** What a save does to its state *)

Section RunsTo.
Context {A B : Type}.
Variable self : pyval.

Lemma runs_to_fun (m : M world A) e e' r r' :
  runs_to m self e r -> runs_to m self e' r' -> e = e' /\ r = r'.
Proof.
  intros H H'. specialize (H []). rewrite (H' []) in H. simpl in H.
  now injection H as -> ->.
Qed.

Lemma runs_ret (a : A) : runs_to (ret a) self [] (OK a).
Proof. intros z. unfold ret. now rewrite app_nil_r. Qed.

Lemma runs_raise (err : pyerr) :
  runs_to (@raise world A err) self [] (Raise err).
Proof. intros z. unfold raise. now rewrite app_nil_r. Qed.

Lemma runs_lift (r : result A) : runs_to (lift r) self [] r.
Proof. intros z. unfold lift. now rewrite app_nil_r. Qed.

Lemma runs_read_self (f : pyval -> result A) :
  runs_to (read_self f) self [] (f self).
Proof. intros z. unfold read_self. simpl. now rewrite app_nil_r. Qed.

Lemma runs_bind (c : M world A) (k : A -> M world B) a e e' r :
  runs_to c self e (OK a) -> runs_to (k a) self e' r ->
  runs_to (bind c k) self (e ++ e')%list r.
Proof.
  intros Hc Hk z. unfold bind. rewrite Hc, Hk. now rewrite app_assoc.
Qed.

Lemma runs_bind_raise (c : M world A) (k : A -> M world B) e err :
  runs_to c self e (Raise err) -> runs_to (bind c k) self e (Raise err).
Proof. intros Hc z. unfold bind. now rewrite Hc. Qed.

Variable Q : string -> Prop.

Lemma writes_nothing (m : M world A) r : runs_to m self [] r -> writes Q m self.
Proof. intros H. exists [], r. split; [exact H | constructor]. Qed.

Lemma writes_bind (c : M world A) (k : A -> M world B) :
  writes Q c self ->
  (forall a e, runs_to c self e (OK a) -> writes Q (k a) self) ->
  writes Q (bind c k) self.
Proof.
  intros (e & [a|err] & Hc & Hq) Hk.
  - destruct (Hk a e Hc) as (e' & r & Hka & Hq').
    exists (e ++ e')%list, r. split; [now apply runs_bind with a|].
    rewrite namelist_app. now apply Forall_app.
  - exists e, (Raise err). split; [now apply runs_bind_raise | exact Hq].
Qed.
End RunsTo.

Lemma writes_weaken {A} (Q Q' : string -> Prop) (m : M world A) self :
  (forall n, Q n -> Q' n) -> writes Q m self -> writes Q' m self.
Proof.
  intros HQ (e & r & Hm & Hq). exists e, r. split; [exact Hm|].
  eapply Forall_impl; eauto.
Qed.

Lemma runs_zip_write (self : pyval) (path : string) (b : blob) :
  runs_to (on_zip (zip_write path (OK b))) self [(path, b)] (OK tt).
Proof. intros z. reflexivity. Qed.

Lemma runs_zip_write_raise (self : pyval) (path : string) (err : pyerr) :
  runs_to (on_zip (zip_write path (Raise err))) self [(path, BTruncated)]
    (Raise err).
Proof. intros z. reflexivity. Qed.

Lemma writes_zip_write (Q : string -> Prop) (self : pyval) (path : string)
    (enc : result blob) :
  Q path -> writes Q (on_zip (zip_write path enc)) self.
Proof.
  intros Hq. destruct enc as [b|err].
  - exists [(path, b)], (OK tt). split; [apply runs_zip_write | now constructor].
  - exists [(path, BTruncated)], (Raise err).
    split; [apply runs_zip_write_raise | now constructor].
Qed.

Lemma setattr_same (att : string) (v self : pyval) :
  getattr att self = OK v -> setattr att v self = self.
Proof.
  destruct self; simpl; try discriminate.
  destruct (assoc_get att fields) eqn:E; [|discriminate].
  intros H. injection H as ->. now rewrite assoc_set_same.
Qed.

Lemma runs_on_attribute {A} (self : pyval) (att : string) (attribute : pyval)
    (m : M world A) e r :
  getattr att self = OK attribute ->
  runs_to m attribute e r ->
  runs_to (on_attribute att attribute m) self e r.
Proof.
  intros Hget Hm z. unfold on_attribute. simpl. rewrite Hm.
  now rewrite (setattr_same _ _ _ Hget).
Qed.

Lemma writes_on_attribute {A} (Q : string -> Prop) (self : pyval)
    (att : string) (attribute : pyval) (m : M world A) :
  getattr att self = OK attribute ->
  writes Q m attribute ->
  writes Q (on_attribute att attribute m) self.
Proof.
  intros Hget (e & r & Hm & Hq). exists e, r.
  split; [now apply runs_on_attribute | exact Hq].
Qed.

Lemma writes_for_each {S} (Q : string -> Prop) (self : pyval)
    (body : S -> M world unit) (xs : list S) :
  (forall x, In x xs -> writes Q (body x) self) ->
  writes Q (for_each xs body) self.
Proof.
  induction xs as [|x xs IH]; intros H; simpl.
  - apply writes_nothing with (OK tt). apply runs_ret.
  - apply writes_bind; [apply H; now left|].
    intros _ _ _. apply IH. intros y Hy. apply H. now right.
Qed.

(** Every entry a loop writes is written by one of its iterations. *)
Lemma for_each_entries {S} (self : pyval) (body : S -> M world unit)
    (xs : list S) E r :
  runs_to (for_each xs body) self E r ->
  (forall x, writes (fun _ => True) (body x) self) ->
  forall n, In n (namelist E) ->
    exists x e r', In x xs /\ runs_to (body x) self e r' /\ In n (namelist e).
Proof.
  revert E r. induction xs as [|x xs IH]; intros E r Hrun Hw n Hn.
  - destruct (runs_to_fun _ _ _ _ _ _ Hrun (runs_ret self tt)) as [-> _].
    destruct Hn.
  - simpl in Hrun. destruct (Hw x) as (e1 & [[]|err] & H1 & _).
    + destruct (writes_for_each (fun _ => True) self body xs
                  (fun y _ => Hw y)) as (e2 & r2 & H2 & _).
      destruct (runs_to_fun _ _ _ _ _ _ Hrun
                  (runs_bind _ _ _ _ _ _ _ H1 H2)) as [-> ->].
      rewrite namelist_app in Hn. apply in_app_or in Hn as [Hn|Hn].
      * exists x, e1, (OK tt). split; [now left | auto].
      * destruct (IH _ _ H2 Hw n Hn) as (y & e & r' & Hy & Hrun' & Hin).
        exists y, e, r'. split; [now right | auto].
    + destruct (runs_to_fun _ _ _ _ _ _ Hrun
                  (runs_bind_raise _ _ (fun _ => for_each xs body) _ _ H1))
        as [-> _].
      exists x, e1, (Raise err). split; [now left | auto].
Qed.

(** A loop that ends well ran each of its iterations to a good end. *)
Lemma for_each_completed {S} (self : pyval) (body : S -> M world unit)
    (xs : list S) E :
  runs_to (for_each xs body) self E (OK tt) ->
  (forall x, writes (fun _ => True) (body x) self) ->
  forall x, In x xs ->
    exists e, runs_to (body x) self e (OK tt) /\ incl e E.
Proof.
  revert E. induction xs as [|x xs IH]; intros E Hrun Hw y Hy; [destruct Hy|].
  simpl in Hrun. destruct (Hw x) as (e1 & [[]|err] & H1 & _).
  - destruct (writes_for_each (fun _ => True) self body xs
                (fun y _ => Hw y)) as (e2 & r2 & H2 & _).
    destruct (runs_to_fun _ _ _ _ _ _ Hrun
                (runs_bind _ _ _ _ _ _ _ H1 H2)) as [-> <-].
    destruct Hy as [<-|Hy].
    + exists e1. split; [exact H1 | now apply incl_appl].
    + destruct (IH _ H2 Hw y Hy) as (e & Hrun' & Hincl).
      exists e. split; [exact Hrun' | now apply incl_appr].
  - destruct (runs_to_fun _ _ _ _ _ _ Hrun
                (runs_bind_raise _ _ (fun _ => for_each xs body) _ _ H1))
      as [_ E']. discriminate E'.
Qed.

Ltac wo_step :=
  lazymatch goal with
  | |- writes _ (bind _ _) _ => apply writes_bind; [|intros ? ? ?]
  | |- writes _ (ret _) _ => eapply writes_nothing, runs_ret
  | |- writes _ (raise _) _ => eapply writes_nothing, runs_raise
  | |- writes _ (lift _) _ => eapply writes_nothing, runs_lift
  | |- writes _ (read_self _) _ => eapply writes_nothing, runs_read_self
  | |- writes _ (if String.eqb ?m ?lit then _ else _) _ =>
      destruct (String.eqb_spec m lit) as [->|?]
  | |- writes _ (if ?b then _ else _) _ => destruct b eqn:?
  end.

Section SaveNames.
Variable rec : bool -> string -> M world unit.

(** Where the entries of an object, and of one of its attributes, go. *)
Variable in_folder : string -> string -> Prop.
Variable in_attribute : string -> string -> string -> Prop.

Hypothesis rec_writes :
  forall full_save folder self,
    writes (in_folder folder) (rec full_save folder) self.
Hypothesis plain_name :
  forall folder att m,
    In m ["pickle"; "numpy"; "torch"; "json"] ->
    in_attribute folder att (_append_folder folder (att ++ "." ++ m)).
Hypothesis nested_name :
  forall folder att n,
    in_folder (_append_folder folder (att ++ ".mushroom")) n ->
    in_attribute folder att n.
Hypothesis config_name :
  forall folder, in_folder folder (_append_folder folder "config").
Hypothesis attribute_name :
  forall folder att n, in_attribute folder att n -> in_folder folder n.

Lemma call_save_method_writes att method attribute full_save folder self :
  getattr att self = OK attribute ->
  writes (in_attribute folder att)
    (call_save_method rec att method (att ++ "." ++ method) attribute
       full_save folder)
    self.
Proof.
  intros Hget. unfold call_save_method, _save_pickle, _save_numpy,
    _save_torch, _save_json, _save_mushroom.
  repeat wo_step;
    try (apply writes_zip_write, plain_name; simpl; tauto).
  apply writes_on_attribute; [exact Hget|].
  eapply writes_weaken; [apply nested_name | apply rec_writes].
Qed.

Lemma save_attribute_writes full_save folder att spec self :
  writes (in_attribute folder att)
    (save_attribute rec full_save folder (att, spec)) self.
Proof.
  unfold save_attribute.
  wo_step; [wo_step|]. wo_step; [wo_step|]. wo_step; [|wo_step].
  wo_step; [wo_step|]. wo_step; [wo_step; wo_step|].
  wo_step; [wo_step|]. wo_step; [wo_step|]. wo_step; [|wo_step].
  apply call_save_method_writes.
  match goal with
  | H : runs_to (if ?b then _ else _) _ _ (OK ?v) |- _ => destruct b;
      [ pose proof (runs_to_fun _ _ _ _ _ _ H (runs_read_self _ _)) as [_ E]
      | pose proof (runs_to_fun _ _ _ _ _ _ H (runs_ret _ _)) as [_ E] ]
  end.
  - now symmetry.
  - injection E as ->. discriminate.
Qed.

Lemma save_zip_body_writes full_save folder self :
  writes (in_folder folder) (save_zip_body rec full_save folder) self.
Proof.
  unfold save_zip_body, _save_pickle.
  wo_step; [wo_step|]. wo_step; [wo_step|].
  wo_step; [apply writes_zip_write, config_name|].
  wo_step; [wo_step|].
  apply writes_for_each. intros [att spec] _.
  eapply writes_weaken; [apply attribute_name | apply save_attribute_writes].
Qed.
End SaveNames.

Lemma under_plain_name folder att m :
  under_attribute folder att (_append_folder folder (att ++ "." ++ m)).
Proof.
  unfold under_attribute. rewrite append_folder_pfx. exists m.
  now rewrite !append_assoc.
Qed.

Lemma under_nested_name folder att n :
  under_folder (_append_folder folder (att ++ ".mushroom")) n ->
  under_attribute folder att n.
Proof.
  unfold under_folder, under_attribute.
  rewrite pfx_append_folder by (destruct att; discriminate).
  intros H. eapply starts_with_trans; [|exact H].
  exists "mushroom/". now rewrite !append_assoc.
Qed.

Lemma under_attribute_folder folder att n :
  under_attribute folder att n -> under_folder folder n.
Proof.
  intros H. eapply starts_with_trans; [|exact H]. apply starts_with_append.
Qed.

Lemma save_zip_writes_under fuel full_save folder self :
  writes (under_folder folder) (save_zip fuel full_save folder) self.
Proof.
  revert full_save folder self.
  induction fuel as [|fuel IH]; intros full_save folder self; simpl.
  - apply writes_nothing with (Raise RecursionError). apply runs_raise.
  - apply save_zip_body_writes with under_attribute; auto.
    + intros. apply under_plain_name.
    + apply under_nested_name.
    + intros. unfold under_folder. rewrite append_folder_pfx.
      apply starts_with_append.
    + apply under_attribute_folder.
Qed.

Lemma save_attribute_writes_under fuel full_save folder att spec self :
  writes (under_attribute folder att)
    (save_attribute (save_zip fuel) full_save folder (att, spec)) self.
Proof.
  apply save_attribute_writes with under_folder.
  - intros. apply save_zip_writes_under.
  - intros. apply under_plain_name.
  - apply under_nested_name.
Qed.

(* ------------------------------------------------------------------ *)
(** ** One attribute, saved *)

Lemma codec_of_inv spec m full_only :
  codec_of spec = Some (m, full_only) ->
  exists method last,
    spec = PStr method /\ last_char method = Some last /\
    m = strip_bang method last /\ full_only = Ascii.eqb last bang.
Proof.
  destruct spec; try discriminate. simpl.
  destruct (last_char s) as [last|] eqn:E; [|discriminate].
  intros H. injection H as <- <-. now exists s, last.
Qed.

Lemma declared_value_getattr att self :
  is_None (declared_value att self) = false ->
  getattr att self = OK (declared_value att self) /\ hasattr att self = true.
Proof.
  unfold declared_value, getattr, hasattr. destruct self; try discriminate.
  destruct (assoc_get att fields); [auto | discriminate].
Qed.

Lemma declared_value_read {A} att (k : pyval -> M world A) self z :
  bind (read_self (fun self => OK (hasattr att self)))
       (fun has =>
          bind (if (has : bool) then read_self (getattr att) else ret PNone) k)
       (self, z)
  = k (declared_value att self) (self, z).
Proof.
  unfold bind at 1 2, read_self, ret, declared_value, getattr, hasattr.
  destruct self; simpl; try reflexivity.
  destruct (assoc_get att fields) eqn:E; simpl; rewrite ?E; reflexivity.
Qed.

Section SaveAttribute.
Variable rec : bool -> string -> M world unit.
Variables (full_save : bool) (folder : string) (self : pyval).
Variables (att : string) (spec : pyval) (m : string) (full_only : bool).
Hypothesis spec_codec : codec_of spec = Some (m, full_only).

Let v := declared_value att self.

Lemma save_attribute_left_out :
  left_out full_save full_only v = true ->
  runs_to (save_attribute rec full_save folder (att, spec)) self [] (OK tt).
Proof.
  destruct (codec_of_inv _ _ _ spec_codec)
    as (method & last & -> & Hlast & -> & ->).
  unfold left_out. intros Hout z. rewrite app_nil_r.
  unfold save_attribute. unfold bind at 1, lift at 1. simpl.
  unfold bind at 1, lift at 1, last_of. rewrite Hlast.
  destruct (negb (last =? bang)%char || full_save) eqn:Hproc;
    [|reflexivity].
  assert (is_None v = true) as Hnone.
  { destruct (last =? bang)%char, full_save; simpl in *;
      try discriminate; assumption. }
  rewrite declared_value_read. fold v. now rewrite Hnone.
Qed.

Lemma save_attribute_written :
  left_out full_save full_only v = false ->
  has_save_method m self = true ->
  forall z,
    save_attribute rec full_save folder (att, spec) (self, z)
    = call_save_method rec att m (att ++ "." ++ m) v full_save folder
        (self, z).
Proof.
  destruct (codec_of_inv _ _ _ spec_codec)
    as (method & last & -> & Hlast & Hm & ->).
  unfold left_out. intros Hout Hcodec z.
  apply orb_false_iff in Hout as [Hflag Hnone].
  unfold save_attribute. unfold bind at 1, lift at 1. simpl.
  unfold bind at 1, lift at 1, last_of. rewrite Hlast.
  replace (negb (last =? bang)%char || full_save) with true
    by (destruct (last =? bang)%char, full_save; simpl in *; congruence).
  rewrite declared_value_read. fold v. rewrite Hnone.
  rewrite <- Hm. unfold bind at 1, read_self at 1. cbn [fst].
  now rewrite Hcodec.
Qed.

Lemma save_attribute_not_implemented :
  left_out full_save full_only v = false ->
  has_save_method m self = false ->
  runs_to (save_attribute rec full_save folder (att, spec)) self []
    (Raise NotImplementedError).
Proof.
  destruct (codec_of_inv _ _ _ spec_codec)
    as (method & last & -> & Hlast & Hm & ->).
  unfold left_out. intros Hout Hcodec z. rewrite app_nil_r.
  apply orb_false_iff in Hout as [Hflag Hnone].
  unfold save_attribute. unfold bind at 1, lift at 1. simpl.
  unfold bind at 1, lift at 1, last_of. rewrite Hlast.
  replace (negb (last =? bang)%char || full_save) with true
    by (destruct (last =? bang)%char, full_save; simpl in *; congruence).
  rewrite declared_value_read. fold v. rewrite Hnone.
  rewrite <- Hm. unfold bind at 1, read_self at 1. cbn [fst].
  now rewrite Hcodec.
Qed.

Lemma save_attribute_shadowed :
  left_out full_save full_only v = false ->
  hasattr ("_save_" ++ m) self = true ->
  runs_to (save_attribute rec full_save folder (att, spec)) self []
    (Raise TypeError).
Proof.
  intros Hout Hshadow z. rewrite app_nil_r.
  rewrite (save_attribute_written Hout)
    by (unfold has_save_method; rewrite Hshadow; apply orb_true_r).
  unfold call_save_method, bind, read_self. cbn [fst].
  now rewrite Hshadow.
Qed.

Lemma save_attribute_plain :
  left_out full_save full_only v = false ->
  hasattr ("_save_" ++ m) self = false ->
  codec_accepts m v = true ->
  runs_to (save_attribute rec full_save folder (att, spec)) self
    [(pfx folder ++ att ++ "." ++ m, encoded m v)] (OK tt).
Proof.
  intros Hout Hshadow Hacc z.
  assert (is_class_codec m = true) as Hcodec.
  { unfold codec_accepts in Hacc. unfold is_class_codec. simpl.
    destruct (String.eqb m "pickle"), (String.eqb m "numpy"),
      (String.eqb m "torch"), (String.eqb m "json");
      simpl; try reflexivity; discriminate. }
  rewrite (save_attribute_written Hout)
    by (unfold has_save_method; now rewrite Hcodec).
  unfold call_save_method. unfold bind, read_self. cbn [fst].
  rewrite Hshadow. unfold codec_accepts in Hacc. unfold encoded.
  unfold _save_pickle, _save_numpy, _save_torch, _save_json.
  rewrite !append_folder_pfx.
  destruct (String.eqb_spec m "pickle") as [->|_]; [reflexivity|].
  destruct (String.eqb_spec m "torch") as [->|_]; [reflexivity|].
  destruct (String.eqb_spec m "numpy") as [->|_].
  { unfold v in *. destruct (declared_value att self);
      try discriminate. reflexivity. }
  destruct (String.eqb_spec m "json") as [->|_]; [|discriminate].
  unfold on_zip, zip_write, json_dumps. simpl. now rewrite Hacc.
Qed.

Lemma save_attribute_nested e r :
  m = "mushroom" ->
  left_out full_save full_only v = false ->
  hasattr ("_save_" ++ m) self = false ->
  runs_to (rec full_save (_append_folder folder (att ++ "." ++ m))) v e r ->
  runs_to (save_attribute rec full_save folder (att, spec)) self e r.
Proof.
  intros Hm Hout Hshadow Hrec z.
  rewrite (save_attribute_written Hout) by (subst m; reflexivity).
  unfold call_save_method. unfold bind, read_self. cbn [fst].
  rewrite Hshadow. subst m. simpl.
  unfold _save_mushroom. apply runs_on_attribute; [|exact Hrec].
  apply orb_false_iff in Hout as [_ Hnone].
  now apply declared_value_getattr.
Qed.
End SaveAttribute.

(* ------------------------------------------------------------------ *)
(** ** One attribute, loaded *)

Section LoadAttribute.
Variable rec : zipfile -> string -> result pyval.
Variables (zip_file : zipfile) (folder : string) (loaded_object : pyval).
Variables (att : string) (spec : pyval) (m : string) (full_only : bool).
Hypothesis spec_codec : codec_of spec = Some (m, full_only).

Let file_name := pfx folder ++ att ++ "." ++ m.

Lemma load_attribute_unfold :
  load_attribute rec zip_file folder loaded_object (att, spec)
  = if in_namelist file_name zip_file || String.eqb m "mushroom" then
      try load_method <- class_load_method rec m;
      try att_val <- load_method zip_file file_name;
      OK (setattr att att_val loaded_object)
    else OK (setattr att PNone loaded_object).
Proof.
  destruct (codec_of_inv _ _ _ spec_codec)
    as (method & last & -> & Hlast & Hm & _).
  unfold load_attribute, as_str, last_of, rbind. rewrite Hlast.
  rewrite <- Hm, append_folder_pfx. reflexivity.
Qed.

Lemma load_attribute_absent :
  m <> "mushroom" ->
  ~ In file_name (namelist zip_file) ->
  load_attribute rec zip_file folder loaded_object (att, spec)
  = OK (setattr att PNone loaded_object).
Proof.
  intros Hm Hn. rewrite load_attribute_unfold.
  rewrite (in_namelist_false _ _ Hn).
  now destruct (String.eqb_spec m "mushroom").
Qed.

Lemma load_attribute_plain v :
  codec_accepts m v = true ->
  zip_open zip_file file_name = OK (encoded m v) ->
  load_attribute rec zip_file folder loaded_object (att, spec)
  = OK (setattr att v loaded_object).
Proof.
  intros Hacc Hopen. rewrite load_attribute_unfold.
  assert (in_namelist file_name zip_file = true) as ->.
  { apply in_namelist_spec. apply zip_open_found in Hopen.
    now apply (in_map fst) in Hopen. }
  simpl. unfold codec_accepts in Hacc. unfold class_load_method.
  unfold encoded in Hopen.
  destruct (String.eqb_spec m "pickle") as [E|_].
  { simpl. unfold _load_pickle. now rewrite Hopen. }
  destruct (String.eqb_spec m "torch") as [E|_].
  { replace (String.eqb m "numpy") with false by now rewrite E.
    simpl. unfold _load_torch. now rewrite Hopen. }
  destruct (String.eqb_spec m "numpy") as [E|_].
  { simpl. unfold _load_numpy. now rewrite Hopen. }
  destruct (String.eqb_spec m "json") as [E|_]; [|discriminate].
  simpl. unfold _load_json. now rewrite Hopen.
Qed.

Lemma load_attribute_nested :
  m = "mushroom" ->
  load_attribute rec zip_file folder loaded_object (att, spec)
  = try att_val <- rec zip_file (_append_folder folder (att ++ "." ++ m));
    OK (setattr att att_val loaded_object).
Proof.
  intros Hm. rewrite load_attribute_unfold. subst m.
  rewrite orb_true_r. simpl. unfold _load_mushroom.
  now rewrite append_folder_pfx.
Qed.
End LoadAttribute.

(* ------------------------------------------------------------------ *)
(** ** A save followed by a load *)

Lemma fold_setattr_fresh cls (f : string * pyval -> pyval) items :
  forall acc,
    NoDup (keys items) ->
    (forall k, In k (keys items) -> ~ In k (keys acc)) ->
    fold_left (fun o item => setattr (fst item) (f item) o) items
      (PObject cls acc)
    = PObject cls (acc ++ map (fun item => (fst item, f item)) items)%list.
Proof.
  induction items as [|[k x] items IH]; intros acc Hnd Hfresh; simpl.
  - now rewrite app_nil_r.
  - inversion Hnd as [|? ? Hk Hnd']; subst.
    rewrite assoc_set_snoc by (apply Hfresh; now left).
    rewrite IH; [now rewrite <- app_assoc | exact Hnd' |].
    intros k' Hk' Hin. unfold keys in Hin. rewrite map_app in Hin.
    apply in_app_or in Hin as [Hin|[<-|[]]].
    + apply (Hfresh k'); [now right | exact Hin].
    + contradiction.
Qed.

Section RoundTrip.
Variable full_save : bool.
Variable save_rec : bool -> string -> M world unit.
Variable load_rec : zipfile -> string -> result pyval.
Variable nested_ok : pyval -> bool.
Variable nested : pyval -> pyval.

Hypothesis nested_round_trip :
  forall v folder,
    nested_ok v = true ->
    archived (save_rec full_save) load_rec v (nested v) folder.

Variables (self : pyval) (folder : string).

Let under (att : string) : string := pfx folder ++ att ++ ".".

Lemma attribute_round_trip att spec :
  attribute_ok full_save nested_ok self (att, spec) = true ->
  exists E,
    runs_to (save_attribute save_rec full_save folder (att, spec)) self E
      (OK tt) /\
    (forall n, In n (namelist E) -> starts_with (under att) n) /\
    (forall pre post obj,
        nothing_under (under att) pre -> nothing_under (under att) post ->
        load_attribute load_rec (pre ++ E ++ post)%list folder obj (att, spec)
        = OK (setattr att
                (reloaded_value full_save nested self (att, spec)) obj)).
Proof.
  unfold attribute_ok, reloaded_value. intros Hok.
  apply andb_true_iff in Hok as [_ Hok].
  destruct (codec_of spec) as [[m full_only]|] eqn:Hspec; [|discriminate].
  assert (forall r, starts_with (under att) (pfx folder ++ att ++ "." ++ r))
    as Hunder.
  { intros r. exists r. unfold under. now rewrite !append_assoc. }
  destruct (left_out full_save full_only (declared_value att self)) eqn:Hout.
  - (* nothing is written *)
    apply negb_true_iff, String.eqb_neq in Hok.
    exists []. split; [|split].
    + now apply save_attribute_left_out with m full_only.
    + intros n [].
    + intros pre post obj Hpre Hpost. simpl.
      apply load_attribute_absent with m full_only; [assumption..|].
      rewrite namelist_app. intros Hin.
      apply in_app_or in Hin as [Hin|Hin];
        [apply (Hpre _ Hin) | apply (Hpost _ Hin)]; apply Hunder.
  - apply andb_true_iff in Hok as [Hshadow Hok].
    apply negb_true_iff in Hshadow.
    destruct (String.eqb_spec m "mushroom") as [Hm|Hm].
    + (* a nested object *)
      destruct (nested_round_trip _
                  (_append_folder folder (att ++ "." ++ m)) Hok)
        as (E & Hsave & Hnames & Hload).
      assert (starts_with (under att)
                (pfx (_append_folder folder (att ++ "." ++ m)))) as Hsub.
      { rewrite pfx_append_folder by (destruct att; discriminate).
        rewrite append_assoc. apply Hunder. }
      exists E. split; [|split].
      * now apply save_attribute_nested with m full_only.
      * intros n Hn. eapply starts_with_trans; [exact Hsub | auto].
      * intros pre post obj Hpre Hpost.
        rewrite load_attribute_nested with (m := m) (full_only := full_only)
          by assumption.
        rewrite Hload; [reflexivity | |];
          eapply nothing_under_longer; eauto.
    + (* one entry *)
      exists [(pfx folder ++ att ++ "." ++ m,
               encoded m (declared_value att self))].
      split; [|split].
      * now apply save_attribute_plain with full_only.
      * intros n [<-|[]]. apply Hunder.
      * intros pre post obj Hpre Hpost.
        apply load_attribute_plain with m full_only; [assumption..|].
        rewrite app_assoc, zip_open_app_r, zip_open_last; [reflexivity|].
        intros Hin. apply (Hpost _ Hin), Hunder.
Qed.

Lemma attributes_round_trip items :
  NoDup (keys items) ->
  forallb (attribute_ok full_save nested_ok self) items = true ->
  exists E,
    runs_to (for_each items (save_attribute save_rec full_save folder)) self
      E (OK tt) /\
    (forall n, In n (namelist E) ->
       exists att, In att (keys items) /\ starts_with (under att) n) /\
    (forall pre post obj,
        (forall att, In att (keys items) ->
           nothing_under (under att) pre /\ nothing_under (under att) post) ->
        load_attributes load_rec (pre ++ E ++ post)%list folder items obj
        = OK (fold_left
                (fun o item =>
                   setattr (fst item)
                     (reloaded_value full_save nested self item) o)
                items obj)).
Proof.
  induction items as [|[att spec] items IH]; intros Hnd Hok.
  - exists []. split; [apply runs_ret | split]; [intros n [] | reflexivity].
  - inversion Hnd as [|? ? Hatt Hnd']; subst.
    simpl in Hok. apply andb_true_iff in Hok as [Hok Hoks].
    destruct (attribute_round_trip att spec Hok)
      as (E1 & Hsave1 & Hnames1 & Hload1).
    destruct (IH Hnd' Hoks) as (E2 & Hsave2 & Hnames2 & Hload2).
    assert (has_dot att = false) as Hdot.
    { unfold attribute_ok in Hok. apply andb_true_iff in Hok as [Hok _].
      now apply negb_true_iff in Hok. }
    assert (forall att', In att' (keys items) ->
              has_dot att' = false /\ att' <> att) as Hothers.
    { intros att' Hin. split; [|intros ->; contradiction].
      unfold keys in Hin. apply in_map_iff in Hin as [[a s] [<- Hin]].
      rewrite forallb_forall in Hoks. specialize (Hoks _ Hin).
      unfold attribute_ok in Hoks.
      apply andb_true_iff in Hoks as [Hoks _].
      now apply negb_true_iff in Hoks. }
    exists (E1 ++ E2)%list. split; [|split].
    + simpl. now apply runs_bind with tt.
    + intros n Hn. rewrite namelist_app in Hn.
      apply in_app_or in Hn as [Hn|Hn].
      * exists att. split; [now left | auto].
      * destruct (Hnames2 n Hn) as (att' & Hin & Hst).
        exists att'. split; [now right | exact Hst].
    + intros pre post obj Hctx. cbn [load_attributes fold_left fst].
      replace (pre ++ (E1 ++ E2) ++ post)%list
        with (pre ++ E1 ++ (E2 ++ post))%list
        by now rewrite <- !app_assoc.
      destruct (Hctx att (or_introl eq_refl)) as [Hpre Hpost].
      rewrite Hload1; [| exact Hpre |].
      * cbn [rbind].
        replace (pre ++ E1 ++ E2 ++ post)%list
          with ((pre ++ E1) ++ E2 ++ post)%list
          by now rewrite <- !app_assoc.
        apply Hload2. intros att' Hin.
        destruct (Hctx att' (or_intror Hin)) as [Hpre' Hpost'].
        split; [|exact Hpost'].
        apply nothing_under_app. split; [exact Hpre'|].
        intros n Hn. destruct (Hothers att' Hin) as [Hdot' Hne].
        apply attribute_prefixes_disjoint with att; auto.
      * apply nothing_under_app. split; [|exact Hpost].
        intros n Hn. destruct (Hnames2 n Hn) as (att' & Hin & Hst).
        destruct (Hothers att' Hin) as [Hdot' Hne].
        apply attribute_prefixes_disjoint with att'; auto.
Qed.

Lemma object_round_trip :
  object_ok full_save nested_ok self = true ->
  archived (save_zip_body save_rec full_save) (load_zip_body load_rec)
    self (reloaded_object full_save nested self) folder.
Proof.
  unfold object_ok, reloaded_object. intros Hok.
  destruct (getattr "_save_attributes" self) as [[]|] eqn:Hsa;
    try discriminate.
  rename kvs into sa.
  apply andb_true_iff in Hok as [Hnd Hoks]. apply nodup_keys_spec in Hnd.
  destruct self as [| | | | | | | | |cls fields] eqn:Hself;
    try discriminate.
  rewrite <- Hself in *.
  destruct (attributes_round_trip sa Hnd Hoks)
    as (E & Hsave & Hnames & Hload).
  set (config_data :=
         PDict [("type", PClass cls); ("save_attributes", PDict sa)]).
  exists ((pfx folder ++ "config", BPickle config_data) :: E).
  split; [|split].
  - intros z. unfold save_zip_body, bind, read_self. cbn [fst].
    rewrite Hsa. rewrite Hself at 1. cbn [type_of].
    unfold on_zip, _save_pickle, zip_write, pickle_dump, lift.
    cbn [fst snd dict_items]. rewrite append_folder_pfx, Hsave.
    now rewrite <- app_assoc.
  - intros n [<-|Hn]; [apply starts_with_append|].
    destruct (Hnames n Hn) as (att & _ & Hst).
    eapply starts_with_trans; [|exact Hst]. apply starts_with_append.
  - intros pre post Hpre Hpost.
    unfold load_zip_body, _load_pickle. rewrite append_folder_pfx.
    set (config_path := pfx folder ++ "config").
    replace (pre ++ ((config_path, BPickle config_data) :: E) ++ post)%list
      with ((pre ++ [(config_path, BPickle config_data)]) ++ E ++ post)%list
      by (rewrite <- !app_assoc; reflexivity).
    rewrite zip_open_app_r, zip_open_last.
    + simpl. rewrite Hload.
      * simpl. unfold _post_load. rewrite Hself in *. rewrite Hsa.
        now rewrite fold_setattr_fresh by (auto; intros k _ []).
      * intros att Hin. split.
        -- apply nothing_under_app. split.
           ++ eapply nothing_under_longer; [|exact Hpre].
              apply starts_with_append.
           ++ intros n [<-|[]] Hst.
              now apply (config_not_attribute _ _ _ Hst).
        -- eapply nothing_under_longer; [|exact Hpost].
           apply starts_with_append.
    + rewrite namelist_app. intros Hin.
      apply in_app_or in Hin as [Hin|Hin].
      * destruct (Hnames _ Hin) as (att & _ & Hst).
        now apply (config_not_attribute _ _ _ Hst).
      * apply (Hpost _ Hin). apply starts_with_append.
Qed.
End RoundTrip.

Lemma save_load_round_trip fuel full_save :
  forall self folder,
    well_formed fuel full_save self = true ->
    archived (save_zip fuel full_save) (load_zip fuel) self
      (reloaded fuel full_save self) folder.
Proof.
  induction fuel as [|fuel IH]; intros self folder Hwf; [discriminate|].
  simpl in Hwf. simpl.
  apply (object_round_trip full_save (save_zip fuel) (load_zip fuel)
           (well_formed fuel full_save) (reloaded fuel full_save)).
  - intros v folder' Hv. now apply IH.
  - exact Hwf.
Qed.

(* ------------------------------------------------------------------ *)
(** ** The whole archive *)

Lemma saved_archive_runs fuel self full_save :
  runs_to (save_zip fuel full_save EmptyString) self
    (saved_archive fuel self full_save) (snd (save fuel self full_save)).
Proof.
  destruct (save_zip_writes_under fuel full_save EmptyString self) as (e & r & H & _).
  intros z. unfold saved_archive, save. now rewrite (H []), (H z).
Qed.

Lemma save_eq fuel self full_save :
  save fuel self full_save
  = ((self, saved_archive fuel self full_save),
     snd (save fuel self full_save)).
Proof.
  destruct (save_zip_writes_under fuel full_save EmptyString self) as (e & r & H & _).
  unfold saved_archive, save. now rewrite (H []).
Qed.

Lemma save_then_load fuel full_save self :
  well_formed fuel full_save self = true ->
  snd (save fuel self full_save) = OK tt /\
  load fuel (Some (saved_archive fuel self full_save))
  = OK (reloaded fuel full_save self).
Proof.
  intros Hwf.
  destruct (save_load_round_trip fuel full_save self EmptyString Hwf)
    as (E & Hsave & _ & Hload).
  destruct (runs_to_fun _ _ _ _ _ _ Hsave
              (saved_archive_runs fuel self full_save)) as [<- <-].
  split; [reflexivity|].
  specialize (Hload [] [] (nothing_under_nil _) (nothing_under_nil _)).
  simpl in Hload. rewrite app_nil_r in Hload. exact Hload.
Qed.

Lemma well_formed_inv fuel full_save self :
  well_formed fuel full_save self = true ->
  exists fuel' cls fields sa,
    fuel = S fuel' /\ self = PObject cls fields /\
    getattr "_save_attributes" self = OK (PDict sa) /\
    NoDup (keys sa) /\
    forallb (attribute_ok full_save (well_formed fuel' full_save) self) sa
    = true.
Proof.
  destruct fuel as [|fuel']; [discriminate|]. simpl. unfold object_ok.
  destruct (getattr "_save_attributes" self) as [[]|] eqn:Hsa;
    try discriminate.
  intros H. apply andb_true_iff in H as [Hnd Hoks].
  destruct self; try discriminate.
  exists fuel', cls, fields, kvs. rewrite nodup_keys_spec in Hnd. auto.
Qed.

Lemma nodup_keys_in {A} (d : list (string * A)) k v v' :
  NoDup (keys d) -> In (k, v) d -> In (k, v') d -> v = v'.
Proof.
  induction d as [|[k0 v0] d IH]; intros Hnd H H'; [destruct H|].
  inversion Hnd as [|? ? Hk Hnd']; subst.
  destruct H as [H|H], H' as [H'|H'].
  - congruence.
  - injection H as -> ->. exfalso. apply Hk.
    now apply (in_map fst) in H'.
  - injection H' as -> ->. exfalso. apply Hk.
    now apply (in_map fst) in H.
  - auto.
Qed.

Lemma assoc_get_map {A B} (f : string * A -> B) (d : list (string * A)) k v :
  NoDup (keys d) -> In (k, v) d ->
  assoc_get k (map (fun item => (fst item, f item)) d) = Some (f (k, v)).
Proof.
  induction d as [|[k0 v0] d IH]; intros Hnd H; [destruct H|].
  inversion Hnd as [|? ? Hk Hnd']; subst. simpl.
  destruct (String.eqb_spec k k0) as [->|Hne].
  - destruct H as [H|H]; [now injection H as ->|].
    exfalso. apply Hk. now apply (in_map fst) in H.
  - destruct H as [H|H]; [congruence | auto].
Qed.

Lemma reloaded_getattr fuel full_save cls fields sa att spec :
  getattr "_save_attributes" (PObject cls fields) = OK (PDict sa) ->
  NoDup (keys sa) -> In (att, spec) sa ->
  getattr att (reloaded (S fuel) full_save (PObject cls fields))
  = OK (reloaded_value full_save (reloaded fuel full_save)
          (PObject cls fields) (att, spec)).
Proof.
  intros Hsa Hnd Hin. cbn [reloaded]. unfold reloaded_object.
  rewrite Hsa. cbn [getattr].
  now rewrite (assoc_get_map _ sa att spec Hnd Hin).
Qed.

Lemma is_None_eq v : is_None v = true -> v = PNone.
Proof. destruct v; try discriminate. reflexivity. Qed.

Lemma reloaded_same_state fuel :
  forall self,
    well_formed fuel true self = true ->
    same_state self (reloaded fuel true self).
Proof.
  induction fuel as [|fuel IH]; intros self Hwf; [discriminate|].
  destruct (well_formed_inv _ _ _ Hwf)
    as (fuel' & cls & fields & sa & Hfuel & -> & Hsa & Hnd & Hoks).
  injection Hfuel as <-.
  assert (reloaded (S fuel) true (PObject cls fields)
          = PObject cls
              (map (fun item =>
                      (fst item,
                       reloaded_value true (reloaded fuel true)
                         (PObject cls fields) item)) sa)) as Hre.
  { cbn [reloaded]. unfold reloaded_object. now rewrite Hsa. }
  rewrite forallb_forall in Hoks.
  rewrite Hre. apply same_object with sa.
  - cbn [getattr] in Hsa.
    destruct (assoc_get "_save_attributes" fields) as [v|]; [|discriminate].
    now injection Hsa as ->.
  - intros att spec m full_only Hin Hspec Hm. rewrite <- Hre.
    rewrite (reloaded_getattr _ _ _ _ _ _ _ Hsa Hnd Hin).
    unfold reloaded_value. rewrite Hspec.
    apply String.eqb_neq in Hm. rewrite Hm.
    unfold left_out. rewrite andb_false_r. simpl.
    destruct (is_None (declared_value att (PObject cls fields))) eqn:Hnone;
      [|reflexivity].
    now rewrite (is_None_eq _ Hnone).
  - intros att spec full_only Hin Hspec. rewrite <- Hre.
    rewrite (reloaded_getattr _ _ _ _ _ _ _ Hsa Hnd Hin).
    specialize (Hoks _ Hin). unfold attribute_ok in Hoks.
    unfold reloaded_value. rewrite Hspec in *.
    apply andb_true_iff in Hoks as [_ Hoks].
    destruct (left_out true full_only
                (declared_value att (PObject cls fields)));
      [discriminate|].
    apply andb_true_iff in Hoks as [_ Hoks]. simpl in *.
    eexists. split; [reflexivity | now apply IH].
Qed.

Lemma save_attribute_writes_only fuel full_save folder item self :
  writes (fun _ => True)
    (save_attribute (save_zip fuel) full_save folder item) self.
Proof.
  destruct item as [att spec].
  eapply writes_weaken; [|apply save_attribute_writes_under].
  intros; exact I.
Qed.

(** The first entry of an object is its config; the others belong to its
    attributes. *)
Lemma save_zip_body_config rec full_save folder cls fields sav :
  (forall fs fd self, writes (under_folder fd) (rec fs fd) self) ->
  getattr "_save_attributes" (PObject cls fields) = OK sav ->
  exists E r,
    runs_to (save_zip_body rec full_save folder) (PObject cls fields)
      ((pfx folder ++ "config",
        BPickle (PDict [("type", PClass cls); ("save_attributes", sav)]))
         :: E) r /\
    Forall (fun n => exists att, under_attribute folder att n) (namelist E) /\
    (forall sa, sav = PDict sa ->
       runs_to (for_each sa (save_attribute rec full_save folder))
         (PObject cls fields) E r).
Proof.
  intros Hrec Hsa.
  set (self := PObject cls fields) in *.
  assert (forall E r,
             runs_to (bind (lift (dict_items sav))
                        (fun items =>
                           for_each items
                             (save_attribute rec full_save folder)))
               self E r ->
             runs_to (save_zip_body rec full_save folder) self
               ((pfx folder ++ "config",
                 BPickle
                   (PDict [("type", PClass cls); ("save_attributes", sav)]))
                  :: E) r) as Hbody.
  { intros E r Hrun z. unfold save_zip_body.
    unfold bind at 1 2 3, read_self. cbn [fst]. rewrite Hsa.
    cbn [type_of self]. unfold on_zip, _save_pickle, zip_write, pickle_dump.
    cbn [fst snd]. rewrite append_folder_pfx, Hrun.
    now rewrite <- app_assoc. }
  destruct sav as [| | | | |sa| | | |];
    try (exists [], (Raise AttributeError); split; [|split];
         [ apply Hbody; apply runs_bind_raise, runs_lift
         | constructor | discriminate ]).
  assert (writes (fun n => exists att, under_attribute folder att n)
            (for_each sa (save_attribute rec full_save folder)) self)
    as (E & r & Hrun & Hnames).
  { apply writes_for_each. intros [att spec] _.
    eapply writes_weaken;
      [| apply save_attribute_writes with (in_folder := under_folder)
           (in_attribute := under_attribute)].
    - intros n Hn. now exists att.
    - exact Hrec.
    - intros. apply under_plain_name.
    - apply under_nested_name. }
  exists E, r. split; [|split].
  - apply Hbody. change E with ([] ++ E)%list.
    apply runs_bind with sa; [apply runs_lift | exact Hrun].
  - exact Hnames.
  - intros sa' Heq. injection Heq as <-. exact Hrun.
Qed.

Lemma under_attribute_has_dot folder att n :
  under_attribute folder att n -> n <> pfx folder ++ "config".
Proof. apply config_not_attribute. Qed.

(** An attribute that is left out has no entry in the archive. *)
Lemma left_out_not_written fuel full_save self sa att spec m full_only :
  getattr "_save_attributes" self = OK (PDict sa) ->
  NoDup (keys sa) ->
  (forall k, In k (keys sa) -> has_dot k = false) ->
  In (att, spec) sa ->
  codec_of spec = Some (m, full_only) ->
  left_out full_save full_only (declared_value att self) = true ->
  ~ In (att ++ "." ++ m) (namelist (saved_archive fuel self full_save)).
Proof.
  intros Hsa Hnd Hdots Hin Hspec Hout Hn.
  pose proof (saved_archive_runs fuel self full_save) as Hrun.
  destruct fuel as [|fuel].
  { destruct (runs_to_fun _ _ _ _ _ _ Hrun (runs_raise self RecursionError))
      as [E _]. rewrite E in Hn. destruct Hn. }
  destruct self as [| | | | | | | | |cls fields]; try discriminate.
  destruct (save_zip_body_config (save_zip fuel) full_save EmptyString cls fields
              (PDict sa) (save_zip_writes_under fuel) Hsa)
    as (E & r & Hbody & _ & Hloop).
  cbn [save_zip] in Hrun.
  destruct (runs_to_fun _ _ _ _ _ _ Hrun Hbody) as [HE _].
  rewrite HE in Hn. destruct Hn as [Hn|Hn].
  { apply (f_equal has_dot) in Hn. rewrite has_dot_append in Hn.
    simpl in Hn. rewrite orb_true_r in Hn. discriminate. }
  destruct (for_each_entries _ _ _ _ _ (Hloop sa eq_refl)
              (fun item =>
                 save_attribute_writes_only fuel full_save EmptyString item
                   (PObject cls fields))
              _ Hn)
    as ([att' spec'] & e & r' & Hin' & Hstep & Hne).
  destruct (String.eqb_spec att' att) as [->|Hatt].
  - rewrite (nodup_keys_in sa att spec' spec Hnd Hin' Hin) in Hstep.
    pose proof (save_attribute_left_out (save_zip fuel) full_save EmptyString
                  (PObject cls fields) att spec m full_only Hspec Hout)
      as Hnone.
    destruct (runs_to_fun _ _ _ _ _ _ Hstep Hnone) as [-> _].
    destruct Hne.
  - destruct (save_attribute_writes_under fuel full_save EmptyString att' spec'
                (PObject cls fields)) as (e' & r'' & Hstep' & Hunder).
    destruct (runs_to_fun _ _ _ _ _ _ Hstep Hstep') as [<- _].
    rewrite Forall_forall in Hunder. specialize (Hunder _ Hne).
    revert Hunder.
    apply (attribute_prefixes_disjoint EmptyString att att').
    + apply Hdots. now apply (in_map fst) in Hin.
    + apply Hdots. now apply (in_map fst) in Hin'.
    + congruence.
    + exists m. simpl. now rewrite append_assoc.
Qed.

(** A save that ends well wrote the config of the object first. *)
Lemma save_zip_ok_config fuel full_save folder self e :
  runs_to (save_zip fuel full_save folder) self e (OK tt) ->
  In (_append_folder folder "config") (namelist e).
Proof.
  intros Hrun. destruct fuel as [|fuel].
  { destruct (runs_to_fun _ _ _ _ _ _ Hrun (runs_raise self RecursionError))
      as [_ E]. discriminate E. }
  cbn [save_zip] in Hrun.
  assert (forall err,
             type_of self = Raise err ->
             runs_to (save_zip_body (save_zip fuel) full_save folder) self []
               (Raise err)) as Hty.
  { intros err Herr. unfold save_zip_body. apply runs_bind_raise.
    rewrite <- Herr. apply runs_read_self. }
  destruct self as [| | | | | | | | |cls fields];
    try (destruct (runs_to_fun _ _ _ _ _ _ Hrun (Hty _ eq_refl)) as [_ E];
         discriminate E).
  destruct (getattr "_save_attributes" (PObject cls fields))
    as [sav|err] eqn:Hsa.
  - destruct (save_zip_body_config (save_zip fuel) full_save folder cls
                fields sav (save_zip_writes_under fuel) Hsa)
      as (E & r & Hbody & _).
    destruct (runs_to_fun _ _ _ _ _ _ Hrun Hbody) as [-> _].
    left. simpl. now rewrite append_folder_pfx.
  - assert (runs_to (save_zip_body (save_zip fuel) full_save folder)
              (PObject cls fields) [] (Raise err)) as Hraise.
    { unfold save_zip_body.
      change (@nil (string * blob)) with (@nil (string * blob) ++ [])%list.
      apply runs_bind with (PClass cls);
        [exact (runs_read_self (PObject cls fields) type_of)|].
      apply runs_bind_raise. rewrite <- Hsa. apply runs_read_self. }
    destruct (runs_to_fun _ _ _ _ _ _ Hrun Hraise) as [_ E]. discriminate E.
Qed.

(** A save that ends well ran the step of every declared attribute to a
    good end, and kept what the step wrote. *)
Lemma save_completed fuel full_save self sa att spec :
  snd (save fuel self full_save) = OK tt ->
  getattr "_save_attributes" self = OK (PDict sa) ->
  In (att, spec) sa ->
  exists fuel' e,
    fuel = S fuel' /\
    runs_to (save_attribute (save_zip fuel') full_save EmptyString (att, spec)) self e
      (OK tt) /\
    incl e (saved_archive fuel self full_save).
Proof.
  intros Hok Hsa Hin.
  pose proof (saved_archive_runs fuel self full_save) as Hrun.
  rewrite Hok in Hrun.
  destruct fuel as [|fuel].
  { destruct (runs_to_fun _ _ _ _ _ _ Hrun (runs_raise self RecursionError))
      as [_ E]. discriminate E. }
  destruct self as [| | | | | | | | |cls fields]; try discriminate.
  destruct (save_zip_body_config (save_zip fuel) full_save EmptyString cls fields
              (PDict sa) (save_zip_writes_under fuel) Hsa)
    as (E & r & Hbody & _ & Hloop).
  cbn [save_zip] in Hrun.
  destruct (runs_to_fun _ _ _ _ _ _ Hrun Hbody) as [HE <-].
  destruct (for_each_completed _ _ _ _ (Hloop sa eq_refl)
              (fun item =>
                 save_attribute_writes_only fuel full_save EmptyString item
                   (PObject cls fields))
              _ Hin) as (e & Hstep & Hincl).
  exists fuel, e. split; [reflexivity | split; [exact Hstep|]].
  rewrite HE. now apply incl_tl.
Qed.

(* ------------------------------------------------------------------ *)
(** ** A load that ends well *)

Lemma load_attributes_completed rec zip_file folder items :
  forall obj y,
    load_attributes rec zip_file folder items obj = OK y ->
    forall item, In item items ->
      exists o o', load_attribute rec zip_file folder o item = OK o'.
Proof.
  induction items as [|item0 items IH]; intros obj y Hload item Hin;
    [destruct Hin|].
  cbn [load_attributes] in Hload.
  destruct (load_attribute rec zip_file folder obj item0) as [o'|]
    eqn:Hstep; [|discriminate].
  destruct Hin as [<-|Hin]; [now exists obj, o' | eauto].
Qed.

Lemma load_zip_config fuel zip_file folder y :
  load_zip fuel zip_file folder = OK y ->
  exists fuel' k1 k2 cls sa,
    fuel = S fuel' /\
    _load_pickle zip_file (_append_folder folder "config")
    = OK (PDict [(k1, PClass cls); (k2, PDict sa)]) /\
    load_attributes (load_zip fuel') zip_file folder sa (PObject cls [])
    = OK y.
Proof.
  destruct fuel as [|fuel]; [discriminate|]. cbn [load_zip].
  unfold load_zip_body.
  destruct (_load_pickle zip_file (_append_folder folder "config"))
    as [config|]; [|discriminate].
  cbn [rbind]. destruct config; try discriminate. cbn [dict_values rbind].
  destruct kvs as [|[k1 ty] [|[k2 sav] [|]]]; try discriminate.
  cbn [map snd]. destruct ty; try discriminate.
  cbn [object_new rbind]. destruct sav; try discriminate.
  cbn [dict_items rbind].
  destruct (load_attributes (load_zip fuel) zip_file folder kvs
              (PObject name [])) as [y'|] eqn:Hload; [|discriminate].
  cbn [rbind]. unfold _post_load. intros H. injection H as <-.
  now exists fuel, k1, k2, name, kvs.
Qed.

Lemma load_pickle_found zip_file name v :
  _load_pickle zip_file name = OK v -> In name (namelist zip_file).
Proof.
  unfold _load_pickle.
  destruct (zip_open zip_file name) as [b|] eqn:Hopen; [|discriminate].
  intros _. apply zip_open_found in Hopen. now apply (in_map fst) in Hopen.
Qed.

Lemma not_class_codec m :
  is_class_codec m = false ->
  m <> "mushroom" /\
  forall rec, class_load_method rec m = Raise AttributeError.
Proof.
  unfold is_class_codec, class_load_method. simpl.
  destruct (String.eqb_spec m "pickle"); [discriminate|].
  destruct (String.eqb_spec m "numpy"); [discriminate|].
  destruct (String.eqb_spec m "torch"); [discriminate|].
  destruct (String.eqb_spec m "json"); [discriminate|].
  destruct (String.eqb_spec m "mushroom"); [discriminate|].
  auto.
Qed.

(* ------------------------------------------------------------------ *)
(** ** Declaring attributes *)

Lemma keys_assoc_update {A} (e d : list (string * A)) k :
  In k (keys d) -> In k (keys (assoc_update d e)).
Proof.
  unfold assoc_update. revert d.
  induction e as [|[k' v'] e IH]; intros d H; simpl; [exact H|].
  apply IH. apply keys_assoc_set. now right.
Qed.

Lemma assoc_update_other {A} (e d : list (string * A)) k :
  ~ In k (keys e) -> assoc_get k (assoc_update d e) = assoc_get k d.
Proof.
  unfold assoc_update. revert d.
  induction e as [|[k' v'] e IH]; intros d H; simpl; [reflexivity|].
  rewrite IH by (intros Hin; apply H; now right).
  apply assoc_get_set_neq. intros ->. apply H. now left.
Qed.

Lemma add_save_attr_declared cls fields d attr_dict :
  assoc_get "_save_attributes" fields = Some (PDict d) ->
  _add_save_attr attr_dict (PObject cls fields)
  = (PObject cls
       (assoc_set "_save_attributes" (PDict (assoc_update d attr_dict))
          fields),
     OK tt).
Proof.
  intros H. unfold _add_save_attr. cbn [hasattr].
  rewrite H. cbn [negb getattr setattr]. now rewrite H.
Qed.

Lemma add_save_attr_fresh cls fields attr_dict :
  assoc_get "_save_attributes" fields = None ->
  _add_save_attr attr_dict (PObject cls fields)
  = (PObject cls
       (assoc_set "_save_attributes"
          (PDict (assoc_update [("_save_attributes", PStr "json")] attr_dict))
          (assoc_set "_save_attributes"
             (PDict [("_save_attributes", PStr "json")]) fields)),
     OK tt).
Proof.
  intros H. unfold _add_save_attr. cbn [hasattr].
  rewrite H. cbn [negb getattr setattr].
  now rewrite assoc_get_set_eq.
Qed.

Lemma add_save_attr_keeps self attr_dict :
  reserved_key_kept self ->
  exists self',
    _add_save_attr attr_dict self = (self', OK tt) /\ reserved_key_kept self'.
Proof.
  intros (cls & fields & d & -> & Hd & Hkey).
  rewrite (add_save_attr_declared _ _ _ _ Hd). eexists. split; [reflexivity|].
  eexists cls, _, _. split; [reflexivity|].
  split; [apply assoc_get_set_eq | now apply keys_assoc_update].
Qed.

Lemma declarations_keep calls :
  forall self,
    reserved_key_kept self ->
    exists self',
      for_each calls _add_save_attr self = (self', OK tt) /\
      reserved_key_kept self'.
Proof.
  induction calls as [|attr_dict calls IH]; intros self Hkept.
  - exists self. split; [reflexivity | exact Hkept].
  - destruct (add_save_attr_keeps self attr_dict Hkept) as (s1 & H1 & Hk1).
    destruct (IH s1 Hk1) as (s2 & H2 & Hk2).
    exists s2. split; [|exact Hk2].
    cbn [for_each]. unfold bind. now rewrite H1.
Qed.

(* ------------------------------------------------------------------ *)
(** ** Entry names and the full-save-only marker *)

Lemma last_char_append_r (s t : string) :
  t <> EmptyString -> last_char (s ++ t) = last_char t.
Proof.
  intros Ht. induction s as [|x s IH]; [reflexivity|].
  simpl. rewrite IH. destruct (s ++ t) eqn:E; [|reflexivity].
  destruct s; simpl in E; [contradiction | discriminate].
Qed.
Lemma entry_name_no_marker folder n :
  entry_name folder n -> last_char n <> Some bang.
Proof.
  induction 1 as [folder|folder att m Hm|folder att n _ IH]; [| |exact IH].
  - rewrite append_folder_pfx, last_char_append_r; discriminate.
  - rewrite append_folder_pfx.
    rewrite last_char_append_r by (destruct att; discriminate).
    rewrite last_char_append_r by discriminate.
    destruct Hm as [<-|[<-|[<-|[<-|[]]]]]; discriminate.
Qed.

Lemma save_zip_entry_names fuel full_save folder self :
  writes (entry_name folder) (save_zip fuel full_save folder) self.
Proof.
  revert full_save folder self.
  induction fuel as [|fuel IH]; intros full_save folder self; simpl.
  - apply writes_nothing with (Raise RecursionError). apply runs_raise.
  - apply save_zip_body_writes
      with (in_folder := entry_name)
           (in_attribute := fun fd _ => entry_name fd); auto.
    + intros. now apply entry_plain.
    + intros fd att n. apply entry_nested.
    + apply entry_config.
Qed.

(* ------------------------------------------------------------------ *)
(** ** Attributes that are left out *)

Lemma attribute_ok_names full_save nested_ok self sa :
  forallb (attribute_ok full_save nested_ok self) sa = true ->
  forall k, In k (keys sa) -> has_dot k = false.
Proof.
  intros Hoks k Hin. unfold keys in Hin.
  apply in_map_iff in Hin as [[att spec] [<- Hin]].
  rewrite forallb_forall in Hoks. specialize (Hoks _ Hin).
  unfold attribute_ok in Hoks. apply andb_true_iff in Hoks as [Hoks _].
  now apply negb_true_iff in Hoks.
Qed.
Lemma valid_names_spec sa :
  valid_names sa = true ->
  NoDup (keys sa) /\ forall k, In k (keys sa) -> has_dot k = false.
Proof.
  unfold valid_names. intros H. apply andb_true_iff in H as [Hnd Hdots].
  split; [now apply nodup_keys_spec|].
  intros k Hk. rewrite forallb_forall in Hdots.
  now apply negb_true_iff, Hdots.
Qed.

Lemma well_formed_names fuel full_save self sa :
  well_formed fuel full_save self = true ->
  getattr "_save_attributes" self = OK (PDict sa) ->
  valid_names sa = true.
Proof.
  intros Hwf Hsa.
  destruct (well_formed_inv _ _ _ Hwf)
    as (fuel' & cls & fields & sa' & _ & -> & Hsa' & Hnd & Hoks).
  rewrite Hsa in Hsa'. injection Hsa' as <-.
  unfold valid_names. apply andb_true_iff. split.
  - now apply nodup_keys_spec.
  - apply forallb_forall. intros k Hk. apply negb_true_iff.
    eapply attribute_ok_names; eauto.
Qed.

Lemma load_attribute_shape rec zip_file folder o att spec o' :
  load_attribute rec zip_file folder o (att, spec) = OK o' ->
  exists v, o' = setattr att v o.
Proof.
  unfold load_attribute.
  destruct (as_str spec) as [method|]; [|discriminate]. cbn [rbind].
  destruct (last_of method) as [last|]; [|discriminate]. cbn [rbind].
  match goal with |- context [if ?b then _ else _] => destruct b end.
  - destruct (class_load_method rec (strip_bang method last)) as [f|];
      [|discriminate]. cbn [rbind].
    match goal with |- context [f ?z ?n] => destruct (f z n) as [v|] end;
      [|discriminate].
    cbn [rbind]. intros H. injection H as <-. now exists v.
  - intros H. injection H as <-. now exists PNone.
Qed.

Lemma getattr_setattr_other att att' v o :
  att <> att' -> getattr att (setattr att' v o) = getattr att o.
Proof.
  intros Hne. destruct o; try reflexivity. cbn [setattr getattr].
  now rewrite assoc_get_set_neq.
Qed.

Lemma load_attributes_other rec zip_file folder att items :
  forall o y,
    load_attributes rec zip_file folder items o = OK y ->
    ~ In att (keys items) ->
    getattr att y = getattr att o.
Proof.
  induction items as [|[att0 spec0] items IH]; intros o y Hload Hnot.
  - cbn [load_attributes] in Hload. now injection Hload as <-.
  - cbn [load_attributes] in Hload.
    destruct (load_attribute rec zip_file folder o (att0, spec0)) as [o1|]
      eqn:Hstep; [|discriminate].
    cbn [rbind] in Hload.
    destruct (load_attribute_shape _ _ _ _ _ _ _ Hstep) as [v ->].
    rewrite (IH _ _ Hload) by (intros Hin; apply Hnot; now right).
    apply getattr_setattr_other. intros ->. apply Hnot. now left.
Qed.

(** What the step of an attribute assigns is what the loaded object
    holds. *)
Lemma load_attributes_get rec zip_file folder att spec v items :
  forall cls fields y,
    load_attributes rec zip_file folder items (PObject cls fields) = OK y ->
    NoDup (keys items) ->
    In (att, spec) items ->
    (forall o, load_attribute rec zip_file folder o (att, spec)
               = OK (setattr att v o)) ->
    getattr att y = OK v.
Proof.
  induction items as [|[att0 spec0] items IH];
    intros cls fields y Hload Hnd Hin Hstep; [destruct Hin|].
  inversion Hnd as [|? ? Hfresh Hnd']; subst.
  cbn [load_attributes] in Hload.
  destruct (load_attribute rec zip_file folder (PObject cls fields)
              (att0, spec0)) as [o1|] eqn:Hstep0; [|discriminate].
  cbn [rbind] in Hload.
  destruct Hin as [Heq|Hin].
  - injection Heq as -> ->. rewrite Hstep in Hstep0. injection Hstep0 as <-.
    rewrite (load_attributes_other _ _ _ att _ _ _ Hload Hfresh).
    cbn [setattr getattr]. now rewrite assoc_get_set_eq.
  - destruct (load_attribute_shape _ _ _ _ _ _ _ Hstep0) as [v0 ->].
    cbn [setattr] in Hload. now apply (IH _ _ _ Hload).
Qed.

(** The config entry of a saved archive is the one of the object. *)
Lemma saved_config fuel full_save cls fields sav :
  getattr "_save_attributes" (PObject cls fields) = OK sav ->
  zip_open (saved_archive (S fuel) (PObject cls fields) full_save) "config"
  = OK (BPickle (PDict [("type", PClass cls); ("save_attributes", sav)])).
Proof.
  intros Hsa.
  destruct (save_zip_body_config (save_zip fuel) full_save EmptyString cls fields
              sav (save_zip_writes_under fuel) Hsa)
    as (E & r & Hbody & Hnames & _).
  pose proof (saved_archive_runs (S fuel) (PObject cls fields) full_save)
    as Hrun.
  cbn [save_zip] in Hrun.
  destruct (runs_to_fun _ _ _ _ _ _ Hrun Hbody) as [-> _].
  cbn [pfx append].
  change (("config", ?b) :: E) with ([("config", b)] ++ E)%list.
  rewrite zip_open_app_r; [apply (zip_open_last []) |].
  intros Hin. rewrite Forall_forall in Hnames.
  destruct (Hnames _ Hin) as [att Hatt].
  now apply (under_attribute_has_dot EmptyString att "config").
Qed.

(** An attribute that is left out of the archive is loaded as [None],
    unless it is a nested object. *)
Lemma left_out_loaded fuel full_save x sa att spec m full_only :
  getattr "_save_attributes" x = OK (PDict sa) ->
  valid_names sa = true ->
  In (att, spec) sa ->
  codec_of spec = Some (m, full_only) ->
  m <> "mushroom" ->
  left_out full_save full_only (declared_value att x) = true ->
  ~ In (att ++ "." ++ m) (namelist (saved_archive fuel x full_save)) /\
  (forall rec o,
      load_attribute rec (saved_archive fuel x full_save) EmptyString o (att, spec)
      = OK (setattr att PNone o)) /\
  (forall fuel' y,
      load fuel' (Some (saved_archive fuel x full_save)) = OK y ->
      getattr att y = OK PNone).
Proof.
  intros Hsa Hnames Hin Hspec Hm Hout.
  destruct (valid_names_spec _ Hnames) as [Hnd Hdots].
  assert (~ In (att ++ "." ++ m)
            (namelist (saved_archive fuel x full_save))) as Hnot
    by now apply left_out_not_written with sa spec full_only.
  assert (forall rec o,
             load_attribute rec (saved_archive fuel x full_save) EmptyString o
               (att, spec) = OK (setattr att PNone o)) as Hstep.
  { intros rec o. now apply load_attribute_absent with m full_only. }
  split; [exact Hnot | split; [exact Hstep|]].
  intros fuel' y Hload. cbn [load] in Hload.
  destruct (load_zip_config _ _ _ _ Hload)
    as (f & k1 & k2 & cls' & sa' & _ & Hcfg & Hattrs).
  destruct x as [| | | | | | | | |cls fields]; try discriminate.
  destruct fuel as [|fuel]; [discriminate|].
  cbn [_append_folder] in Hcfg. unfold _load_pickle in Hcfg.
  rewrite (saved_config fuel full_save cls fields _ Hsa) in Hcfg.
  cbn [rbind pickle_load] in Hcfg. injection Hcfg as _ _ <- <-.
  now apply (load_attributes_get _ _ _ att spec PNone sa _ _ _ Hattrs).
Qed.

(** A well-formed object is saved and loaded back without an error. *)
Lemma well_formed_round_trip fuel full_save x :
  well_formed fuel full_save x = true ->
  save fuel x full_save = ((x, saved_archive fuel x full_save), OK tt) /\
  exists y, load fuel (Some (saved_archive fuel x full_save)) = OK y.
Proof.
  intros Hwf. destruct (save_then_load fuel full_save x Hwf) as [Hsave Hload].
  split; [rewrite save_eq; now rewrite Hsave | eauto].
Qed.

Lemma load_declared fuel zip_file y k1 k2 ty sa att spec :
  load fuel (Some zip_file) = OK y ->
  _load_pickle zip_file "config" = OK (PDict [(k1, ty); (k2, PDict sa)]) ->
  In (att, spec) sa ->
  exists fuel' o o',
    fuel = S fuel' /\
    load_attribute (load_zip fuel') zip_file EmptyString o (att, spec) = OK o'.
Proof.
  intros Hload Hcfg Hin. cbn [load] in Hload.
  destruct (load_zip_config _ _ _ _ Hload)
    as (f & k1' & k2' & cls & sa' & -> & Hcfg' & Hattrs).
  cbn [_append_folder] in Hcfg'. rewrite Hcfg in Hcfg'.
  injection Hcfg' as _ _ _ <-.
  destruct (load_attributes_completed _ _ _ _ _ _ Hattrs _ Hin)
    as (o & o' & Hstep).
  now exists f, o, o'.
Qed.

(* ------------------------------------------------------------------ *)
(** ** The claims *)

(** C1, as the code has it.  A codec of the class and a present value are
    not enough for a round trip.  Counterexample: [example_mistyped]
    declares [_weights] under the codec ["json"], which the class has, and
    holds an array for it; [json.dumps] rejects the array, the save with
    [full_save=True] raises [TypeError] and leaves the entry of the
    attribute unfinished, and the object is not well formed. *)
Lemma round_trip_needs_kind :
  is_class_codec "json" = true /\
  getattr "_weights" example_mistyped = OK (PArray [3] [1; 2; 3]%Z) /\
  well_formed 2 true example_mistyped = false /\
  save 2 example_mistyped true
  = ((example_mistyped,
      [("config",
        BPickle
          (PDict
             [("type", PClass "Regressor");
              ("save_attributes",
               PDict [("_save_attributes", PStr "json");
                      ("_weights", PStr "json")])]));
       ("_save_attributes.json",
        BJson
          (PDict [("_save_attributes", PStr "json");
                  ("_weights", PStr "json")]));
       ("_weights.json", BTruncated)]),
     Raise TypeError).
Proof. repeat split; reflexivity. Qed.

(** C1, amended.  Round trip of a full save.  For every serializable
    object [x] that is well formed for a full save (declared names distinct
    and free of dots; every declared attribute that holds a value holds one
    of the kind its codec encodes: an array under ["numpy"], a value
    [json.dumps] accepts under ["json"], any value under ["pickle"] and
    ["torch"], a well-formed object under the nested-object codec; no
    instance attribute hides the save method of a codec in use; an
    attribute under the nested-object codec holds an object), [save] with
    [full_save=True] ends well and [load] of the archive returns an object
    of the same class in which every declared attribute is equal to the one
    of [x]; an attribute under the nested-object codec is compared in the
    same way, attribute by attribute.  An attribute under a codec other
    than the nested-object one may hold [None], and then comes back as
    [None]. *)
Theorem round_trip_full_save fuel x :
  well_formed fuel true x = true ->
  exists z y,
    save fuel x true = ((x, z), OK tt) /\
    load fuel (Some z) = OK y /\
    same_state x y.
Proof.
  intros Hwf. destruct (save_then_load fuel true x Hwf) as [Hsave Hload].
  exists (saved_archive fuel x true), (reloaded fuel true x).
  split; [|split].
  - rewrite save_eq. now rewrite Hsave.
  - exact Hload.
  - now apply reloaded_same_state.
Qed.

Lemma round_trip_full_save_witness :
  well_formed 2 true example_agent = true /\
  exists z y,
    save 2 example_agent true = ((example_agent, z), OK tt) /\
    load 2 (Some z) = OK y /\
    same_state example_agent y.
Proof.
  split; [reflexivity|].
  apply (round_trip_full_save 2 example_agent). reflexivity.
Defined.

(** C2, as the code has it.  The config entry is not JSON text: the code
    writes it with [_save_pickle], and the class it records is not
    JSON-representable.  Counterexample: the archive of [example_regressor]
    holds a pickle under ["config"], [json.dumps] rejects the config data,
    and a load of an archive whose config entry is JSON text raises. *)
Lemma config_entry_is_not_json :
  zip_open (saved_archive 2 example_regressor true) "config"
  = OK (BPickle
          (PDict
             [("type", PClass "Regressor");
              ("save_attributes",
               PDict [("_save_attributes", PStr "json");
                      ("_weights", PStr "numpy")])])) /\
  json_dumps
    (PDict
       [("type", PClass "Regressor");
        ("save_attributes",
         PDict [("_save_attributes", PStr "json");
                ("_weights", PStr "numpy")])])
  = Raise TypeError /\
  load 2
    (Some
       [("config",
         BJson
           (PDict
              [("type", PStr "Regressor");
               ("save_attributes",
                PDict [("_save_attributes", PStr "json")])]))])
  = Raise UnpicklingError.
Proof. repeat split; reflexivity. Qed.

(** C2, amended.  For every save of an object that has a
    declared-attributes mapping, the archive's config entry is the pickle
    of the concrete type together with that mapping; every load reads the
    config entry back with the pickle codec before it restores any
    attribute: a load whose read of the config entry raises, raises the
    same error, and a load that returns has read a class and a mapping
    from it. *)
Theorem config_entry_is_pickled fuel full_save cls fields sav :
  getattr "_save_attributes" (PObject cls fields) = OK sav ->
  zip_open (saved_archive (S fuel) (PObject cls fields) full_save) "config"
  = OK (BPickle (PDict [("type", PClass cls); ("save_attributes", sav)])) /\
  (forall fuel' zip_file err,
      _load_pickle zip_file "config" = Raise err ->
      load (S fuel') (Some zip_file) = Raise err) /\
  (forall fuel' zip_file y,
      load fuel' (Some zip_file) = OK y ->
      exists k1 k2 cls' sa,
        _load_pickle zip_file "config"
        = OK (PDict [(k1, PClass cls'); (k2, PDict sa)])).
Proof.
  intros Hsa. split; [|split].
  - now apply saved_config.
  - intros fuel' zip_file err Herr. cbn [load load_zip].
    unfold load_zip_body. cbn [_append_folder]. now rewrite Herr.
  - intros fuel' zip_file y Hload. cbn [load] in Hload.
    destruct (load_zip_config _ _ _ _ Hload)
      as (f & k1 & k2 & cls' & sa & _ & Hcfg & _).
    now exists k1, k2, cls', sa.
Qed.

Lemma config_entry_is_pickled_witness :
  getattr "_save_attributes" example_regressor
  = OK (PDict [("_save_attributes", PStr "json"); ("_weights", PStr "numpy")])
  /\
  zip_open (saved_archive 2 example_regressor false) "config"
  = OK (BPickle
          (PDict
             [("type", PClass "Regressor");
              ("save_attributes",
               PDict [("_save_attributes", PStr "json");
                      ("_weights", PStr "numpy")])])).
Proof.
  split; [reflexivity|].
  apply (config_entry_is_pickled 1 false "Regressor"
           [("_save_attributes",
             PDict [("_save_attributes", PStr "json");
                    ("_weights", PStr "numpy")]);
            ("_weights", PArray [3] [1; 2; 3]%Z)]).
  reflexivity.
Defined.

(** C3, as the code has it.  Counterexample: [example_replay] declares
    its nested object for full saves only; a save with [full_save=False]
    ends well and writes nothing for it, and the load of that archive
    raises [KeyError] where the claim has it return the object with the
    attribute set to [None]. *)
Lemma full_save_only_nested_not_reloaded :
  codec_of (PStr "mushroom!") = Some ("mushroom", true) /\
  save 2 example_replay false
  = ((example_replay,
      [("config",
        BPickle
          (PDict
             [("type", PClass "DQN");
              ("save_attributes",
               PDict [("_save_attributes", PStr "json");
                      ("_replay_memory", PStr "mushroom!")])]));
       ("_save_attributes.json",
        BJson
          (PDict [("_save_attributes", PStr "json");
                  ("_replay_memory", PStr "mushroom!")]))]),
     OK tt) /\
  load 2 (Some (saved_archive 2 example_replay false)) = Raise KeyError.
Proof. repeat split; reflexivity. Qed.

(** C3, amended.  For every serializable object whose declared names are
    distinct and free of dots, and every attribute declared with the
    full-save-only flag.  Under a codec other than the nested-object one:
    a save with [full_save=False] writes no entry for the attribute; the
    step of the attribute in a load of that archive assigns [None] and
    does not raise, whatever the load has built so far; hence every load
    of that archive that returns yields the attribute equal to [None]; and
    when the object is well formed for a partial save, the save and the
    load do return.  (A load of the archive may still raise at the step of
    another attribute, as it does next to a left-out nested object.)  When
    the object is well formed for a full save,
    [load(save(x, full_save=True))] returns and yields the attribute equal
    to its value in [x], a nested object being compared attribute by
    attribute. *)
Theorem full_save_only_round_trip fuel x sa att spec m :
  getattr "_save_attributes" x = OK (PDict sa) ->
  valid_names sa = true ->
  In (att, spec) sa ->
  codec_of spec = Some (m, true) ->
  (m <> "mushroom" ->
   ~ In (att ++ "." ++ m) (namelist (saved_archive fuel x false)) /\
   (forall rec loaded_object,
       load_attribute rec (saved_archive fuel x false) EmptyString
         loaded_object (att, spec)
       = OK (setattr att PNone loaded_object)) /\
   (forall fuel' y,
       load fuel' (Some (saved_archive fuel x false)) = OK y ->
       getattr att y = OK PNone) /\
   (well_formed fuel false x = true ->
    save fuel x false = ((x, saved_archive fuel x false), OK tt) /\
    exists y, load fuel (Some (saved_archive fuel x false)) = OK y)) /\
  (well_formed fuel true x = true ->
   exists z y,
     save fuel x true = ((x, z), OK tt) /\
     load fuel (Some z) = OK y /\
     (m <> "mushroom" -> getattr att y = OK (declared_value att x)) /\
     (m = "mushroom" ->
      exists v', getattr att y = OK v' /\
                 same_state (declared_value att x) v')).
Proof.
  intros Hsa Hnames Hin Hspec. split.
  - intros Hm.
    destruct (left_out_loaded fuel false x sa att spec m true Hsa Hnames Hin
                Hspec Hm eq_refl) as (Hnot & Hstep & Hload).
    split; [exact Hnot | split; [exact Hstep | split; [exact Hload|]]].
    apply well_formed_round_trip.
  - intros Hwf.
    destruct (save_then_load fuel true x Hwf) as [Hsave Hload].
    exists (saved_archive fuel x true), (reloaded fuel true x).
    split; [rewrite save_eq; now rewrite Hsave|].
    split; [exact Hload|].
    pose proof (reloaded_same_state fuel x Hwf) as Hsame.
    inversion Hsame as [cls fields fields' sa' Hsa' Hplain Hnested Hx Hy].
    subst x. cbn [getattr] in Hsa. rewrite Hsa' in Hsa. injection Hsa as ->.
    split.
    + intros Hm. now apply (Hplain att spec m true).
    + intros ->. now apply (Hnested att spec true).
Qed.

Lemma full_save_only_round_trip_witness :
  (exists y,
      load 2 (Some (saved_archive 2 example_agent false)) = OK y /\
      getattr "_buffer" y = OK PNone) /\
  (exists z y,
      save 2 example_agent true = ((example_agent, z), OK tt) /\
      load 2 (Some z) = OK y /\
      getattr "_buffer" y = OK (PArray [3] [1; 2; 3]%Z)).
Proof.
  destruct (full_save_only_round_trip 2 example_agent
              [("_save_attributes", PStr "json");
               ("_network", PStr "torch");
               ("_config", PStr "json");
               ("_buffer", PStr "numpy!");
               ("approximator", PStr "mushroom");
               ("_policy", PStr "pickle")]
              "_buffer" (PStr "numpy!") "numpy")
    as [Hpartial Hfull].
  - reflexivity.
  - reflexivity.
  - simpl. tauto.
  - reflexivity.
  - split.
    + destruct Hpartial as (_ & _ & Hnone & Hends); [discriminate|].
      destruct Hends as [_ [y Hy]]; [reflexivity|].
      exists y. split; [exact Hy | exact (Hnone 2 y Hy)].
    + destruct Hfull as (z & y & Hsave & Hload & Hplain & _); [reflexivity|].
      exists z, y. split; [exact Hsave | split; [exact Hload|]].
      apply Hplain. discriminate.
Defined.

(** C4, as the code has it.  A nested object is not always written.
    Counterexample: [example_orphan] declares a nested object and holds
    [None] for it; the save ends well and the archive has the two entries
    of the object itself and nothing under ["approximator.mushroom"]. *)
Lemma absent_nested_not_written :
  codec_of (PStr "mushroom") = Some ("mushroom", false) /\
  getattr "approximator" example_orphan = OK PNone /\
  save 2 example_orphan true
  = ((example_orphan,
      [("config",
        BPickle
          (PDict
             [("type", PClass "BatchTD");
              ("save_attributes",
               PDict [("_save_attributes", PStr "json");
                      ("approximator", PStr "mushroom")])]));
       ("_save_attributes.json",
        BJson
          (PDict [("_save_attributes", PStr "json");
                  ("approximator", PStr "mushroom")]))]),
     OK tt).
Proof. repeat split; reflexivity. Qed.

(** C4, amended.  For every declared nested-object attribute: a save that
    ends well has written the sub-archive of the attribute, starting with
    its config entry, when the attribute holds a value and is not left out
    by the full-save-only flag; a load recurses at the corresponding
    sub-path whatever the archive lists; and if the config entry of the
    sub-archive is missing, the step of the load for the attribute raises
    [KeyError], and the load of an archive whose config declares the
    attribute raises an error and does not assign [None]. *)
Theorem nested_object_mandatory x sa att spec full_only :
  getattr "_save_attributes" x = OK (PDict sa) ->
  In (att, spec) sa ->
  codec_of spec = Some ("mushroom", full_only) ->
  let sub_config := _append_folder (att ++ ".mushroom") "config" in
  (forall fuel full_save,
      left_out full_save full_only (declared_value att x) = false ->
      snd (save fuel x full_save) = OK tt ->
      In sub_config (namelist (saved_archive fuel x full_save))) /\
  (forall fuel zip_file folder loaded_object,
      load_attribute (load_zip fuel) zip_file folder loaded_object (att, spec)
      = try att_val <-
          load_zip fuel zip_file (_append_folder folder (att ++ ".mushroom"));
        OK (setattr att att_val loaded_object)) /\
  (forall fuel zip_file folder loaded_object,
      ~ In (_append_folder (_append_folder folder (att ++ ".mushroom"))
              "config") (namelist zip_file) ->
      load_attribute (load_zip (S fuel)) zip_file folder loaded_object
        (att, spec)
      = Raise KeyError) /\
  (forall fuel zip_file k1 k2 ty,
      _load_pickle zip_file "config" = OK (PDict [(k1, ty); (k2, PDict sa)]) ->
      ~ In sub_config (namelist zip_file) ->
      exists err, load fuel (Some zip_file) = Raise err).
Proof.
  intros Hsa Hin Hspec sub_config. split; [|split; [|split]].
  - intros fuel full_save Hout Hok.
    destruct (save_completed _ _ _ _ _ _ Hok Hsa Hin)
      as (fuel' & e & -> & Hstep & Hincl).
    destruct (hasattr ("_save_" ++ "mushroom") x) eqn:Hshadow.
    { pose proof (save_attribute_shadowed (save_zip fuel') full_save EmptyString x att
                    spec "mushroom" full_only Hspec Hout Hshadow) as Hraise.
      destruct (runs_to_fun _ _ _ _ _ _ Hstep Hraise) as [_ E].
      discriminate E. }
    destruct (save_zip_writes_under fuel' full_save
                (_append_folder EmptyString (att ++ "." ++ "mushroom"))
                (declared_value att x)) as (e' & r' & Hrec & _).
    pose proof (save_attribute_nested (save_zip fuel') full_save EmptyString x att
                  spec "mushroom" full_only Hspec e' r' eq_refl Hout Hshadow
                  Hrec) as Hstep'.
    destruct (runs_to_fun _ _ _ _ _ _ Hstep Hstep') as [-> <-].
    apply (incl_map fst) in Hincl. apply Hincl.
    apply (save_zip_ok_config _ _ _ _ _ Hrec).
  - intros fuel zip_file folder loaded_object.
    now apply load_attribute_nested with full_only.
  - intros fuel zip_file folder loaded_object Hmissing.
    rewrite load_attribute_nested with (m := "mushroom")
                                       (full_only := full_only) by auto.
    cbn [load_zip]. unfold load_zip_body, _load_pickle.
    change (att ++ "." ++ "mushroom") with (att ++ ".mushroom").
    now rewrite (zip_open_missing _ _ Hmissing).
  - intros fuel zip_file k1 k2 ty Hcfg Hmissing.
    destruct (load fuel (Some zip_file)) as [y|err] eqn:Hload;
      [|now exists err].
    exfalso. apply Hmissing.
    destruct (load_declared _ _ _ _ _ _ _ _ _ Hload Hcfg Hin)
      as (fuel' & o & o' & _ & Hstep).
    rewrite load_attribute_nested with (m := "mushroom")
                                       (full_only := full_only)
      in Hstep by auto.
    destruct (load_zip fuel' zip_file
                (_append_folder EmptyString (att ++ "." ++ "mushroom")))
      as [v|] eqn:Hrec; [|discriminate].
    destruct (load_zip_config _ _ _ _ Hrec)
      as (f & k1' & k2' & cls & sa' & _ & Hcfg' & _).
    apply (load_pickle_found _ _ _ Hcfg').
Qed.

Lemma nested_object_mandatory_witness :
  In "approximator.mushroom/config"
    (namelist (saved_archive 2 example_agent false)) /\
  exists err,
    load 2 (Some (saved_archive 2 example_orphan true)) = Raise err.
Proof.
  destruct (nested_object_mandatory example_agent
              [("_save_attributes", PStr "json");
               ("_network", PStr "torch");
               ("_config", PStr "json");
               ("_buffer", PStr "numpy!");
               ("approximator", PStr "mushroom");
               ("_policy", PStr "pickle")]
              "approximator" (PStr "mushroom") false)
    as (Hsave & _ & _ & _).
  - reflexivity.
  - simpl. tauto.
  - reflexivity.
  - split; [apply (Hsave 2 false); reflexivity|].
    destruct (nested_object_mandatory example_orphan
                [("_save_attributes", PStr "json");
                 ("approximator", PStr "mushroom")]
                "approximator" (PStr "mushroom") false)
      as (_ & _ & _ & Hload).
    + reflexivity.
    + simpl. tauto.
    + reflexivity.
    + apply (Hload 2 (saved_archive 2 example_orphan true)
               "type" "save_attributes" (PClass "BatchTD")).
      * reflexivity.
      * simpl. intros [H|[H|[]]]; discriminate H.
Defined.

(** C5, as the code has it.  An attribute with an unregistered codec name
    is skipped in silence when it holds [None].  Counterexample:
    [example_fresh] declares [_next_q] under the codec ["hdf5"], which the
    class does not have, and holds [None] for it; the save ends well, the
    load of the archive ends well, and the attribute comes back as
    [None]. *)
Lemma unregistered_codec_skipped :
  is_class_codec "hdf5" = false /\
  snd (save 1 example_fresh true) = OK tt /\
  load 1 (Some (saved_archive 1 example_fresh true))
  = OK (PObject "FQI"
          [("_save_attributes",
            PDict [("_save_attributes", PStr "json");
                   ("_target", PStr "numpy");
                   ("_idx", PStr "json");
                   ("_next_q", PStr "hdf5")]);
           ("_target", PNone);
           ("_idx", PNone);
           ("_next_q", PNone)]).
Proof. repeat split; reflexivity. Qed.

(** C5, amended.  For every object with a declared attribute whose codec
    name the class has no methods for: a save raises an error when the
    attribute holds a value and is not left out by the full-save-only flag
    ([NotImplementedError] at the step of the attribute, unless an instance
    attribute hides the method name), and a load raises an error when the
    archive lists an entry for the attribute.  An attribute that a save
    leaves out, because it holds [None] or is kept for full saves only, is
    skipped without an error: its step writes nothing and ends well; and
    an attribute without an entry in the archive is skipped without an
    error by a load: its step assigns [None] and ends well. *)
Theorem unregistered_codec_raises x sa att spec m full_only :
  getattr "_save_attributes" x = OK (PDict sa) ->
  In (att, spec) sa ->
  codec_of spec = Some (m, full_only) ->
  is_class_codec m = false ->
  (forall fuel full_save,
      left_out full_save full_only (declared_value att x) = false ->
      exists err, snd (save fuel x full_save) = Raise err) /\
  (forall rec full_save folder,
      left_out full_save full_only (declared_value att x) = false ->
      hasattr ("_save_" ++ m) x = false ->
      runs_to (save_attribute rec full_save folder (att, spec)) x []
        (Raise NotImplementedError)) /\
  (forall fuel zip_file k1 k2 ty,
      _load_pickle zip_file "config" = OK (PDict [(k1, ty); (k2, PDict sa)]) ->
      In (att ++ "." ++ m) (namelist zip_file) ->
      exists err, load fuel (Some zip_file) = Raise err) /\
  (forall rec full_save folder,
      left_out full_save full_only (declared_value att x) = true ->
      runs_to (save_attribute rec full_save folder (att, spec)) x []
        (OK tt)) /\
  (forall rec zip_file folder loaded_object,
      ~ In (_append_folder folder (att ++ "." ++ m)) (namelist zip_file) ->
      load_attribute rec zip_file folder loaded_object (att, spec)
      = OK (setattr att PNone loaded_object)).
Proof.
  intros Hsa Hin Hspec Hcodec.
  assert (forall rec full_save folder,
             left_out full_save full_only (declared_value att x) = false ->
             exists err,
               runs_to (save_attribute rec full_save folder (att, spec)) x []
                 (Raise err)) as Hstep.
  { intros rec full_save folder Hout.
    destruct (hasattr ("_save_" ++ m) x) eqn:Hshadow.
    - exists TypeError. now apply save_attribute_shadowed with m full_only.
    - exists NotImplementedError.
      apply save_attribute_not_implemented with m full_only; auto.
      unfold has_save_method. now rewrite Hcodec, Hshadow. }
  split; [|split; [|split; [|split]]].
  - intros fuel full_save Hout.
    destruct (snd (save fuel x full_save)) as [[]|err] eqn:Hsave;
      [|now exists err].
    exfalso.
    destruct (save_completed _ _ _ _ _ _ Hsave Hsa Hin)
      as (fuel' & e & _ & Hrun & _).
    destruct (Hstep (save_zip fuel') full_save EmptyString Hout) as (err & Hraise).
    destruct (runs_to_fun _ _ _ _ _ _ Hrun Hraise) as [_ E]. discriminate E.
  - intros rec full_save folder Hout Hshadow.
    apply save_attribute_not_implemented with m full_only; auto.
    unfold has_save_method. now rewrite Hcodec, Hshadow.
  - intros fuel zip_file k1 k2 ty Hcfg Hentry.
    destruct (load fuel (Some zip_file)) as [y|err] eqn:Hload;
      [|now exists err].
    exfalso.
    destruct (load_declared _ _ _ _ _ _ _ _ _ Hload Hcfg Hin)
      as (fuel' & o & o' & _ & Hrun).
    rewrite load_attribute_unfold with (m := m) (full_only := full_only)
      in Hrun by auto.
    change (pfx EmptyString ++ att ++ "." ++ m) with (att ++ "." ++ m) in Hrun.
    apply in_namelist_spec in Hentry. rewrite Hentry in Hrun.
    destruct (not_class_codec m Hcodec) as [_ Hnone].
    cbn [orb] in Hrun. now rewrite Hnone in Hrun.
  - intros rec full_save folder Hout.
    now apply save_attribute_left_out with m full_only.
  - intros rec zip_file folder loaded_object Hentry.
    destruct (not_class_codec m Hcodec) as [Hm _].
    apply (load_attribute_absent rec zip_file folder loaded_object att spec
             m full_only Hspec Hm).
    now rewrite <- append_folder_pfx.
Qed.

Lemma unregistered_codec_raises_witness :
  (exists err, snd (save 2 example_unknown false) = Raise err) /\
  (exists err,
      load 2
        (Some
           [("config",
             BPickle
               (PDict
                  [("type", PClass "FQI");
                   ("save_attributes",
                    PDict [("_save_attributes", PStr "json");
                           ("_q", PStr "hdf5")])]));
            ("_q.hdf5", BPickle (PInt 7))])
      = Raise err) /\
  load_attribute (load_zip 1) (saved_archive 2 example_unknown false)
    EmptyString (PObject "FQI" []) ("_q", PStr "hdf5")
  = OK (PObject "FQI" [("_q", PNone)]).
Proof.
  destruct (unregistered_codec_raises example_unknown
              [("_save_attributes", PStr "json"); ("_q", PStr "hdf5")]
              "_q" (PStr "hdf5") "hdf5" false)
    as (Hsave & _ & Hload & _ & Hskip).
  - reflexivity.
  - simpl. tauto.
  - reflexivity.
  - reflexivity.
  - split; [apply (Hsave 2 false); reflexivity|]. split.
    + apply (Hload 2 _ "type" "save_attributes" (PClass "FQI")).
      * reflexivity.
      * simpl. tauto.
    + apply (Hskip (load_zip 1) (saved_archive 2 example_unknown false)
               EmptyString (PObject "FQI" [])).
      simpl. intros [H|[H|[]]]; discriminate H.
Defined.

(** C6.  Optional attributes.  For every serializable object whose
    declared names are valid and every declared attribute under a codec
    other than the nested-object one whose value is [None] at save time:
    the save writes no entry for the attribute; on the archive, the step
    of the load for the attribute assigns [None] and does not raise; every
    load of the archive that returns yields the attribute equal to [None];
    and when the object is well formed the save and the load do end
    well. *)
Theorem absent_value_round_trip fuel full_save x sa att spec m full_only :
  getattr "_save_attributes" x = OK (PDict sa) ->
  valid_names sa = true ->
  In (att, spec) sa ->
  codec_of spec = Some (m, full_only) ->
  m <> "mushroom" ->
  getattr att x = OK PNone ->
  ~ In (att ++ "." ++ m) (namelist (saved_archive fuel x full_save)) /\
  (forall rec loaded_object,
      load_attribute rec (saved_archive fuel x full_save) EmptyString loaded_object
        (att, spec)
      = OK (setattr att PNone loaded_object)) /\
  (forall fuel' y,
      load fuel' (Some (saved_archive fuel x full_save)) = OK y ->
      getattr att y = OK PNone) /\
  (well_formed fuel full_save x = true ->
   save fuel x full_save = ((x, saved_archive fuel x full_save), OK tt) /\
   exists y, load fuel (Some (saved_archive fuel x full_save)) = OK y).
Proof.
  intros Hsa Hnames Hin Hspec Hm Hnone.
  assert (left_out full_save full_only (declared_value att x) = true)
    as Hout.
  { unfold left_out, declared_value. rewrite Hnone. apply orb_true_r. }
  destruct (left_out_loaded fuel full_save x sa att spec m full_only Hsa
              Hnames Hin Hspec Hm Hout) as (Hnot & Hstep & Hload).
  repeat split; auto; now apply well_formed_round_trip.
Qed.

Lemma absent_value_round_trip_witness :
  ~ In "_target.numpy" (namelist (saved_archive 1 example_fresh true)) /\
  save 1 example_fresh true
  = ((example_fresh, saved_archive 1 example_fresh true), OK tt) /\
  exists y,
    load 1 (Some (saved_archive 1 example_fresh true)) = OK y /\
    getattr "_target" y = OK PNone.
Proof.
  destruct (absent_value_round_trip 1 true example_fresh
              [("_save_attributes", PStr "json");
               ("_target", PStr "numpy");
               ("_idx", PStr "json");
               ("_next_q", PStr "hdf5")]
              "_target" (PStr "numpy") "numpy" false)
    as (Hnot & _ & Hnone & Hends).
  - reflexivity.
  - reflexivity.
  - simpl. tauto.
  - reflexivity.
  - discriminate.
  - reflexivity.
  - destruct Hends as [Hsave [y Hy]]; [reflexivity|].
    split; [exact Hnot | split; [exact Hsave|]].
    exists y. split; [exact Hy | exact (Hnone 1 y Hy)].
Defined.

(** C7.  A save leaves the object as it is: whatever the object, the flag
    and the outcome (also when the save raises), the object after the call
    is the object before it, and so is each of its attributes, its
    declared-attributes mapping among them. *)
Theorem save_leaves_self_unchanged fuel x full_save :
  fst (fst (save fuel x full_save)) = x /\
  forall att, getattr att (fst (fst (save fuel x full_save))) = getattr att x.
Proof.
  assert (fst (fst (save fuel x full_save)) = x) as H
    by now rewrite save_eq.
  split; [exact H | intros att; now rewrite H].
Qed.

(** C8, as the code has it.  Counterexample: [example_missing] declares a
    nested object that it does not hold; the save ends well and writes no
    entry for it, and the load of that archive raises [KeyError] where the
    claim has the attribute exist on the loaded object with [None]. *)
Lemma undeclared_nested_field_not_reloaded :
  hasattr "approximator" example_missing = false /\
  save 2 example_missing true
  = ((example_missing,
      [("config",
        BPickle
          (PDict
             [("type", PClass "BatchTD");
              ("save_attributes",
               PDict [("_save_attributes", PStr "json");
                      ("approximator", PStr "mushroom")])]));
       ("_save_attributes.json",
        BJson
          (PDict [("_save_attributes", PStr "json");
                  ("approximator", PStr "mushroom")]))]),
     OK tt) /\
  load 2 (Some (saved_archive 2 example_missing true)) = Raise KeyError.
Proof. repeat split; reflexivity. Qed.

(** C8, amended.  For every declared attribute name that the object does
    not possess as a field at save time, the save does what it does for a
    field that holds [None]: the step of the attribute writes no entry and
    raises no error, whatever the codec name, registered or not.  Under a
    codec other than the nested-object one, and with declared names that
    are distinct and free of dots: the archive has no entry for the
    attribute; the step of the attribute in a load of the archive assigns
    [None] and does not raise, whatever the load has built so far; hence
    every load of the archive that returns yields an object on which the
    attribute exists with the value [None]; and when the object is well
    formed the save and the load do return.  (A load of the archive may
    still raise at the step of another attribute, as it does next to a
    left-out nested object.) *)
Theorem missing_field_is_absent fuel full_save x sa att spec m full_only :
  getattr "_save_attributes" x = OK (PDict sa) ->
  In (att, spec) sa ->
  codec_of spec = Some (m, full_only) ->
  hasattr att x = false ->
  (forall rec folder,
      runs_to (save_attribute rec full_save folder (att, spec)) x []
        (OK tt)) /\
  (forall rec folder x',
      getattr att x' = OK PNone ->
      runs_to (save_attribute rec full_save folder (att, spec)) x' []
        (OK tt)) /\
  (m <> "mushroom" ->
   valid_names sa = true ->
   ~ In (att ++ "." ++ m) (namelist (saved_archive fuel x full_save)) /\
   (forall rec loaded_object,
       load_attribute rec (saved_archive fuel x full_save) EmptyString
         loaded_object (att, spec)
       = OK (setattr att PNone loaded_object)) /\
   (forall fuel' y,
       load fuel' (Some (saved_archive fuel x full_save)) = OK y ->
       getattr att y = OK PNone) /\
   (well_formed fuel full_save x = true ->
    save fuel x full_save = ((x, saved_archive fuel x full_save), OK tt) /\
    exists y, load fuel (Some (saved_archive fuel x full_save)) = OK y)).
Proof.
  intros Hsa Hin Hspec Hhas.
  assert (declared_value att x = PNone) as Hnone.
  { unfold declared_value, getattr. unfold hasattr in Hhas.
    destruct x; try reflexivity.
    destruct (assoc_get att fields); [discriminate | reflexivity]. }
  assert (left_out full_save full_only (declared_value att x) = true)
    as Hout.
  { unfold left_out. rewrite Hnone. apply orb_true_r. }
  split; [|split].
  - intros rec folder. now apply save_attribute_left_out with m full_only.
  - intros rec folder x' Hx'.
    apply save_attribute_left_out with m full_only; auto.
    unfold left_out, declared_value. rewrite Hx'. apply orb_true_r.
  - intros Hm Hnames.
    destruct (left_out_loaded fuel full_save x sa att spec m full_only Hsa
                Hnames Hin Hspec Hm Hout) as (Hnot & Hstep & Hload).
    split; [exact Hnot | split; [exact Hstep | split; [exact Hload|]]].
    apply well_formed_round_trip.
Qed.

Lemma missing_field_is_absent_witness :
  runs_to (save_attribute (save_zip 0) false EmptyString ("_idx", PStr "json"))
    example_fresh [] (OK tt) /\
  ~ In "_idx.json" (namelist (saved_archive 1 example_fresh false)) /\
  exists y,
    load 1 (Some (saved_archive 1 example_fresh false)) = OK y /\
    getattr "_idx" y = OK PNone.
Proof.
  destruct (missing_field_is_absent 1 false example_fresh
              [("_save_attributes", PStr "json");
               ("_target", PStr "numpy");
               ("_idx", PStr "json");
               ("_next_q", PStr "hdf5")]
              "_idx" (PStr "json") "json" false)
    as (Hstep & _ & Hround).
  - reflexivity.
  - simpl. tauto.
  - reflexivity.
  - reflexivity.
  - destruct Hround as (Hnot & _ & Hnone & Hends);
      [discriminate | reflexivity |].
    destruct Hends as [_ [y Hy]]; [reflexivity|].
    split; [apply Hstep | split; [exact Hnot|]].
    exists y. split; [exact Hy | exact (Hnone 1 y Hy)].
Defined.

(** C9.  Declarations only add.  After a non-empty sequence of calls of
    [_add_save_attr] on an object that has no mapping yet, or whose mapping
    holds the reserved key, every call has ended well and the mapping holds
    the reserved key ["_save_attributes"]; on an object without a mapping
    the first call seeds the mapping with that key under the codec
    ["json"] before it merges its own pairs.  A call on an object with a
    mapping keeps every key of the mapping, and keeps the codec spec of
    every key it is not given. *)
Theorem declarations_only_add cls fields first calls :
  (assoc_get "_save_attributes" fields = None \/
   exists d,
     assoc_get "_save_attributes" fields = Some (PDict d) /\
     In "_save_attributes" (keys d)) ->
  (exists self' d,
      for_each (first :: calls) _add_save_attr (PObject cls fields)
      = (self', OK tt) /\
      getattr "_save_attributes" self' = OK (PDict d) /\
      In "_save_attributes" (keys d)) /\
  (assoc_get "_save_attributes" fields = None ->
   exists self1,
     _add_save_attr first (PObject cls fields) = (self1, OK tt) /\
     getattr "_save_attributes" self1
     = OK (PDict (assoc_update [("_save_attributes", PStr "json")] first)))
  /\
  (forall cls' fields' d attr_dict,
      assoc_get "_save_attributes" fields' = Some (PDict d) ->
      exists self' d',
        _add_save_attr attr_dict (PObject cls' fields') = (self', OK tt) /\
        getattr "_save_attributes" self' = OK (PDict d') /\
        (forall k, In k (keys d) -> In k (keys d')) /\
        (forall k, ~ In k (keys attr_dict) ->
                   assoc_get k d' = assoc_get k d)).
Proof.
  intros Hstart. split; [|split].
  - assert (exists self1,
               _add_save_attr first (PObject cls fields) = (self1, OK tt) /\
               reserved_key_kept self1) as (self1 & Hfirst & Hkept).
    { destruct Hstart as [Hfresh|(d & Hd & Hkey)].
      - rewrite (add_save_attr_fresh cls fields first Hfresh).
        eexists. split; [reflexivity|]. eexists cls, _, _.
        split; [reflexivity|].
        split; [apply assoc_get_set_eq|].
        apply keys_assoc_update. now left.
      - apply add_save_attr_keeps. now exists cls, fields, d. }
    destruct (declarations_keep calls _ Hkept) as (self' & Hrun & Hkept').
    destruct Hkept' as (cls' & fields' & d & -> & Hd & Hkey).
    exists (PObject cls' fields'), d. split; [|split].
    + cbn [for_each]. unfold bind. now rewrite Hfirst.
    + cbn [getattr]. now rewrite Hd.
    + exact Hkey.
  - intros Hfresh. rewrite (add_save_attr_fresh cls fields first Hfresh).
    eexists. split; [reflexivity|].
    cbn [getattr]. now rewrite assoc_get_set_eq.
  - intros cls' fields' d attr_dict Hd.
    rewrite (add_save_attr_declared _ _ _ _ Hd).
    eexists _, _. split; [reflexivity|]. split; [|split].
    + cbn [getattr]. now rewrite assoc_get_set_eq.
    + intros k. apply keys_assoc_update.
    + intros k. apply assoc_update_other.
Qed.

Lemma declarations_only_add_witness :
  exists self' d,
    for_each [[("approximator", PStr "mushroom")];
              [("_target", PStr "numpy"); ("approximator", PStr "pickle")]]
      _add_save_attr (PObject "FQI" [])
    = (self', OK tt) /\
    getattr "_save_attributes" self' = OK (PDict d) /\
    In "_save_attributes" (keys d).
Proof.
  apply (declarations_only_add "FQI" []
           [("approximator", PStr "mushroom")]
           [[("_target", PStr "numpy"); ("approximator", PStr "pickle")]]).
  left. reflexivity.
Defined.

(** C10.  Save and load agree on entry names.  Both read a codec spec by
    stripping one trailing full-save-only marker, so a spec [m!] names the
    codec [m].  For every declared attribute that holds a value of the
    kind of its codec, a save with [full_save=True] writes the attribute
    under [<folder>/<att>.<m>], and a load finds the attribute under that
    very name and restores the value; a nested object is written under,
    and read from, the folder of that name.  Every entry name of an
    archive that a save produces is made of attribute names and of method
    names of the class, which carry no marker, and none ends with the
    marker. *)
Theorem entry_names_agree x att spec m full_only :
  codec_of spec = Some (m, full_only) ->
  is_None (declared_value att x) = false ->
  hasattr ("_save_" ++ m) x = false ->
  (forall method, codec_of (PStr (method ++ "!")) = Some (method, true)) /\
  (forall save_rec load_rec folder,
      codec_accepts m (declared_value att x) = true ->
      let file_name := _append_folder folder (att ++ "." ++ m) in
      runs_to (save_attribute save_rec true folder (att, spec)) x
        [(file_name, encoded m (declared_value att x))] (OK tt) /\
      forall zip_file loaded_object,
        zip_open zip_file file_name = OK (encoded m (declared_value att x)) ->
        load_attribute load_rec zip_file folder loaded_object (att, spec)
        = OK (setattr att (declared_value att x) loaded_object)) /\
  (forall save_rec load_rec folder e r,
      m = "mushroom" ->
      let new_folder := _append_folder folder (att ++ "." ++ m) in
      runs_to (save_rec true new_folder) (declared_value att x) e r ->
      runs_to (save_attribute save_rec true folder (att, spec)) x e r /\
      forall zip_file loaded_object,
        load_attribute load_rec zip_file folder loaded_object (att, spec)
        = try att_val <- load_rec zip_file new_folder;
          OK (setattr att att_val loaded_object)) /\
  (forall fuel full_save n,
      In n (namelist (saved_archive fuel x full_save)) ->
      entry_name EmptyString n /\ last_char n <> Some bang).
Proof.
  intros Hspec Hnone Hshadow.
  assert (left_out true full_only (declared_value att x) = false) as Hout.
  { unfold left_out. rewrite Hnone. now rewrite andb_false_r. }
  split; [|split; [|split]].
  - intros method. unfold codec_of, strip_bang.
    change (method ++ "!") with (method ++ String bang EmptyString).
    rewrite last_char_append, drop_last_append. reflexivity.
  - intros save_rec load_rec folder Hacc file_name. subst file_name.
    rewrite append_folder_pfx. split.
    + now apply save_attribute_plain with full_only.
    + intros zip_file loaded_object Hopen.
      now apply load_attribute_plain with m full_only.
  - intros save_rec load_rec folder e r Hm new_folder Hrec. split.
    + now apply save_attribute_nested with m full_only.
    + intros zip_file loaded_object.
      now apply load_attribute_nested with full_only.
  - intros fuel full_save n Hn.
    destruct (save_zip_entry_names fuel full_save EmptyString x)
      as (e & r & Hrun & Hq).
    destruct (runs_to_fun _ _ _ _ _ _ Hrun
                (saved_archive_runs fuel x full_save)) as [-> _].
    rewrite Forall_forall in Hq. specialize (Hq _ Hn).
    split; [exact Hq | now apply entry_name_no_marker with EmptyString].
Qed.

Lemma entry_names_agree_witness :
  runs_to (save_attribute (save_zip 1) true EmptyString ("_buffer", PStr "numpy!"))
    example_agent
    [("_buffer.numpy", BNpy (PArray [3] [1; 2; 3]%Z))] (OK tt) /\
  load_attribute (load_zip 1) (saved_archive 2 example_agent true) EmptyString
    (PObject "FQI" []) ("_buffer", PStr "numpy!")
  = OK (PObject "FQI" [("_buffer", PArray [3] [1; 2; 3]%Z)]).
Proof.
  destruct (entry_names_agree example_agent "_buffer" (PStr "numpy!")
              "numpy" true) as (_ & Hplain & _).
  - reflexivity.
  - reflexivity.
  - reflexivity.
  - destruct (Hplain (save_zip 1) (load_zip 1) EmptyString) as [Hsave Hload].
    + reflexivity.
    + split; [exact Hsave|].
      apply (Hload (saved_archive 2 example_agent true) (PObject "FQI" [])).
      reflexivity.
Defined.

(* ------------------------------------------------------------------ *)
(** ** The step of an attribute, in full *)

Lemma codec_of_none spec :
  codec_of spec = None ->
  as_str spec = Raise Unmodelled \/ spec = PStr EmptyString.
Proof.
  destruct spec; try (now left). simpl.
  destruct s as [|c s]; [now right|].
  destruct (last_char (String c s)) eqn:E; [discriminate|].
  exfalso. revert c E. induction s as [|c' s IH]; intros c E.
  - discriminate.
  - simpl in E. now apply (IH c').
Qed.

Lemma save_attribute_unreadable rec full_save folder att spec self :
  codec_of spec = None ->
  runs_to (save_attribute rec full_save folder (att, spec)) self []
    (Raise (spec_error spec)).
Proof.
  intros Hspec z. rewrite app_nil_r.
  destruct (codec_of_none _ Hspec) as [H| ->].
  - unfold save_attribute, bind, lift. rewrite H.
    destruct spec; try reflexivity. discriminate.
  - reflexivity.
Qed.

Lemma has_save_method_plain m self :
  is_plain_codec m = true -> has_save_method m self = true.
Proof.
  unfold is_plain_codec, has_save_method, is_class_codec. simpl.
  destruct (String.eqb m "pickle"), (String.eqb m "numpy"),
    (String.eqb m "torch"), (String.eqb m "json"); simpl;
    try reflexivity; discriminate.
Qed.

Lemma call_save_method_plain rec att m v full_save folder self z :
  hasattr ("_save_" ++ m) self = false ->
  is_plain_codec m = true ->
  call_save_method rec att m (att ++ "." ++ m) v full_save folder (self, z)
  = on_zip (zip_write (_append_folder folder (att ++ "." ++ m)) (encoder m v))
      (self, z).
Proof.
  intros Hshadow Hplain.
  unfold call_save_method, bind, read_self. cbn [fst]. rewrite Hshadow.
  unfold encoder, _save_pickle, _save_numpy, _save_torch, _save_json.
  unfold is_plain_codec in Hplain. simpl in Hplain.
  destruct (String.eqb_spec m "pickle") as [->|_]; [reflexivity|].
  destruct (String.eqb_spec m "numpy") as [->|_]; [reflexivity|].
  destruct (String.eqb_spec m "torch") as [->|_]; [reflexivity|].
  destruct (String.eqb_spec m "json") as [->|_]; [reflexivity|].
  discriminate.
Qed.

Lemma call_save_method_nested rec att v full_save folder self z :
  hasattr ("_save_" ++ "mushroom") self = false ->
  call_save_method rec att "mushroom" (att ++ "." ++ "mushroom") v full_save
    folder (self, z)
  = on_attribute att v
      (rec full_save (_append_folder folder (att ++ "." ++ "mushroom")))
      (self, z).
Proof.
  intros Hshadow. unfold call_save_method, bind, read_self. cbn [fst].
  now rewrite Hshadow.
Qed.

Lemma class_codec_cases m :
  is_class_codec m = true -> is_plain_codec m = true \/ m = "mushroom".
Proof.
  unfold is_class_codec, is_plain_codec. simpl.
  destruct (String.eqb m "pickle"), (String.eqb m "numpy"),
    (String.eqb m "torch"), (String.eqb m "json"); simpl; auto.
  destruct (String.eqb_spec m "mushroom"); [auto | discriminate].
Qed.

Lemma step_run_sound rec full_save folder self att spec e r :
  step_run rec full_save folder self att spec e r ->
  runs_to (save_attribute rec full_save folder (att, spec)) self e r.
Proof.
  intros H. destruct H.
  - now apply save_attribute_unreadable.
  - now apply save_attribute_left_out with m full_only.
  - now apply save_attribute_not_implemented with m full_only.
  - now apply save_attribute_shadowed with m full_only.
  - intros z.
    rewrite (save_attribute_written rec full_save folder self att spec m
               full_only) by (auto using has_save_method_plain).
    rewrite call_save_method_plain by assumption.
    match goal with H : encoder _ _ = _ |- _ => rewrite H end. reflexivity.
  - intros z.
    rewrite (save_attribute_written rec full_save folder self att spec m
               full_only) by (auto using has_save_method_plain).
    rewrite call_save_method_plain by assumption.
    match goal with H : encoder _ _ = _ |- _ => rewrite H end. reflexivity.
  - now apply save_attribute_nested with "mushroom" full_only.
Qed.

(** Every step goes one of these ways, provided the nested call only
    writes. *)
Lemma step_run_complete rec full_save folder self att spec :
  (forall fs fd v, writes (fun _ => True) (rec fs fd) v) ->
  exists e r, step_run rec full_save folder self att spec e r.
Proof.
  intros Hrec.
  destruct (codec_of spec) as [[m full_only]|] eqn:Hspec;
    [|eexists _, _; now apply step_unreadable].
  destruct (left_out full_save full_only (declared_value att self)) eqn:Hout;
    [eexists _, _; eapply step_left_out; eauto|].
  destruct (hasattr ("_save_" ++ m) self) eqn:Hshadow;
    [eexists _, _; eapply step_shadowed; eauto|].
  destruct (is_class_codec m) eqn:Hcodec.
  - destruct (class_codec_cases m Hcodec) as [Hplain| ->].
    + destruct (encoder m (declared_value att self)) as [b|err] eqn:Henc.
      * eexists _, _. eapply step_written; eauto.
      * eexists _, _. eapply step_truncated; eauto.
    + destruct (Hrec full_save (_append_folder folder (att ++ ".mushroom"))
                  (declared_value att self)) as (e & r & Hrun & _).
      exists e, r. now apply step_nested with full_only.
  - eexists _, _. eapply step_not_implemented; eauto.
    unfold has_save_method. now rewrite Hcodec, Hshadow.
Qed.

Lemma step_run_inv rec full_save folder self att spec e r :
  (forall fs fd v, writes (fun _ => True) (rec fs fd) v) ->
  runs_to (save_attribute rec full_save folder (att, spec)) self e r ->
  step_run rec full_save folder self att spec e r.
Proof.
  intros Hrec Hrun.
  destruct (step_run_complete rec full_save folder self att spec Hrec)
    as (e' & r' & Hstep).
  destruct (runs_to_fun _ _ _ _ _ _ Hrun (step_run_sound _ _ _ _ _ _ _ _ Hstep))
    as [-> ->].
  exact Hstep.
Qed.

Lemma save_zip_writes_only fuel fs fd v :
  writes (fun _ => True) (save_zip fuel fs fd) v.
Proof.
  eapply writes_weaken; [|apply save_zip_writes_under]. intros; exact I.
Qed.

(* ------------------------------------------------------------------ *)
(** ** Loops that raise *)

(** A loop that raises got the error from one of its iterations, after the
    iterations before it had ended well. *)
Lemma for_each_raised {S} (self : pyval) (body : S -> M world unit)
    (xs : list S) E err :
  runs_to (for_each xs body) self E (Raise err) ->
  (forall x, writes (fun _ => True) (body x) self) ->
  exists pre x post E1 e,
    xs = (pre ++ x :: post)%list /\
    runs_to (for_each pre body) self E1 (OK tt) /\
    runs_to (body x) self e (Raise err) /\
    E = (E1 ++ e)%list.
Proof.
  revert E. induction xs as [|x xs IH]; intros E Hrun Hw.
  - destruct (runs_to_fun _ _ _ _ _ _ Hrun (runs_ret self tt)) as [_ H].
    discriminate H.
  - simpl in Hrun. destruct (Hw x) as (e1 & [[]|err1] & H1 & _).
    + destruct (writes_for_each (fun _ => True) self body xs
                  (fun y _ => Hw y)) as (e2 & r2 & H2 & _).
      destruct (runs_to_fun _ _ _ _ _ _ Hrun
                  (runs_bind _ _ _ _ _ _ _ H1 H2)) as [-> <-].
      destruct (IH _ H2 Hw) as (pre & y & post & E1 & e & -> & Hpre & Hy & ->).
      exists (x :: pre), y, post, (e1 ++ E1)%list, e.
      split; [reflexivity|]. split; [|split; [exact Hy|]].
      * simpl. now apply runs_bind with tt.
      * now rewrite app_assoc.
    + destruct (runs_to_fun _ _ _ _ _ _ Hrun
                  (runs_bind_raise _ _ (fun _ => for_each xs body) _ _ H1))
        as [-> H]. injection H as ->.
      exists [], x, xs, [], e1.
      split; [reflexivity|]. split; [apply runs_ret|]. now split.
Qed.

(** A loop stops at the first iteration that raises. *)
Lemma for_each_stops {S} (self : pyval) (body : S -> M world unit)
    (pre : list S) x post E1 e err :
  (forall x, writes (fun _ => True) (body x) self) ->
  runs_to (for_each pre body) self E1 (OK tt) ->
  runs_to (body x) self e (Raise err) ->
  runs_to (for_each (pre ++ x :: post) body) self (E1 ++ e)%list (Raise err).
Proof.
  intros Hw. revert E1. induction pre as [|y pre IH]; intros E1 Hpre Hx.
  - destruct (runs_to_fun _ _ _ _ _ _ Hpre (runs_ret self tt)) as [-> _].
    simpl. now apply runs_bind_raise.
  - simpl in Hpre. destruct (Hw y) as (e1 & [[]|err1] & H1 & _).
    + destruct (writes_for_each (fun _ => True) self body pre
                  (fun y _ => Hw y)) as (e2 & r2 & H2 & _).
      destruct (runs_to_fun _ _ _ _ _ _ Hpre
                  (runs_bind _ _ _ _ _ _ _ H1 H2)) as [-> <-].
      rewrite <- app_assoc. simpl. apply runs_bind with tt; auto.
    + destruct (runs_to_fun _ _ _ _ _ _ Hpre
                  (runs_bind_raise _ _ (fun _ => for_each pre body) _ _ H1))
        as [_ H]. discriminate H.
Qed.

(** Two loop bodies that do the same on [self] make the same loop. *)
Lemma for_each_ext {S} (self : pyval) (body body' : S -> M world unit)
    (xs : list S) :
  (forall x, writes (fun _ => True) (body x) self) ->
  (forall x z, In x xs -> body' x (self, z) = body x (self, z)) ->
  forall z, for_each xs body' (self, z) = for_each xs body (self, z).
Proof.
  intros Hw. induction xs as [|x xs IH]; intros Heq z; [reflexivity|].
  simpl. unfold bind. rewrite Heq by now left.
  destruct (Hw x) as (e & r & Hrun & _). rewrite Hrun.
  destruct r as [[]|err]; [|reflexivity].
  apply IH. intros y z' Hy. apply Heq. now right.
Qed.

(* ------------------------------------------------------------------ *)
(** ** More on dictionaries *)

Lemma assoc_update_cons {A} (d e : list (string * A)) k v :
  assoc_update d ((k, v) :: e) = assoc_update (assoc_set k v d) e.
Proof. reflexivity. Qed.

(** [d.update(e)] gives every key of [e] the value [e] has for it. *)
Lemma assoc_update_get {A} (e : list (string * A)) :
  forall d k v,
    NoDup (keys e) -> In (k, v) e -> assoc_get k (assoc_update d e) = Some v.
Proof.
  induction e as [|[k0 v0] e IH]; intros d k v Hnd Hin; [destruct Hin|].
  rewrite assoc_update_cons. inversion Hnd as [|? ? Hnot Hnd']; subst.
  destruct Hin as [Heq|Hin].
  - injection Heq as -> ->.
    rewrite assoc_update_other by exact Hnot. apply assoc_get_set_eq.
  - now apply IH.
Qed.

(** Updating with pairs the dict already holds changes nothing. *)
Lemma assoc_update_same {A} (e : list (string * A)) :
  forall d,
    (forall k v, In (k, v) e -> assoc_get k d = Some v) ->
    assoc_update d e = d.
Proof.
  induction e as [|[k0 v0] e IH]; intros d Hd; [reflexivity|].
  rewrite assoc_update_cons.
  rewrite assoc_set_same by (apply Hd; now left).
  apply IH. intros k v Hin. apply Hd. now right.
Qed.

Lemma assoc_set_set {A} (k : string) (v v' : A) (d : list (string * A)) :
  assoc_set k v (assoc_set k v' d) = assoc_set k v d.
Proof.
  induction d as [|[k0 v0] d IH]; simpl.
  - now rewrite String.eqb_refl.
  - destruct (String.eqb k k0) eqn:E; simpl.
    + now rewrite String.eqb_refl.
    + now rewrite E, IH.
Qed.

Lemma hasattr_keys att cls fields :
  hasattr att (PObject cls fields) = true <-> In att (keys fields).
Proof.
  simpl. destruct (assoc_get att fields) eqn:E.
  - split; [intros _ | reflexivity].
    apply assoc_get_in in E. apply in_map_iff. now exists (att, p).
  - split; [discriminate|]. intros Hin. now apply assoc_get_none in E.
Qed.

(* ------------------------------------------------------------------ *)
(** ** The fields of a loaded object *)

Lemma load_attributes_fields rec zip_file folder items :
  forall cls fields y,
    load_attributes rec zip_file folder items (PObject cls fields) = OK y ->
    exists fields',
      y = PObject cls fields' /\
      forall k, In k (keys fields') <-> In k (keys fields) \/ In k (keys items).
Proof.
  induction items as [|[att spec] items IH]; intros cls fields y Hy.
  - injection Hy as <-. exists fields. split; [reflexivity|].
    intros k. simpl. tauto.
  - cbn [load_attributes] in Hy.
    destruct (load_attribute rec zip_file folder (PObject cls fields)
                (att, spec)) as [o|err] eqn:Hstep; [|discriminate].
    destruct (load_attribute_shape _ _ _ _ _ _ _ Hstep) as [v ->].
    cbn [rbind setattr] in Hy.
    destruct (IH _ _ _ Hy) as (fields' & -> & Hkeys).
    exists fields'. split; [reflexivity|].
    intros k. rewrite Hkeys, keys_assoc_set. simpl. intuition auto.
Qed.

(** A save on a value that is no object, or on an object without
    declarations, stops at once. *)
Lemma save_zip_body_undeclared rec full_save folder self :
  hasattr "_save_attributes" self = false ->
  runs_to (save_zip_body rec full_save folder) self [] (Raise AttributeError).
Proof.
  intros Hno z. rewrite app_nil_r.
  unfold save_zip_body, bind, read_self. cbn [fst].
  destruct self; try reflexivity.
  cbn [type_of getattr]. cbn [hasattr] in Hno.
  destruct (assoc_get "_save_attributes" fields); [discriminate|reflexivity].
Qed.

Lemma save_zip_undeclared fuel full_save folder self :
  hasattr "_save_attributes" self = false ->
  runs_to (save_zip (S fuel) full_save folder) self [] (Raise AttributeError).
Proof. apply save_zip_body_undeclared. Qed.

(* ------------------------------------------------------------------ *)
(** ** Steps that cannot end well *)

Lemma save_zip_not_object fuel full_save folder v :
  (forall cls fields, v <> PObject cls fields) ->
  exists err, runs_to (save_zip fuel full_save folder) v [] (Raise err).
Proof.
  intros Hv. destruct fuel as [|fuel].
  - exists RecursionError. intros z. now rewrite app_nil_r.
  - exists AttributeError. apply save_zip_undeclared.
    destruct v; try reflexivity. now destruct (Hv cls fields).
Qed.

Lemma load_attribute_unreadable rec zip_file folder o att :
  load_attribute rec zip_file folder o (att, PStr EmptyString)
  = Raise IndexError.
Proof. reflexivity. Qed.

(** The names a loop of steps writes belong to the attributes it went
    through. *)
Lemma steps_entries fuel full_save folder self items E r :
  runs_to (for_each items (save_attribute (save_zip fuel) full_save folder))
    self E r ->
  forall n, In n (namelist E) ->
    exists att, In att (keys items) /\ under_attribute folder att n.
Proof.
  intros Hrun n Hn.
  destruct (for_each_entries self _ items E r Hrun
              (fun item => save_attribute_writes_only fuel full_save folder
                             item self) n Hn)
    as ([att spec] & e & r' & Hin & Hstep & Hne).
  destruct (save_attribute_writes_under fuel full_save folder att spec self)
    as (e' & r'' & Hstep' & Hall).
  destruct (runs_to_fun _ _ _ _ _ _ Hstep Hstep') as [<- _].
  rewrite Forall_forall in Hall.
  exists att. split; [|now apply Hall].
  apply in_map_iff. now exists (att, spec).
Qed.

Lemma nodup_app_split {A} (l1 l2 : list A) x :
  NoDup (l1 ++ l2)%list -> In x l1 -> ~ In x l2.
Proof.
  induction l1 as [|a l1 IH]; intros Hnd Hin; [destruct Hin|].
  simpl in Hnd. inversion Hnd as [|? ? Hnot Hnd']; subst.
  destruct Hin as [->|Hin]; [|now apply IH].
  intros Hx. apply Hnot. apply in_or_app. now right.
Qed.

(* ------------------------------------------------------------------ *)
(** ** How deep a load goes *)

Lemma length_append (a b : string) :
  String.length (a ++ b) = String.length a + String.length b.
Proof. induction a as [|c a IH]; simpl; [reflexivity | now rewrite IH]. Qed.

Lemma length_append_folder (folder name : string) :
  String.length name <= String.length (_append_folder folder name) /\
  String.length folder + String.length name
  <= String.length (_append_folder folder name)
  <= String.length folder + String.length name + 1.
Proof.
  destruct folder as [|c folder]; [simpl; lia|].
  unfold _append_folder. rewrite !length_append. simpl. lia.
Qed.

Lemma filter_length_lt {A} (p q : A -> bool) (l : list A) x :
  (forall y, q y = true -> p y = true) ->
  In x l -> p x = true -> q x = false ->
  List.length (filter q l) < List.length (filter p l).
Proof.
  intros Hqp. induction l as [|y l IH]; intros Hin Hp Hq; [destruct Hin|].
  assert (List.length (filter q l) <= List.length (filter p l)) as Hle.
  { clear - Hqp. induction l as [|z l IHl]; simpl; [lia|].
    destruct (q z) eqn:Hz.
    - rewrite (Hqp z Hz). simpl. lia.
    - destruct (p z); simpl; lia. }
  simpl. destruct Hin as [->|Hin].
  - rewrite Hp, Hq. simpl. lia.
  - specialize (IH Hin Hp Hq). destruct (q y) eqn:Hy.
    + rewrite (Hqp y Hy). simpl. lia.
    + destruct (p y); simpl; lia.
Qed.

(** The folder of a nested object is longer than the name of the config
    entry of the object around it. *)
Lemma deeper_nested folder att z :
  In (_append_folder folder "config") (namelist z) ->
  deeper (_append_folder folder (att ++ ".mushroom")) z < deeper folder z.
Proof.
  intros Hin. unfold deeper.
  pose proof (length_append_folder folder "config") as Hc.
  pose proof (length_append_folder folder (att ++ ".mushroom")) as Hn.
  rewrite length_append in Hn. simpl in Hc, Hn.
  apply filter_length_lt with (_append_folder folder "config").
  - intros n Hq. apply Nat.ltb_lt in Hq. apply Nat.ltb_lt. lia.
  - exact Hin.
  - apply Nat.ltb_lt.
    destruct folder as [|c folder]; [simpl; lia|].
    unfold _append_folder. rewrite !length_append. simpl. lia.
  - apply Nat.ltb_ge.
    destruct folder as [|c folder].
    + simpl in *. lia.
    + unfold _append_folder. rewrite !length_append. simpl. lia.
Qed.

Lemma deeper_le folder z : deeper folder z <= List.length z.
Proof.
  unfold deeper, namelist.
  rewrite <- (length_map fst z). apply filter_length_le.
Qed.

Lemma plain_loaders_no_recursion z n :
  _load_pickle z n <> Raise RecursionError /\
  _load_numpy z n <> Raise RecursionError /\
  _load_torch z n <> Raise RecursionError /\
  _load_json z n <> Raise RecursionError.
Proof.
  unfold _load_pickle, _load_numpy, _load_torch, _load_json, zip_open.
  destruct (assoc_get n (rev z)) as [[]|]; cbn; repeat split; discriminate.
Qed.

(** A step of a load that runs out of depth does so in the load of a
    nested object. *)
Lemma load_attribute_recursion rec z folder o att spec :
  load_attribute rec z folder o (att, spec) = Raise RecursionError ->
  rec z (_append_folder folder (att ++ ".mushroom")) = Raise RecursionError.
Proof.
  destruct (codec_of spec) as [[m full_only]|] eqn:Hspec.
  - rewrite (load_attribute_unfold rec z folder o att spec m full_only Hspec).
    destruct (in_namelist (pfx folder ++ att ++ "." ++ m) z
              || String.eqb m "mushroom"); [|discriminate].
    destruct (plain_loaders_no_recursion z (pfx folder ++ att ++ "." ++ m))
      as (Hp & Hn & Ht & Hj).
    unfold class_load_method.
    destruct (String.eqb_spec m "pickle") as [->|_];
      [cbn [rbind]; destruct (_load_pickle _ _); [discriminate|];
       cbn [rbind]; congruence|].
    destruct (String.eqb_spec m "numpy") as [->|_];
      [cbn [rbind]; destruct (_load_numpy _ _); [discriminate|];
       cbn [rbind]; congruence|].
    destruct (String.eqb_spec m "torch") as [->|_];
      [cbn [rbind]; destruct (_load_torch _ _); [discriminate|];
       cbn [rbind]; congruence|].
    destruct (String.eqb_spec m "json") as [->|_];
      [cbn [rbind]; destruct (_load_json _ _); [discriminate|];
       cbn [rbind]; congruence|].
    destruct (String.eqb_spec m "mushroom") as [->|_]; [|discriminate].
    cbn [rbind]. unfold _load_mushroom. rewrite append_folder_pfx.
    destruct (rec z (pfx folder ++ att ++ "." ++ "mushroom")) eqn:Hrec;
      [discriminate|].
    cbn [rbind]. intros H. injection H as ->.
    exact Hrec.
  - destruct (codec_of_none _ Hspec) as [H| ->].
    + unfold load_attribute. rewrite H. discriminate.
    + discriminate.
Qed.

Lemma load_attributes_recursion rec z folder items :
  forall o,
    load_attributes rec z folder items o = Raise RecursionError ->
    exists att,
      rec z (_append_folder folder (att ++ ".mushroom"))
      = Raise RecursionError.
Proof.
  induction items as [|[att spec] items IH]; intros o H; [discriminate|].
  cbn [load_attributes] in H.
  destruct (load_attribute rec z folder o (att, spec)) as [o'|err] eqn:Hstep.
  - now apply (IH o').
  - cbn [rbind] in H. injection H as ->. exists att.
    now apply load_attribute_recursion with o spec.
Qed.

Lemma load_zip_body_recursion rec z folder :
  load_zip_body rec z folder = Raise RecursionError ->
  In (_append_folder folder "config") (namelist z) /\
  exists att,
    rec z (_append_folder folder (att ++ ".mushroom")) = Raise RecursionError.
Proof.
  unfold load_zip_body.
  destruct (_load_pickle z (_append_folder folder "config")) as [config|err]
    eqn:Hconfig.
  - intros H. split; [now apply load_pickle_found with config|].
    cbn [rbind] in H.
    destruct (dict_values config) as [vals|] eqn:Hvals;
      [|cbn [rbind] in H; injection H as ->;
        destruct config; discriminate Hvals].
    cbn [rbind] in H.
    destruct vals as [|ty [|sav [|]]]; try discriminate.
    destruct (object_new ty) as [o|] eqn:Hnew;
      [|cbn [rbind] in H; injection H as ->; destruct ty; discriminate Hnew].
    cbn [rbind] in H.
    destruct (dict_items sav) as [items|] eqn:Hitems;
      [|cbn [rbind] in H; injection H as ->;
        destruct sav; discriminate Hitems].
    cbn [rbind] in H.
    destruct (load_attributes rec z folder items o) as [y|err] eqn:Hatts;
      [discriminate|].
    cbn [rbind] in H. injection H as ->.
    now apply load_attributes_recursion with items o.
  - cbn [rbind]. intros H. injection H as ->.
    now destruct (plain_loaders_no_recursion z (_append_folder folder "config")).
Qed.

Lemma load_zip_depth fuel :
  forall z folder,
    deeper folder z < fuel ->
    load_zip fuel z folder <> Raise RecursionError.
Proof.
  induction fuel as [|fuel IH]; intros z folder Hlt H; [lia|].
  cbn [load_zip] in H.
  destruct (load_zip_body_recursion _ _ _ H) as (Hconfig & att & Hrec).
  apply (IH z (_append_folder folder (att ++ ".mushroom"))); [|exact Hrec].
  pose proof (deeper_nested folder att z Hconfig). lia.
Qed.

(** A load that did not run out of depth does the same with more. *)
Lemma load_attribute_more rec rec' z folder o item :
  (forall fd, rec z fd <> Raise RecursionError -> rec' z fd = rec z fd) ->
  load_attribute rec z folder o item <> Raise RecursionError ->
  load_attribute rec' z folder o item = load_attribute rec z folder o item.
Proof.
  intros Hrec. destruct item as [att spec].
  destruct (codec_of spec) as [[m full_only]|] eqn:Hspec.
  - rewrite !(load_attribute_unfold _ z folder o att spec m full_only Hspec).
    destruct (in_namelist (pfx folder ++ att ++ "." ++ m) z
              || String.eqb m "mushroom"); [|reflexivity].
    unfold class_load_method.
    destruct (String.eqb_spec m "pickle") as [->|_]; [reflexivity|].
    destruct (String.eqb_spec m "numpy") as [->|_]; [reflexivity|].
    destruct (String.eqb_spec m "torch") as [->|_]; [reflexivity|].
    destruct (String.eqb_spec m "json") as [->|_]; [reflexivity|].
    destruct (String.eqb_spec m "mushroom") as [->|_]; [|reflexivity].
    cbn [rbind]. unfold _load_mushroom. intros H.
    rewrite Hrec; [reflexivity|].
    intros Habs. apply H. now rewrite Habs.
  - destruct (codec_of_none _ Hspec) as [H| ->].
    + unfold load_attribute. now rewrite H.
    + reflexivity.
Qed.

Lemma load_attributes_more rec rec' z folder items :
  (forall fd, rec z fd <> Raise RecursionError -> rec' z fd = rec z fd) ->
  forall o,
    load_attributes rec z folder items o <> Raise RecursionError ->
    load_attributes rec' z folder items o
    = load_attributes rec z folder items o.
Proof.
  intros Hrec. induction items as [|item items IH]; intros o H;
    [reflexivity|].
  cbn [load_attributes] in *.
  rewrite (load_attribute_more rec rec' z folder o item Hrec).
  - destruct (load_attribute rec z folder o item) as [o'|err];
      [|reflexivity].
    cbn [rbind] in *. now apply IH.
  - intros Habs. apply H. now rewrite Habs.
Qed.

Lemma load_zip_body_more rec rec' z folder :
  (forall fd, rec z fd <> Raise RecursionError -> rec' z fd = rec z fd) ->
  load_zip_body rec z folder <> Raise RecursionError ->
  load_zip_body rec' z folder = load_zip_body rec z folder.
Proof.
  intros Hrec. unfold load_zip_body.
  destruct (_load_pickle z (_append_folder folder "config")) as [config|];
    [|reflexivity].
  cbn [rbind]. destruct (dict_values config) as [vals|]; [|reflexivity].
  cbn [rbind]. destruct vals as [|ty [|sav [|]]]; try reflexivity.
  destruct (object_new ty) as [o|]; [|reflexivity].
  cbn [rbind]. destruct (dict_items sav) as [items|]; [|reflexivity].
  cbn [rbind]. intros H.
  rewrite (load_attributes_more rec rec' z folder items Hrec);
    [reflexivity|].
  intros Habs. apply H. now rewrite Habs.
Qed.

Lemma load_zip_more fuel :
  forall fuel' z folder,
    fuel <= fuel' ->
    load_zip fuel z folder <> Raise RecursionError ->
    load_zip fuel' z folder = load_zip fuel z folder.
Proof.
  induction fuel as [|fuel IH]; intros fuel' z folder Hle H;
    [now destruct H|].
  destruct fuel' as [|fuel']; [lia|].
  cbn [load_zip] in *. apply load_zip_body_more; [|exact H].
  intros fd Hfd. apply IH; [lia | exact Hfd].
Qed.

(* ------------------------------------------------------------------ *)
(** ** The body of a save, taken apart *)

Lemma step_writes rec full_save folder item self :
  (forall fs fd v, writes (fun _ => True) (rec fs fd) v) ->
  writes (fun _ => True) (save_attribute rec full_save folder item) self.
Proof.
  intros Hrec. destruct item as [att spec].
  destruct (step_run_complete rec full_save folder self att spec Hrec)
    as (e & r & Hstep).
  exists e, r. split; [now apply step_run_sound|].
  apply Forall_forall. intros; exact I.
Qed.

Lemma save_zip_body_loop rec full_save folder cls fields sav E r :
  getattr "_save_attributes" (PObject cls fields) = OK sav ->
  runs_to (bind (lift (dict_items sav))
             (fun items => for_each items (save_attribute rec full_save folder)))
    (PObject cls fields) E r ->
  runs_to (save_zip_body rec full_save folder) (PObject cls fields)
    ((_append_folder folder "config",
      BPickle (PDict [("type", PClass cls); ("save_attributes", sav)]))
       :: E) r.
Proof.
  intros Hsa Hrun z. unfold save_zip_body.
  unfold bind at 1 2 3, read_self. cbn [fst]. rewrite Hsa.
  cbn [type_of]. unfold on_zip, _save_pickle, zip_write, pickle_dump.
  cbn [fst snd]. rewrite Hrun.
  now rewrite <- app_assoc.
Qed.

(** Either the body raises [AttributeError] for want of a mapping, or it
    writes the config entry and goes through the mapping. *)
Lemma save_zip_body_inv rec full_save folder self E r :
  (forall fs fd v, writes (fun _ => True) (rec fs fd) v) ->
  runs_to (save_zip_body rec full_save folder) self E r ->
  r = Raise AttributeError \/
  exists cls fields sa E0,
    self = PObject cls fields /\
    getattr "_save_attributes" self = OK (PDict sa) /\
    E = ((_append_folder folder "config",
          BPickle (PDict [("type", PClass cls);
                          ("save_attributes", PDict sa)])) :: E0) /\
    runs_to (for_each sa (save_attribute rec full_save folder)) self E0 r.
Proof.
  intros Hrec Hrun.
  destruct (hasattr "_save_attributes" self) eqn:Hhas.
  - destruct self as [| | | | | | | | |cls fields]; try discriminate Hhas.
    cbn [hasattr] in Hhas.
    destruct (assoc_get "_save_attributes" fields) as [sav|] eqn:Hsav;
      [|discriminate Hhas].
    assert (getattr "_save_attributes" (PObject cls fields) = OK sav) as Hsa
      by (cbn [getattr]; now rewrite Hsav).
    destruct sav as [| | | | |sa| | | |];
      try (left;
           refine (proj2 (runs_to_fun _ _ _ _ _ _ Hrun
                            (save_zip_body_loop rec full_save folder cls
                               fields _ [] _ Hsa _)));
           apply runs_bind_raise, runs_lift).
    right.
    destruct (writes_for_each (fun _ => True) (PObject cls fields)
                (save_attribute rec full_save folder) sa
                (fun item _ => step_writes rec full_save folder item _ Hrec))
      as (E0 & r0 & Hloop & _).
    assert (runs_to (save_zip_body rec full_save folder) (PObject cls fields)
              ((_append_folder folder "config",
                BPickle (PDict [("type", PClass cls);
                                ("save_attributes", PDict sa)])) :: E0) r0)
      as Hbody.
    { apply save_zip_body_loop; [exact Hsa|].
      change E0 with ([] ++ E0)%list.
      apply runs_bind with sa; [apply runs_lift | exact Hloop]. }
    destruct (runs_to_fun _ _ _ _ _ _ Hrun Hbody) as [-> ->].
    now exists cls, fields, sa, E0.
  - left.
    exact (proj2 (runs_to_fun _ _ _ _ _ _ Hrun
                    (save_zip_body_undeclared rec full_save folder self Hhas))).
Qed.

Lemma save_zip_body_declared rec full_save folder cls fields sa E r :
  getattr "_save_attributes" (PObject cls fields) = OK (PDict sa) ->
  runs_to (for_each sa (save_attribute rec full_save folder))
    (PObject cls fields) E r ->
  runs_to (save_zip_body rec full_save folder) (PObject cls fields)
    ((_append_folder folder "config",
      BPickle (PDict [("type", PClass cls); ("save_attributes", PDict sa)]))
       :: E) r.
Proof.
  intros Hsa Hloop. apply save_zip_body_loop; [exact Hsa|].
  change E with ([] ++ E)%list.
  apply runs_bind with sa; [apply runs_lift | exact Hloop].
Qed.

(* ------------------------------------------------------------------ *)
(** ** How deep a save goes *)

Lemma get_height att cls fields v :
  getattr att (PObject cls fields) = OK v ->
  height v < height (PObject cls fields).
Proof.
  cbn [getattr]. destruct (assoc_get att fields) as [v'|] eqn:Hget;
    [|discriminate].
  intros H. injection H as ->. apply assoc_get_in in Hget.
  cbn [height]. apply Nat.lt_succ_r.
  induction fields as [|[k w] fields IH]; [destruct Hget|].
  cbn [fold_right snd]. destruct Hget as [Heq|Hin].
  - injection Heq as _ ->. apply Nat.le_max_l.
  - etransitivity; [now apply IH | apply Nat.le_max_r].
Qed.

Lemma encoder_no_recursion m v err :
  encoder m v = Raise err -> err <> RecursionError.
Proof.
  unfold encoder, pickle_dump, torch_save, np_save, json_dumps.
  destruct (String.eqb m "pickle"); [discriminate|].
  destruct (String.eqb m "numpy");
    [destruct v; intros H; try discriminate H; injection H as <-;
     discriminate|].
  destruct (String.eqb m "torch"); [discriminate|].
  destruct (json_serializable v); [discriminate|].
  intros H. injection H as <-. discriminate.
Qed.

(** A step that runs out of depth does so in the save of the nested
    object that the attribute holds. *)
Lemma step_recursion rec full_save folder self att spec e :
  (forall fs fd v, writes (fun _ => True) (rec fs fd) v) ->
  runs_to (save_attribute rec full_save folder (att, spec)) self e
    (Raise RecursionError) ->
  getattr att self = OK (declared_value att self) /\
  runs_to (rec full_save (_append_folder folder (att ++ ".mushroom")))
    (declared_value att self) e (Raise RecursionError).
Proof.
  intros Hrec Hrun. apply step_run_inv in Hrun; [|exact Hrec].
  inversion Hrun; subst; try discriminate.
  - match goal with
    | H : spec_error _ = _ |- _ => destruct spec; discriminate H
    end.
  - match goal with
    | H : encoder _ _ = Raise _ |- _ =>
        now destruct (encoder_no_recursion _ _ _ H)
    end.
  - split; [|assumption].
    apply declared_value_getattr.
    match goal with
    | H : left_out _ _ _ = false |- _ =>
        unfold left_out in H; now apply orb_false_elim in H
    end.
Qed.

Lemma call_save_method_ext rec rec' att m v full_save folder self z :
  (forall fd z, rec' full_save fd (v, z) = rec full_save fd (v, z)) ->
  call_save_method rec' att m (att ++ "." ++ m) v full_save folder (self, z)
  = call_save_method rec att m (att ++ "." ++ m) v full_save folder (self, z).
Proof.
  intros Hext. unfold call_save_method, bind, read_self. cbn [fst].
  destruct (hasattr ("_save_" ++ m) self); [reflexivity|].
  destruct (String.eqb m "pickle"); [reflexivity|].
  destruct (String.eqb m "numpy"); [reflexivity|].
  destruct (String.eqb m "torch"); [reflexivity|].
  destruct (String.eqb m "json"); [reflexivity|].
  destruct (String.eqb m "mushroom"); [|reflexivity].
  unfold _save_mushroom, on_attribute. cbn [fst snd]. now rewrite Hext.
Qed.

Lemma save_attribute_ext rec rec' full_save folder self item z :
  (forall att v fd z,
      getattr att self = OK v ->
      rec' full_save fd (v, z) = rec full_save fd (v, z)) ->
  save_attribute rec' full_save folder item (self, z)
  = save_attribute rec full_save folder item (self, z).
Proof.
  intros Hext. destruct item as [att spec].
  destruct (codec_of spec) as [[m full_only]|] eqn:Hspec.
  - destruct (left_out full_save full_only (declared_value att self))
      eqn:Hout.
    + now rewrite
        (save_attribute_left_out rec' full_save folder self att spec m
           full_only Hspec Hout z),
        (save_attribute_left_out rec full_save folder self att spec m
           full_only Hspec Hout z).
    + destruct (has_save_method m self) eqn:Hm.
      * rewrite
          (save_attribute_written rec' full_save folder self att spec m
             full_only Hspec Hout Hm z),
          (save_attribute_written rec full_save folder self att spec m
             full_only Hspec Hout Hm z).
        apply call_save_method_ext. intros fd z'. apply Hext with att.
        apply declared_value_getattr. unfold left_out in Hout.
        now apply orb_false_elim in Hout.
      * now rewrite
          (save_attribute_not_implemented rec' full_save folder self att
             spec m full_only Hspec Hout Hm z),
          (save_attribute_not_implemented rec full_save folder self att
             spec m full_only Hspec Hout Hm z).
  - now rewrite
      (save_attribute_unreadable rec' full_save folder att spec self Hspec z),
      (save_attribute_unreadable rec full_save folder att spec self Hspec z).
Qed.

Lemma save_zip_body_ext rec rec' full_save folder self :
  (forall item,
      writes (fun _ => True) (save_attribute rec full_save folder item) self) ->
  (forall att v fd z,
      getattr att self = OK v ->
      rec' full_save fd (v, z) = rec full_save fd (v, z)) ->
  forall z,
    save_zip_body rec' full_save folder (self, z)
    = save_zip_body rec full_save folder (self, z).
Proof.
  intros Hw Hext z. unfold save_zip_body.
  unfold bind at 1 2 3 5 6 7, read_self. cbn [fst].
  destruct (type_of self) as [ty|]; [|reflexivity].
  destruct (getattr "_save_attributes" self) as [sav|]; [|reflexivity].
  unfold on_zip, _save_pickle, zip_write, pickle_dump. cbn [fst snd].
  unfold bind, lift. destruct (dict_items sav) as [items|]; [|reflexivity].
  apply for_each_ext; [exact Hw|].
  intros item z' _. now apply save_attribute_ext.
Qed.

Lemma save_zip_depth fuel :
  forall self full_save folder,
    height self < fuel ->
    (forall E,
        ~ runs_to (save_zip fuel full_save folder) self E
            (Raise RecursionError)) /\
    (forall fuel' z,
        fuel <= fuel' ->
        save_zip fuel' full_save folder (self, z)
        = save_zip fuel full_save folder (self, z)).
Proof.
  induction fuel as [|fuel IH]; intros self full_save folder Hh; [lia|].
  assert (forall att v, getattr att self = OK v -> height v < fuel) as Hsub.
  { intros att v Hget.
    destruct self as [| | | | | | | | |cls fields]; try discriminate Hget.
    pose proof (get_height att cls fields v Hget). lia. }
  split.
  - intros E Hrun. cbn [save_zip] in Hrun.
    destruct (save_zip_body_inv _ _ _ _ _ _
                (fun fs fd v => save_zip_writes_only fuel fs fd v) Hrun)
      as [Habs|(cls & fields & sa & E0 & -> & _ & -> & Hloop)];
      [discriminate Habs|].
    destruct (for_each_raised _ _ sa E0 _ Hloop
                (fun item => save_attribute_writes_only fuel full_save
                               folder item (PObject cls fields)))
      as (pre & [att spec] & post & E1 & e & _ & _ & Hstep & _).
    destruct (step_recursion _ _ _ _ _ _ _
                (fun fs fd v => save_zip_writes_only fuel fs fd v) Hstep)
      as [Hget Hnested].
    exact (proj1 (IH _ full_save _ (Hsub _ _ Hget)) _ Hnested).
  - intros fuel' z Hle. destruct fuel' as [|fuel']; [lia|].
    cbn [save_zip]. apply save_zip_body_ext.
    + intros item. apply save_attribute_writes_only.
    + intros att v fd z' Hget.
      apply (proj2 (IH v full_save fd (Hsub _ _ Hget))). lia.
Qed.

(* ------------------------------------------------------------------ *)
(** ** A partial save beside a full save *)

Lemma for_each_ok_inv {S} (self : pyval) (body : S -> M world unit)
    (x : S) (xs : list S) E :
  (forall x, writes (fun _ => True) (body x) self) ->
  runs_to (for_each (x :: xs) body) self E (OK tt) ->
  exists e1 e2,
    E = (e1 ++ e2)%list /\
    runs_to (body x) self e1 (OK tt) /\
    runs_to (for_each xs body) self e2 (OK tt).
Proof.
  intros Hw Hrun. simpl in Hrun.
  destruct (Hw x) as (e1 & [[]|err1] & H1 & _).
  - destruct (writes_for_each (fun _ => True) self body xs
                (fun y _ => Hw y)) as (e2 & r2 & H2 & _).
    destruct (runs_to_fun _ _ _ _ _ _ Hrun (runs_bind _ _ _ _ _ _ _ H1 H2))
      as [-> <-].
    now exists e1, e2.
  - destruct (runs_to_fun _ _ _ _ _ _ Hrun
                (runs_bind_raise _ _ (fun _ => for_each xs body) _ _ H1))
      as [_ H]. discriminate H.
Qed.

Lemma for_each_within {S} (self : pyval) (body body' : S -> M world unit)
    (xs : list S) :
  (forall x, writes (fun _ => True) (body x) self) ->
  (forall x e,
      In x xs -> runs_to (body x) self e (OK tt) ->
      exists e', runs_to (body' x) self e' (OK tt) /\ incl e' e) ->
  forall E,
    runs_to (for_each xs body) self E (OK tt) ->
    exists E', runs_to (for_each xs body') self E' (OK tt) /\ incl E' E.
Proof.
  intros Hw. induction xs as [|x xs IH]; intros Hstep E Hrun.
  - destruct (runs_to_fun _ _ _ _ _ _ Hrun (runs_ret self tt)) as [-> _].
    exists []. split; [apply runs_ret | apply incl_refl].
  - destruct (for_each_ok_inv self body x xs E Hw Hrun)
      as (e1 & e2 & -> & H1 & H2).
    destruct (Hstep x e1 (or_introl eq_refl) H1) as (e1' & H1' & Hi1).
    destruct (IH (fun y e Hy => Hstep y e (or_intror Hy)) e2 H2)
      as (e2' & H2' & Hi2).
    exists (e1' ++ e2')%list. split.
    + simpl. now apply runs_bind with tt.
    + apply incl_app; [now apply incl_appl | now apply incl_appr].
Qed.

Lemma partial_step_within fuel folder self att spec e :
  (forall v fd E,
      runs_to (save_zip fuel true fd) v E (OK tt) ->
      exists E', runs_to (save_zip fuel false fd) v E' (OK tt) /\ incl E' E) ->
  runs_to (save_attribute (save_zip fuel) true folder (att, spec)) self e
    (OK tt) ->
  exists e',
    runs_to (save_attribute (save_zip fuel) false folder (att, spec)) self e'
      (OK tt) /\
    incl e' e.
Proof.
  intros IH Hrun.
  apply step_run_inv in Hrun; [|intros; apply save_zip_writes_only].
  assert (forall fo,
             left_out true fo (declared_value att self) = false ->
             left_out false fo (declared_value att self) = fo) as Hflag.
  { intros fo H. unfold left_out in *. apply orb_false_elim in H as [_ ->].
    now destruct fo. }
  inversion Hrun; subst.
  - exists []. split; [|apply incl_refl].
    apply step_run_sound.
    match goal with
    | H : codec_of spec = Some (?m, ?fo) |- _ =>
        apply step_left_out with m fo; [exact H|]
    end.
    match goal with
    | H : left_out true _ _ = true |- _ =>
        unfold left_out in *; rewrite andb_false_r in H; cbn [orb] in H;
        rewrite H; apply orb_true_r
    end.
  - match goal with
    | H : codec_of spec = Some (_, ?fo) |- _ => destruct fo
    end.
    + exists []. split; [|apply incl_nil_l].
      apply step_run_sound. eapply step_left_out; [eassumption|].
      now apply Hflag.
    + eexists. split; [|apply incl_refl].
      apply step_run_sound. eapply step_written; eauto.
  - match goal with
    | H : codec_of spec = Some (_, ?fo) |- _ => destruct fo
    end.
    + exists []. split; [|apply incl_nil_l].
      apply step_run_sound. eapply step_left_out; [eassumption|].
      now apply Hflag.
    + match goal with
      | H : runs_to (save_zip fuel true _) _ _ _ |- _ =>
          destruct (IH _ _ _ H) as (E' & Hrun' & Hincl)
      end.
      exists E'. split; [|exact Hincl].
      apply step_run_sound. eapply step_nested; eauto.
Qed.

Lemma partial_within fuel :
  forall self folder E,
    runs_to (save_zip fuel true folder) self E (OK tt) ->
    exists E',
      runs_to (save_zip fuel false folder) self E' (OK tt) /\ incl E' E.
Proof.
  induction fuel as [|fuel IH]; intros self folder E Hrun.
  - destruct (runs_to_fun _ _ _ _ _ _ Hrun (runs_raise self RecursionError))
      as [_ H]. discriminate H.
  - cbn [save_zip] in Hrun.
    destruct (save_zip_body_inv _ _ _ _ _ _
                (fun fs fd v => save_zip_writes_only fuel fs fd v) Hrun)
      as [Habs|(cls & fields & sa & E0 & -> & Hsa & -> & Hloop)];
      [discriminate Habs|].
    destruct (for_each_within (PObject cls fields)
                (save_attribute (save_zip fuel) true folder)
                (save_attribute (save_zip fuel) false folder) sa
                (fun item => save_attribute_writes_only fuel true folder item
                               (PObject cls fields))
                (fun item e _ =>
                   match item with
                   | (att, spec) =>
                       partial_step_within fuel folder (PObject cls fields)
                         att spec e IH
                   end)
                E0 Hloop) as (E0' & Hloop' & Hincl).
    eexists. split.
    + cbn [save_zip]. apply save_zip_body_declared; [exact Hsa|exact Hloop'].
    + intros entry [<-|Hin]; [now left | right; now apply Hincl].
Qed.

(* ------------------------------------------------------------------ *)
(** ** Saving what a load has built *)






(* ------------------------------------------------------------------ *)
(** ** Further properties of the protocol *)

(** X1.  A save only appends.  Whatever the object, the flag, the folder
    and the outcome, [save_zip] keeps the entries the archive held, in
    their order, and adds its own after them; what it adds and how it ends
    do not depend on what the archive held; and every entry it adds lies
    under the folder it was given. *)
Theorem save_zip_appends fuel full_save folder self :
  exists E r,
    (forall z,
        save_zip fuel full_save folder (self, z)
        = ((self, (z ++ E)%list), r)) /\
    (forall n, In n (namelist E) -> starts_with (pfx folder) n).
Proof.
  destruct (save_zip_writes_under fuel full_save folder self)
    as (E & r & Hrun & Hall).
  exists E, r. split; [exact Hrun|].
  rewrite Forall_forall in Hall. exact Hall.
Qed.

(** X2.  Attributes do not share entries.  For two declared names that are
    distinct and free of dots, no entry written for the one (the entries of
    a nested object included) is an entry written for the other, and none
    is the config entry of the object. *)
Theorem attribute_entries_disjoint fuel full_save folder self a sa b sb
    ea ra eb rb :
  has_dot a = false -> has_dot b = false -> a <> b ->
  runs_to (save_attribute (save_zip fuel) full_save folder (a, sa)) self
    ea ra ->
  runs_to (save_attribute (save_zip fuel) full_save folder (b, sb)) self
    eb rb ->
  forall n, In n (namelist ea) ->
    ~ In n (namelist eb) /\ n <> _append_folder folder "config".
Proof.
  intros Ha Hb Hab Hra Hrb n Hn.
  destruct (save_attribute_writes_under fuel full_save folder a sa self)
    as (ea' & ra' & Hra' & Hua).
  destruct (save_attribute_writes_under fuel full_save folder b sb self)
    as (eb' & rb' & Hrb' & Hub).
  destruct (runs_to_fun _ _ _ _ _ _ Hra Hra') as [<- _].
  destruct (runs_to_fun _ _ _ _ _ _ Hrb Hrb') as [<- _].
  rewrite Forall_forall in Hua, Hub.
  split.
  - intros Hn'.
    exact (attribute_prefixes_disjoint (pfx folder) a b n Ha Hb Hab
             (Hua n Hn) (Hub n Hn')).
  - rewrite append_folder_pfx.
    exact (under_attribute_has_dot folder a n (Hua n Hn)).
Qed.

Lemma attribute_entries_disjoint_witness :
  ~ In "_network.torch"
      (namelist [("_config.json", BJson (PDict [("lr", PInt 1)]))]) /\
  "_network.torch" <> _append_folder EmptyString "config".
Proof.
  apply (attribute_entries_disjoint 1 true EmptyString example_agent
           "_network" (PStr "torch") "_config" (PStr "json")
           [("_network.torch", BTorch (PTensor [2] [5; 6]%Z true))] (OK tt)
           [("_config.json", BJson (PDict [("lr", PInt 1)]))] (OK tt)).
  - reflexivity.
  - reflexivity.
  - discriminate.
  - intros z. reflexivity.
  - intros z. reflexivity.
  - simpl. tauto.
Defined.

(** X3.  An object without declarations is not saved.  A save of a value
    that has no [_save_attributes] raises [AttributeError] before the
    config entry is written: the archive it leaves is empty. *)
Theorem save_needs_declarations fuel full_save self :
  hasattr "_save_attributes" self = false ->
  save (S fuel) self full_save = ((self, []), Raise AttributeError).
Proof.
  intros Hno. unfold save.
  now rewrite (save_zip_undeclared fuel full_save EmptyString self Hno []).
Qed.

Lemma save_needs_declarations_witness :
  save 3 (PObject "Regressor" [("_weights", PArray [1] [4]%Z)]) true
  = ((PObject "Regressor" [("_weights", PArray [1] [4]%Z)], []),
     Raise AttributeError).
Proof.
  apply (save_needs_declarations 2 true
           (PObject "Regressor" [("_weights", PArray [1] [4]%Z)])).
  reflexivity.
Defined.

(** X4.  A save and a load under either flag.  For a well-formed object
    and a declared attribute whose codec is not the nested-object one, the
    load of the saved archive ends well, and the attribute of the loaded
    object is [None] when the attribute is kept for full saves only and the
    save was partial, and the value the object held otherwise. *)
Theorem declared_attribute_round_trip fuel full_save x sa att spec m
    full_only :
  well_formed fuel full_save x = true ->
  getattr "_save_attributes" x = OK (PDict sa) ->
  In (att, spec) sa ->
  codec_of spec = Some (m, full_only) ->
  m <> "mushroom" ->
  exists y,
    load fuel (Some (saved_archive fuel x full_save)) = OK y /\
    getattr att y
    = OK (if full_only && negb full_save then PNone
          else declared_value att x).
Proof.
  intros Hwf Hsa Hin Hspec Hm.
  destruct (save_then_load fuel full_save x Hwf) as [_ Hload].
  exists (reloaded fuel full_save x). split; [exact Hload|].
  destruct (well_formed_inv _ _ _ Hwf)
    as (fuel' & cls & fields & sa' & -> & -> & Hsa' & Hnd & _).
  rewrite Hsa in Hsa'. injection Hsa' as <-.
  rewrite (reloaded_getattr fuel' full_save cls fields sa att spec Hsa Hnd
             Hin).
  unfold reloaded_value. rewrite Hspec. unfold left_out.
  destruct (full_only && negb full_save); [reflexivity|]. cbn [orb].
  destruct (is_None (declared_value att (PObject cls fields))) eqn:Hnone.
  - now rewrite (is_None_eq _ Hnone).
  - destruct (String.eqb_spec m "mushroom"); [contradiction|reflexivity].
Qed.

Lemma declared_attribute_round_trip_witness :
  exists y,
    load 2 (Some (saved_archive 2 example_agent false)) = OK y /\
    getattr "_network" y = OK (PTensor [2] [5; 6]%Z true).
Proof.
  apply (declared_attribute_round_trip 2 false example_agent
           [("_save_attributes", PStr "json");
            ("_network", PStr "torch");
            ("_config", PStr "json");
            ("_buffer", PStr "numpy!");
            ("approximator", PStr "mushroom");
            ("_policy", PStr "pickle")]
           "_network" (PStr "torch") "torch" false).
  - reflexivity.
  - reflexivity.
  - simpl. tauto.
  - reflexivity.
  - discriminate.
Defined.

(** X5.  A later declaration wins.  After [_add_save_attr] on an object
    whose mapping, if it has one, is a dict, the mapping gives every name
    of the call the codec spec of the call, whatever spec the name had
    before, the reserved key included. *)
Theorem declaration_overrides cls fields attr_dict k v :
  (forall sav, assoc_get "_save_attributes" fields = Some sav ->
               exists d, sav = PDict d) ->
  NoDup (keys attr_dict) ->
  In (k, v) attr_dict ->
  exists self' d',
    _add_save_attr attr_dict (PObject cls fields) = (self', OK tt) /\
    getattr "_save_attributes" self' = OK (PDict d') /\
    assoc_get k d' = Some v.
Proof.
  intros Hdict Hnd Hin.
  destruct (assoc_get "_save_attributes" fields) as [sav|] eqn:Hsav.
  - destruct (Hdict sav eq_refl) as [d ->].
    rewrite (add_save_attr_declared _ _ _ _ Hsav).
    eexists _, _. split; [reflexivity|]. split.
    + cbn [getattr]. now rewrite assoc_get_set_eq.
    + now apply assoc_update_get.
  - rewrite (add_save_attr_fresh _ _ _ Hsav).
    eexists _, _. split; [reflexivity|]. split.
    + cbn [getattr]. now rewrite assoc_get_set_eq.
    + now apply assoc_update_get.
Qed.

Lemma declaration_overrides_witness :
  exists self' d',
    _add_save_attr [("approximator", PStr "pickle"); ("_q", PStr "numpy!")]
      example_orphan
    = (self', OK tt) /\
    getattr "_save_attributes" self' = OK (PDict d') /\
    assoc_get "approximator" d' = Some (PStr "pickle").
Proof.
  apply (declaration_overrides "BatchTD"
           [("_save_attributes",
             PDict [("_save_attributes", PStr "json");
                    ("approximator", PStr "mushroom")]);
            ("approximator", PNone)]
           [("approximator", PStr "pickle"); ("_q", PStr "numpy!")]
           "approximator" (PStr "pickle")).
  - intros sav H. injection H as <-. eexists. reflexivity.
  - repeat constructor; simpl; intuition discriminate.
  - simpl. tauto.
Defined.

(** X6.  Declaring twice is declaring once.  A call of [_add_save_attr]
    that ends well leaves an object on which the same call changes
    nothing. *)
Theorem declaration_idempotent attr_dict self self' :
  NoDup (keys attr_dict) ->
  _add_save_attr attr_dict self = (self', OK tt) ->
  _add_save_attr attr_dict self' = (self', OK tt).
Proof.
  intros Hnd Hcall.
  assert (forall (d : list (string * pyval)),
             assoc_update (assoc_update d attr_dict) attr_dict
             = assoc_update d attr_dict) as Hidem.
  { intros d. apply assoc_update_same. intros k v Hin.
    now apply assoc_update_get. }
  destruct self as [| | | | | | | | |cls fields]; try discriminate Hcall.
  destruct (assoc_get "_save_attributes" fields) as [sav|] eqn:Hsav.
  - destruct sav as [| | | | |d| | | |];
      try (unfold _add_save_attr, hasattr, getattr, setattr in Hcall;
           rewrite Hsav in Hcall; cbn [negb] in Hcall;
           rewrite Hsav in Hcall; discriminate Hcall).
    rewrite (add_save_attr_declared _ _ _ _ Hsav) in Hcall.
    injection Hcall as <-.
    rewrite (add_save_attr_declared cls _
               (assoc_update d attr_dict) attr_dict)
      by apply assoc_get_set_eq.
    now rewrite Hidem, assoc_set_set.
  - rewrite (add_save_attr_fresh _ _ _ Hsav) in Hcall.
    injection Hcall as <-.
    rewrite (add_save_attr_declared cls _
               (assoc_update [("_save_attributes", PStr "json")] attr_dict)
               attr_dict)
      by apply assoc_get_set_eq.
    now rewrite Hidem, assoc_set_set.
Qed.

Lemma declaration_idempotent_witness :
  _add_save_attr [("_q", PStr "numpy!")]
    (PObject "FQI"
       [("_save_attributes",
         PDict [("_save_attributes", PStr "json"); ("_q", PStr "numpy!")])])
  = (PObject "FQI"
       [("_save_attributes",
         PDict [("_save_attributes", PStr "json"); ("_q", PStr "numpy!")])],
     OK tt).
Proof.
  apply (declaration_idempotent [("_q", PStr "numpy!")] (PObject "FQI" [])).
  - repeat constructor; simpl; intuition.
  - reflexivity.
Defined.


(** X7.  The fields of a loaded object are the declared names.  Whatever
    the archive, an object that a load returns is an instance of the class
    that the config entry records, built without its constructor, and it
    has an attribute exactly for every name of the mapping the config
    entry records: no other field is restored. *)
Theorem loaded_fields_are_declared fuel zip_file y :
  load fuel (Some zip_file) = OK y ->
  exists k1 k2 cls sa fields,
    _load_pickle zip_file "config"
    = OK (PDict [(k1, PClass cls); (k2, PDict sa)]) /\
    y = PObject cls fields /\
    forall att, hasattr att y = true <-> In att (keys sa).
Proof.
  intros Hload. cbn [load] in Hload.
  destruct (load_zip_config _ _ _ _ Hload)
    as (fuel' & k1 & k2 & cls & sa & _ & Hconfig & Hatts).
  destruct (load_attributes_fields _ _ _ _ _ _ _ Hatts)
    as (fields & -> & Hkeys).
  exists k1, k2, cls, sa, fields. split; [exact Hconfig|].
  split; [reflexivity|].
  intros att. rewrite hasattr_keys, Hkeys. simpl. tauto.
Qed.

Lemma loaded_fields_are_declared_witness :
  exists k1 k2 cls sa fields,
    _load_pickle
      [("config",
        BPickle
          (PDict [("type", PClass "Regressor");
                  ("save_attributes", PDict [("_weights", PStr "numpy")])]));
       ("_bias.numpy", BNpy (PArray [1] [9]%Z))]
      "config"
    = OK (PDict [(k1, PClass cls); (k2, PDict sa)]) /\
    PObject "Regressor" [("_weights", PNone)] = PObject cls fields /\
    forall att,
      hasattr att (PObject "Regressor" [("_weights", PNone)]) = true
      <-> In att (keys sa).
Proof.
  apply (loaded_fields_are_declared 1
           [("config",
             BPickle
               (PDict [("type", PClass "Regressor");
                       ("save_attributes",
                        PDict [("_weights", PStr "numpy")])]));
            ("_bias.numpy", BNpy (PArray [1] [9]%Z))]
           (PObject "Regressor" [("_weights", PNone)])).
  reflexivity.
Defined.

(** X8.  A mapping without the reserved key does not survive a load.  When
    the mapping that the config entry records does not declare
    [_save_attributes] itself, the object that a load returns has no
    mapping, and every save of it raises [AttributeError] and leaves an
    empty archive. *)
Theorem reload_needs_reserved_key fuel zip_file y k1 k2 ty sa :
  load fuel (Some zip_file) = OK y ->
  _load_pickle zip_file "config" = OK (PDict [(k1, ty); (k2, PDict sa)]) ->
  ~ In "_save_attributes" (keys sa) ->
  hasattr "_save_attributes" y = false /\
  forall fuel' full_save,
    save (S fuel') y full_save = ((y, []), Raise AttributeError).
Proof.
  intros Hload Hconfig Hnot.
  assert (hasattr "_save_attributes" y = false) as Hno.
  { cbn [load] in Hload.
    destruct (load_zip_config _ _ _ _ Hload)
      as (fuel' & k1' & k2' & cls & sa' & _ & Hconfig' & Hatts).
    cbn [_append_folder] in Hconfig'.
    rewrite Hconfig in Hconfig'. injection Hconfig' as _ _ _ <-.
    destruct (load_attributes_fields _ _ _ _ _ _ _ Hatts)
      as (fields & -> & Hkeys).
    destruct (hasattr "_save_attributes" (PObject cls fields)) eqn:Hhas;
      [|reflexivity].
    apply hasattr_keys, Hkeys in Hhas. simpl in Hhas. tauto. }
  split; [exact Hno|].
  intros fuel' full_save. unfold save.
  now rewrite (save_zip_undeclared fuel' full_save EmptyString y Hno []).
Qed.

Lemma reload_needs_reserved_key_witness :
  hasattr "_save_attributes" (PObject "Regressor" [("_weights", PNone)])
  = false /\
  forall fuel' full_save,
    save (S fuel') (PObject "Regressor" [("_weights", PNone)]) full_save
    = ((PObject "Regressor" [("_weights", PNone)], []),
       Raise AttributeError).
Proof.
  apply (reload_needs_reserved_key 1
           [("config",
             BPickle
               (PDict [("type", PClass "Regressor");
                       ("save_attributes",
                        PDict [("_weights", PStr "numpy")])]))]
           (PObject "Regressor" [("_weights", PNone)])
           "type" "save_attributes" (PClass "Regressor")
           [("_weights", PStr "numpy")]).
  - reflexivity.
  - reflexivity.
  - simpl. intuition discriminate.
Defined.

(** X9.  An empty codec spec is fatal.  When the mapping declares a name
    with the empty string as its codec spec, no save of the object ends
    well, whatever the attribute holds and whatever the flag, and no load
    of an archive whose config entry records the mapping returns an
    object. *)
Theorem empty_spec_is_fatal x sa att :
  getattr "_save_attributes" x = OK (PDict sa) ->
  In (att, PStr EmptyString) sa ->
  (forall fuel full_save, snd (save fuel x full_save) <> OK tt) /\
  (forall fuel zip_file k1 k2 ty y,
      _load_pickle zip_file "config" = OK (PDict [(k1, ty); (k2, PDict sa)]) ->
      load fuel (Some zip_file) <> OK y).
Proof.
  intros Hsa Hin. split.
  - intros fuel full_save Hok.
    destruct (save_completed fuel full_save x sa att _ Hok Hsa Hin)
      as (fuel' & e & _ & Hstep & _).
    destruct (runs_to_fun _ _ _ _ _ _ Hstep
                (save_attribute_unreadable (save_zip fuel') full_save
                   EmptyString att (PStr EmptyString) x eq_refl))
      as [_ H].
    discriminate H.
  - intros fuel zip_file k1 k2 ty y Hconfig Hload.
    destruct (load_declared fuel zip_file y k1 k2 ty sa att _ Hload Hconfig
                Hin) as (fuel' & o & o' & _ & Hstep).
    rewrite load_attribute_unreadable in Hstep. discriminate Hstep.
Qed.

Lemma empty_spec_is_fatal_witness :
  snd (save 2
         (PObject "FQI"
            [("_save_attributes",
              PDict [("_save_attributes", PStr "json");
                     ("_q", PStr EmptyString)])])
         false)
  <> OK tt.
Proof.
  apply (empty_spec_is_fatal
           (PObject "FQI"
              [("_save_attributes",
                PDict [("_save_attributes", PStr "json");
                       ("_q", PStr EmptyString)])])
           [("_save_attributes", PStr "json"); ("_q", PStr EmptyString)]
           "_q").
  - reflexivity.
  - simpl. tauto.
Defined.

(** X10.  A nested attribute must hold an object.  When a name is declared
    under the nested-object codec and holds a value that is neither [None]
    nor an object, no save that does not leave the attribute out ends
    well. *)
Theorem nested_value_must_be_object x sa att spec full_only fuel full_save :
  getattr "_save_attributes" x = OK (PDict sa) ->
  In (att, spec) sa ->
  codec_of spec = Some ("mushroom", full_only) ->
  left_out full_save full_only (declared_value att x) = false ->
  (forall cls fields, declared_value att x <> PObject cls fields) ->
  snd (save fuel x full_save) <> OK tt.
Proof.
  intros Hsa Hin Hspec Hout Hv Hok.
  destruct (save_completed fuel full_save x sa att spec Hok Hsa Hin)
    as (fuel' & e & _ & Hstep & _).
  apply step_run_inv in Hstep; [|intros; apply save_zip_writes_only].
  inversion Hstep; subst;
    match goal with
    | H : codec_of spec = _ |- _ => rewrite Hspec in H; try discriminate H
    end.
  - match goal with
    | H : Some _ = Some _, H' : left_out _ _ _ = true |- _ =>
        injection H as <- <-; rewrite Hout in H'; discriminate H'
    end.
  - match goal with
    | H : Some _ = Some _, H' : is_plain_codec _ = true |- _ =>
        injection H as <- <-; discriminate H'
    end.
  - match goal with
    | H : runs_to (save_zip fuel' _ _) _ _ _ |- _ =>
        destruct (save_zip_not_object fuel' full_save
                    (_append_folder EmptyString (att ++ ".mushroom")) _ Hv)
          as (err & Hraise);
        destruct (runs_to_fun _ _ _ _ _ _ H Hraise) as [_ Habs];
        discriminate Habs
    end.
Qed.

Lemma nested_value_must_be_object_witness :
  snd (save 2
         (PObject "BatchTD"
            [("_save_attributes",
              PDict [("_save_attributes", PStr "json");
                     ("approximator", PStr "mushroom")]);
             ("approximator", PArray [2] [1; 2]%Z)])
         false)
  <> OK tt.
Proof.
  apply (nested_value_must_be_object
           (PObject "BatchTD"
              [("_save_attributes",
                PDict [("_save_attributes", PStr "json");
                       ("approximator", PStr "mushroom")]);
               ("approximator", PArray [2] [1; 2]%Z)])
           [("_save_attributes", PStr "json");
            ("approximator", PStr "mushroom")]
           "approximator" (PStr "mushroom") false 2 false).
  - reflexivity.
  - simpl. tauto.
  - reflexivity.
  - reflexivity.
  - intros cls fields. discriminate.
Defined.

(** X11.  A save stops at the first attribute that fails.  When a save of
    an object with a mapping raises, the mapping splits at the attribute
    whose step raised the error: the steps of the names declared before it
    ended well, and the archive holds the config entry, then what these
    steps wrote, then what the failing step wrote before it raised.  With
    declared names that are distinct and free of dots, the archive holds
    no entry of a name declared after the failing one. *)
Theorem save_stops_at_first_failure fuel full_save cls fields sa err :
  getattr "_save_attributes" (PObject cls fields) = OK (PDict sa) ->
  snd (save (S fuel) (PObject cls fields) full_save) = Raise err ->
  exists pre att spec post E1 e,
    sa = (pre ++ (att, spec) :: post)%list /\
    runs_to
      (for_each pre (save_attribute (save_zip fuel) full_save EmptyString))
      (PObject cls fields) E1 (OK tt) /\
    runs_to (save_attribute (save_zip fuel) full_save EmptyString (att, spec))
      (PObject cls fields) e (Raise err) /\
    saved_archive (S fuel) (PObject cls fields) full_save
    = (("config",
        BPickle (PDict [("type", PClass cls);
                        ("save_attributes", PDict sa)]))
         :: E1 ++ e)%list /\
    (valid_names sa = true ->
     forall att' n,
       In att' (keys post) ->
       In n (namelist (saved_archive (S fuel) (PObject cls fields) full_save)) ->
       ~ under_attribute EmptyString att' n).
Proof.
  intros Hsa Herr.
  pose proof (saved_archive_runs (S fuel) (PObject cls fields) full_save)
    as Hrun.
  rewrite Herr in Hrun.
  destruct (save_zip_body_config (save_zip fuel) full_save EmptyString cls
              fields (PDict sa)
              (fun fs fd self => save_zip_writes_under fuel fs fd self) Hsa)
    as (E0 & r0 & Hbody & _ & Hloop).
  specialize (Hloop sa eq_refl).
  destruct (runs_to_fun _ _ _ _ _ _ Hrun Hbody) as [HE <-].
  destruct (for_each_raised _ _ sa E0 err Hloop
              (fun item => save_attribute_writes_only fuel full_save
                             EmptyString item (PObject cls fields)))
    as (pre & [att spec] & post & E1 & e & -> & Hpre & Hstep & ->).
  exists pre, att, spec, post, E1, e.
  split; [reflexivity|]. split; [exact Hpre|]. split; [exact Hstep|].
  split; [exact HE|].
  intros Hnames att' n Hatt' Hn.
  destruct (valid_names_spec _ Hnames) as [Hnd Hdots].
  unfold keys in Hnd. rewrite map_app in Hnd. cbn [map fst] in Hnd.
  assert (forall k, In k (keys pre) \/ k = att -> k <> att') as Hfresh.
  { intros k Hk ->. destruct Hk as [Hk| ->].
    - apply (nodup_app_split _ _ _ Hnd Hk). now right.
    - apply (NoDup_remove_2 _ _ _ Hnd). apply in_or_app. now right. }
  assert (forall k, In k (keys pre) \/ k = att \/ In k (keys post) ->
                    has_dot k = false) as Hdot.
  { intros k Hk. apply Hdots. unfold keys. rewrite map_app. cbn [map fst].
    apply in_or_app. unfold keys in Hk.
    destruct Hk as [Hk|[->|Hk]]; simpl; auto. }
  rewrite HE in Hn. cbn [namelist map fst] in Hn.
  destruct Hn as [<-|Hn].
  - intros Hunder. now apply under_attribute_has_dot in Hunder.
  - fold (namelist (E1 ++ e)%list) in Hn. rewrite namelist_app in Hn.
    apply in_app_or in Hn.
    assert (exists k, (In k (keys pre) \/ k = att) /\
                      under_attribute EmptyString k n) as (k & Hk & Hunder).
    { destruct Hn as [Hn|Hn].
      - destruct (steps_entries _ _ _ _ _ _ _ Hpre n Hn) as (k & Hk & Hu).
        exists k. auto.
      - destruct (save_attribute_writes_under fuel full_save EmptyString att
                    spec (PObject cls fields)) as (e' & r' & Hstep' & Hall).
        destruct (runs_to_fun _ _ _ _ _ _ Hstep Hstep') as [<- _].
        rewrite Forall_forall in Hall. exists att. auto. }
    apply (attribute_prefixes_disjoint (pfx EmptyString) k att' n);
      [apply Hdot; tauto | apply Hdot; tauto | now apply Hfresh | exact Hunder].
Qed.

Lemma save_stops_at_first_failure_witness :
  exists pre att spec post E1 e,
    [("_save_attributes", PStr "json"); ("_q", PStr "hdf5");
     ("_w", PStr "numpy")]
    = (pre ++ (att, spec) :: post)%list /\
    runs_to
      (for_each pre (save_attribute (save_zip 0) true EmptyString))
      (PObject "FQI"
         [("_save_attributes",
           PDict [("_save_attributes", PStr "json"); ("_q", PStr "hdf5");
                  ("_w", PStr "numpy")]);
          ("_q", PInt 7);
          ("_w", PArray [1] [3]%Z)])
      E1 (OK tt) /\
    runs_to (save_attribute (save_zip 0) true EmptyString (att, spec))
      (PObject "FQI"
         [("_save_attributes",
           PDict [("_save_attributes", PStr "json"); ("_q", PStr "hdf5");
                  ("_w", PStr "numpy")]);
          ("_q", PInt 7);
          ("_w", PArray [1] [3]%Z)])
      e (Raise NotImplementedError) /\
    saved_archive 1
      (PObject "FQI"
         [("_save_attributes",
           PDict [("_save_attributes", PStr "json"); ("_q", PStr "hdf5");
                  ("_w", PStr "numpy")]);
          ("_q", PInt 7);
          ("_w", PArray [1] [3]%Z)])
      true
    = (("config",
        BPickle
          (PDict [("type", PClass "FQI");
                  ("save_attributes",
                   PDict [("_save_attributes", PStr "json");
                          ("_q", PStr "hdf5");
                          ("_w", PStr "numpy")])]))
         :: E1 ++ e)%list /\
    (valid_names
       [("_save_attributes", PStr "json"); ("_q", PStr "hdf5");
        ("_w", PStr "numpy")] = true ->
     forall att' n,
       In att' (keys post) ->
       In n
         (namelist
            (saved_archive 1
               (PObject "FQI"
                  [("_save_attributes",
                    PDict [("_save_attributes", PStr "json");
                           ("_q", PStr "hdf5");
                           ("_w", PStr "numpy")]);
                   ("_q", PInt 7);
                   ("_w", PArray [1] [3]%Z)])
               true)) ->
       ~ under_attribute EmptyString att' n).
Proof.
  apply (save_stops_at_first_failure 0 true "FQI"
           [("_save_attributes",
             PDict [("_save_attributes", PStr "json"); ("_q", PStr "hdf5");
                    ("_w", PStr "numpy")]);
            ("_q", PInt 7);
            ("_w", PArray [1] [3]%Z)]
           [("_save_attributes", PStr "json"); ("_q", PStr "hdf5");
            ("_w", PStr "numpy")]
           NotImplementedError).
  - reflexivity.
  - reflexivity.
Defined.


(** X12.  The calls of [load_zip] nest no deeper than the archive has
    entries.  Count the calls of [load_zip] that are active at once: the
    one [load] makes and, below it, one for every nested object on the way
    to the one being loaded.  When more of them are allowed than the
    archive has entries, a load never fails for want of depth, whatever the
    archive holds, and allowing more changes nothing of what it returns or
    raises: the recursion of [load_zip] through [_load_mushroom] ends on
    every archive.  The bound counts nested calls of [load_zip], not frames
    of the interpreter, which spends several on each. *)
Theorem load_terminates fuel zip_file :
  List.length zip_file < fuel ->
  load fuel (Some zip_file) <> Raise RecursionError /\
  forall fuel',
    fuel <= fuel' -> load fuel' (Some zip_file) = load fuel (Some zip_file).
Proof.
  intros Hlt.
  assert (load_zip fuel zip_file EmptyString <> Raise RecursionError) as H.
  { apply load_zip_depth. pose proof (deeper_le EmptyString zip_file). lia. }
  split; [exact H|].
  intros fuel' Hle. cbn [load]. now apply load_zip_more.
Qed.

Lemma load_terminates_witness :
  load 10 (Some (saved_archive 2 example_agent true))
  <> Raise RecursionError /\
  forall fuel',
    10 <= fuel' ->
    load fuel' (Some (saved_archive 2 example_agent true))
    = load 10 (Some (saved_archive 2 example_agent true)).
Proof.
  apply (load_terminates 10 (saved_archive 2 example_agent true)).
  vm_compute. lia.
Defined.

(** X13.  The calls of [save_zip] nest no deeper than the objects do.
    Count the calls of [save_zip] that are active at once: the one [save]
    makes and, below it, one for every nested object on the way to the one
    being saved.  When more of them are allowed than the depth to which the
    object nests other objects through its fields (an object that holds
    none has depth 1), a save never fails for want of depth, and allowing
    more changes nothing of what it writes or raises.  The bound counts
    nested calls of [save_zip], not frames of the interpreter, which spends
    several on each. *)
Theorem save_terminates fuel x full_save :
  height x < fuel ->
  snd (save fuel x full_save) <> Raise RecursionError /\
  forall fuel', fuel <= fuel' -> save fuel' x full_save = save fuel x full_save.
Proof.
  intros Hh.
  destruct (save_zip_depth fuel x full_save EmptyString Hh) as [Hno Hmore].
  split.
  - intros Habs.
    pose proof (saved_archive_runs fuel x full_save) as Hrun.
    rewrite Habs in Hrun. exact (Hno _ Hrun).
  - intros fuel' Hle. unfold save. now apply Hmore.
Qed.

Lemma save_terminates_witness :
  snd (save 3 example_agent false) <> Raise RecursionError /\
  forall fuel',
    3 <= fuel' -> save fuel' example_agent false = save 3 example_agent false.
Proof.
  apply (save_terminates 3 example_agent false).
  vm_compute. lia.
Defined.

(** X14.  A partial save is a part of the full save.  When the save of an
    object with [full_save=True] ends well, so does its save with
    [full_save=False], and every entry of the partial archive, name and
    content, is an entry of the full archive. *)
Theorem partial_save_within_full fuel x :
  snd (save fuel x true) = OK tt ->
  snd (save fuel x false) = OK tt /\
  incl (saved_archive fuel x false) (saved_archive fuel x true).
Proof.
  intros Hfull.
  pose proof (saved_archive_runs fuel x true) as Hrun.
  rewrite Hfull in Hrun.
  destruct (partial_within fuel x EmptyString _ Hrun) as (E' & Hrun' & Hincl).
  destruct (runs_to_fun _ _ _ _ _ _ (saved_archive_runs fuel x false) Hrun')
    as [-> ->].
  now split.
Qed.

Lemma partial_save_within_full_witness :
  snd (save 2 example_agent false) = OK tt /\
  incl (saved_archive 2 example_agent false)
    (saved_archive 2 example_agent true).
Proof.
  apply (partial_save_within_full 2 example_agent).
  reflexivity.
Defined.



